(** * MarkMark modal editing engine: [core/vim_mode.py] and [core/helix_mode.py]

    A shallow embedding of the key-sequence resolver, the ex-command
    dispatcher, the register store, the text-object finder, the
    multi-cursor manager and the surround manager, followed by the
    properties of the engine that the specification states.

    Conventions of the embedding.
    - A Python [str] is a Rocq [string]; a character is an [ascii] read as the
      code point U+0000..U+00FF, and the character classes ([isspace],
      [isalnum], [\w], ...) are Python's on that range.
    - A Python [int] is a [Z]; indexing and slicing follow Python (negative
      indices count from the end, slices clamp, an index out of range raises
      [IndexError]).
    - A function that can raise returns a [result]; a method that mutates the
      object is a function in a state monad over the object's fields.
    - A [dict] used as a record of an action is an association list in
      insertion order; a [dict] used as a map is a [gmap]. *)

From Stdlib Require Import ZArith Ascii String Sorted.
From stdpp Require Import base option list gmap strings.

Local Open Scope string_scope.
Local Open Scope list_scope.
Local Open Scope Z_scope.

(** ** Python values and built-ins *)

Module Py.

(** The exceptions that the modelled code can raise. *)
Inductive exn : Type :=
| IndexError
| ValueError
| TypeError.

Inductive result (A : Type) : Type :=
| Ok (a : A)
| Raise (e : exn).
Arguments Ok {A} a.
Arguments Raise {A} e.

#[export] Instance result_ret : MRet result := fun A a => Ok a.
#[export] Instance result_bind : MBind result := fun A B f m =>
  match m with
  | Ok a => f a
  | Raise e => Raise e
  end.

Definition is_ok {A} (r : result A) : bool :=
  match r with Ok _ => true | Raise _ => false end.

(** The values stored in an action [dict]. *)
Inductive value : Type :=
| VNone
| VBool (b : bool)
| VInt (n : Z)
| VStr (s : string).

(** An action: a [dict] with string keys, in insertion order. *)
Definition dict : Type := list (string * value).

(** [d.get(k)] *)
Fixpoint dict_get (d : dict) (k : string) : option value :=
  match d with
  | [] => None
  | (k', v) :: d' => if String.eqb k k' then Some v else dict_get d' k
  end.

(** [d[k] = v]: replaces the value of an existing key in place, appends a
    new key otherwise. *)
Fixpoint dict_set (d : dict) (k : string) (v : value) : dict :=
  match d with
  | [] => [(k, v)]
  | (k', v') :: d' =>
      if String.eqb k k' then (k', v) :: d' else (k', v') :: dict_set d' k v
  end.

(** A [dict] literal [{k1: v1, ..., kn: vn}] used as a lookup table: a key
    written twice keeps its last value. *)
Fixpoint table_get {A} (t : list (string * A)) (k : string) : option A :=
  match t with
  | [] => None
  | (k', v) :: t' =>
      match table_get t' k with
      | Some v' => Some v'
      | None => if String.eqb k k' then Some v else None
      end
  end.

Definition table_mem {A} (t : list (string * A)) (k : string) : bool :=
  match table_get t k with Some _ => true | None => false end.

(** *** Characters *)

Definition ord (c : ascii) : Z := Z.of_nat (nat_of_ascii c).

Definition between (lo hi n : Z) : bool := (lo <=? n) && (n <=? hi).

(** [c.isspace()] *)
Definition isspace_char (c : ascii) : bool :=
  let n := ord c in
  between 9 13 n || between 28 32 n || (n =? 133) || (n =? 160).

(** [c.isdecimal()], also the class [\d] of [re] *)
Definition isdecimal_char (c : ascii) : bool := between 48 57 (ord c).

(** [c.isdigit()]: the decimal digits and the superscripts 1, 2, 3 *)
Definition isdigit_char (c : ascii) : bool :=
  let n := ord c in
  between 48 57 n || (n =? 178) || (n =? 179) || (n =? 185).

(** [c.isalpha()] *)
Definition isalpha_char (c : ascii) : bool :=
  let n := ord c in
  between 65 90 n || between 97 122 n || (n =? 170) || (n =? 181)
  || (n =? 186) || between 192 214 n || between 216 246 n
  || between 248 255 n.

(** [c.isalnum()]: alphabetic, or numeric (the digits above and the
    fractions U+00BC..U+00BE) *)
Definition isalnum_char (c : ascii) : bool :=
  isalpha_char c || isdigit_char c || between 188 190 (ord c).

Definition newline : ascii := ascii_of_nat 10.
Definition backslash : ascii := ascii_of_nat 92.
Definition nl : string := String newline "".

(** *** Strings *)

Definition len (s : string) : Z := Z.of_nat (String.length s).

Fixpoint str_take (n : nat) (s : string) : string :=
  match n, s with
  | S n', String c s' => String c (str_take n' s')
  | _, _ => ""
  end.

Fixpoint str_drop (n : nat) (s : string) : string :=
  match n, s with
  | S n', String _ s' => str_drop n' s'
  | _, _ => s
  end.

(** How a slice bound is read against a sequence of length [n]. *)
Definition clamp (n i : Z) : Z :=
  let i := if i <? 0 then i + n else i in
  if i <? 0 then 0 else if n <? i then n else i.

(** [s[lo:hi]]; [None] stands for an omitted bound. *)
Definition slice (s : string) (lo hi : option Z) : string :=
  let n := len s in
  let a := match lo with Some i => clamp n i | None => 0 end in
  let b := match hi with Some i => clamp n i | None => n end in
  str_take (Z.to_nat (b - a)) (str_drop (Z.to_nat a) s).

(** [s[i]]: a string of one character, or [IndexError]. *)
Definition getitem (s : string) (i : Z) : result string :=
  let j := if i <? 0 then i + len s else i in
  if (j <? 0) || (len s <=? j) then Raise IndexError
  else match String.get (Z.to_nat j) s with
       | Some c => Ok (String c "")
       | None => Raise IndexError
       end.

(** [l[i]] on a list *)
Definition list_getitem {A} (l : list A) (i : Z) : result A :=
  let n := Z.of_nat (length l) in
  let j := if i <? 0 then i + n else i in
  if (j <? 0) || (n <=? j) then Raise IndexError
  else match l !! Z.to_nat j with
       | Some x => Ok x
       | None => Raise IndexError
       end.

(** [s.startswith(p)] *)
Fixpoint startswith (s p : string) : bool :=
  match p, s with
  | "", _ => true
  | String a p', String b s' => Ascii.eqb a b && startswith s' p'
  | _, _ => false
  end.

(** [sub in s] *)
Fixpoint str_in (sub s : string) : bool :=
  startswith s sub ||
  match s with
  | "" => false
  | String _ s' => str_in sub s'
  end.

(** The truth value of a string *)
Definition truthy (s : string) : bool := negb (String.eqb s "").

Fixpoint str_forall (p : ascii -> bool) (s : string) : bool :=
  match s with
  | "" => true
  | String c s' => p c && str_forall p s'
  end.

(** [s.isdigit()], [s.isspace()], [s.isalnum()]: at least one character and
    all of them in the class *)
Definition isdigit (s : string) : bool := truthy s && str_forall isdigit_char s.
Definition isspace (s : string) : bool := truthy s && str_forall isspace_char s.
Definition isalnum (s : string) : bool := truthy s && str_forall isalnum_char s.

(** [s.lstrip()], [s.rstrip()], [s.strip()] *)
Fixpoint lstrip (s : string) : string :=
  match s with
  | String c s' => if isspace_char c then lstrip s' else s
  | "" => ""
  end.

Fixpoint rstrip (s : string) : string :=
  match s with
  | "" => ""
  | String c s' =>
      match rstrip s' with
      | "" => if isspace_char c then "" else String c ""
      | r => String c r
      end
  end.

Definition strip (s : string) : string := rstrip (lstrip s).

(** The first run of characters satisfying [p], and what follows it. *)
Fixpoint span (p : ascii -> bool) (s : string) : string * string :=
  match s with
  | String c s' =>
      if p c then let '(a, b) := span p s' in (String c a, b) else ("", s)
  | "" => ("", "")
  end.

(** [s.split(None, 1)]: the first whitespace-delimited word and, when
    something other than whitespace follows it, the rest from its first
    non-blank character on, unstripped on the right. *)
Definition split_ws1 (s : string) : list string :=
  match lstrip s with
  | "" => []
  | s1 =>
      let '(w, r) := span (fun c => negb (isspace_char c)) s1 in
      match lstrip r with
      | "" => [w]
      | r' => [w; r']
      end
  end.

(** [s.split()]: the whitespace-delimited words. The fuel bounds the
    number of words by the length of the string. *)
Fixpoint split_ws_fuel (fuel : nat) (s : string) : list string :=
  match fuel with
  | O => []
  | S fuel' =>
      match lstrip s with
      | "" => []
      | s1 =>
          let '(w, r) := span (fun c => negb (isspace_char c)) s1 in
          w :: split_ws_fuel fuel' r
      end
  end.

Definition split_ws (s : string) : list string :=
  split_ws_fuel (S (String.length s)) s.

(** [s.split(sep)] for a separator of one character *)
Fixpoint split_char (sep : ascii) (s : string) : list string :=
  match s with
  | "" => [""]
  | String c s' =>
      if Ascii.eqb c sep then "" :: split_char sep s'
      else match split_char sep s' with
           | w :: ws => String c w :: ws
           | [] => [String c ""]
           end
  end.

(** [s.count(c)] for one character *)
Fixpoint count_char (c : ascii) (s : string) : Z :=
  match s with
  | "" => 0
  | String d s' => (if Ascii.eqb c d then 1 else 0) + count_char c s'
  end.

(** Index of the first [c] in [s], counted from [i]. *)
Fixpoint index_from (c : ascii) (s : string) (i : Z) : option Z :=
  match s with
  | "" => None
  | String d s' => if Ascii.eqb c d then Some i else index_from c s' (i + 1)
  end.

(** Index of the last [c] in [s], counted from [i]. *)
Fixpoint rindex_from (c : ascii) (s : string) (i : Z) : option Z :=
  match s with
  | "" => None
  | String d s' =>
      match rindex_from c s' (i + 1) with
      | Some j => Some j
      | None => if Ascii.eqb c d then Some i else None
      end
  end.

(** [s.find(c, lo, hi)] and [s.rfind(c, lo, hi)] for one character: the
    search is in [s[lo:hi]], the answer an index of [s] or -1. *)
Definition find (s : string) (c : ascii) (lo hi : option Z) : Z :=
  let a := match lo with Some i => clamp (len s) i | None => 0 end in
  default (-1) (index_from c (slice s lo hi) a).

Definition rfind (s : string) (c : ascii) (lo hi : option Z) : Z :=
  let a := match lo with Some i => clamp (len s) i | None => 0 end in
  default (-1) (rindex_from c (slice s lo hi) a).

(** *** [int(s)]

    Blanks around the number are dropped (for [int] these are the
    characters 9 to 13, 32, 133 and 160), a sign may come first, and the
    digits are decimal, with single underscores allowed between two of
    them. Anything else raises [ValueError], and so does a number of more
    digits than the interpreter converts, which is 4300 unless the host
    changes the limit with [sys.set_int_max_str_digits]. *)

Definition int_blank (c : ascii) : bool :=
  let n := ord c in
  between 9 13 n || (n =? 32) || (n =? 133) || (n =? 160).

Fixpoint drop_while (p : ascii -> bool) (s : string) : string :=
  match s with
  | String c s' => if p c then drop_while p s' else s
  | "" => ""
  end.

(** The digits of [s] read from the left onto [acc]; [after_digit] tells
    whether the previous character was a digit, which an underscore and
    the end of the number need. *)
Fixpoint int_digits (s : string) (acc : Z) (after_digit : bool) : option Z :=
  match s with
  | "" => if after_digit then Some acc else None
  | String c s' =>
      if isdecimal_char c then int_digits s' (10 * acc + (ord c - 48)) true
      else if Ascii.eqb c "_" && after_digit then int_digits s' acc false
      else if int_blank c && after_digit && str_forall int_blank s'
      then Some acc
      else None
  end.

(** [sys.int_info.default_max_str_digits] *)
Definition int_max_str_digits : Z := 4300.

(** The digits of [s], leading zeros included, underscores not. *)
Fixpoint count_digits (s : string) : Z :=
  match s with
  | "" => 0
  | String c s' => (if isdecimal_char c then 1 else 0) + count_digits s'
  end.

Definition int (s : string) : result Z :=
  let body := drop_while int_blank s in
  let parsed :=
    match body with
    | String "+" d => int_digits d 0 false
    | String "-" d => option_map Z.opp (int_digits d 0 false)
    | d => int_digits d 0 false
    end in
  match parsed with
  | Some n =>
      if int_max_str_digits <? count_digits body then Raise ValueError
      else Ok n
  | None => Raise ValueError
  end.

(** [sep.join(l)] *)
Fixpoint join (sep : string) (l : list string) : string :=
  match l with
  | [] => ""
  | x :: l' =>
      match l' with
      | [] => x
      | _ :: _ => x +:+ sep +:+ join sep l'
      end
  end.

(** [sorted(l, key=key)] and [sorted(l, key=key, reverse=True)]: both are
    stable, so an element goes behind the ones already placed whose key
    does not come after its own. *)
Fixpoint insert_sorted {A} (key : A -> Z) (reverse : bool) (x : A)
    (l : list A) : list A :=
  match l with
  | [] => [x]
  | y :: l' =>
      if (if reverse then key x <=? key y else key y <=? key x)
      then y :: insert_sorted key reverse x l'
      else x :: l
  end.

Definition sorted {A} (key : A -> Z) (reverse : bool) (l : list A) : list A :=
  foldl (fun acc x => insert_sorted key reverse x acc) [] l.

End Py.

(** ** The fragment of Python's [re] that the engine's patterns use

    A backtracking matcher: alternatives are tried left to right, a greedy
    repetition tries the longest run first and a lazy one the shortest, a
    group records the span of its last match, and the first way of matching
    that succeeds is the match. Every repetition in the engine's patterns is
    over a class of single characters, which is the only repetition here. *)

Module Re.
Import Py.

Inductive regex : Type :=
| Eps
| Chr (p : ascii -> bool)
| Seq (r1 r2 : regex)
| Alt (r1 r2 : regex)
| Star (greedy : bool) (p : ascii -> bool)
| Group (n : nat) (r : regex)
| Backref (n : nat)
| Eol.

(** Spans of the groups matched so far. *)
Definition groups : Type := nat -> option (nat * nat).

Definition no_groups : groups := fun _ => None.

Definition set_group (n : nat) (span : nat * nat) (g : groups) : groups :=
  fun m => if Nat.eqb m n then Some span else g m.

Section Matcher.
Variable s : string.

(** [$]: at the end of the string, or before a newline that ends it. *)
Definition at_end (i : nat) : bool :=
  match str_drop i s with
  | "" => true
  | String c "" => Ascii.eqb c newline
  | _ => false
  end.

(** [p*] or [p*?] from [i], then the continuation [k]. *)
Fixpoint star (greedy : bool) (p : ascii -> bool) (fuel : nat) (i : nat)
    (k : nat -> option (nat * groups)) : option (nat * groups) :=
  match fuel with
  | O => k i
  | S fuel' =>
      let more (_ : unit) :=
        match String.get i s with
        | Some c => if p c then star greedy p fuel' (S i) k else None
        | None => None
        end in
      if greedy then
        match more () with
        | Some m => Some m
        | None => k i
        end
      else
        match k i with
        | Some m => Some m
        | None => more ()
        end
  end.

(** Match [r] from [i] with the groups [g], then the continuation [k]. *)
Fixpoint run (r : regex) (i : nat) (g : groups)
    (k : nat -> groups -> option (nat * groups)) : option (nat * groups) :=
  match r with
  | Eps => k i g
  | Chr p =>
      match String.get i s with
      | Some c => if p c then k (S i) g else None
      | None => None
      end
  | Seq r1 r2 => run r1 i g (fun j g' => run r2 j g' k)
  | Alt r1 r2 =>
      match run r1 i g k with
      | Some m => Some m
      | None => run r2 i g k
      end
  | Star greedy p =>
      star greedy p (String.length s) i (fun j => k j g)
  | Group n r' => run r' i g (fun j g' => k j (set_group n (i, j) g'))
  | Backref n =>
      match g n with
      | Some (a, b) =>
          let t := str_take (b - a) (str_drop a s) in
          if startswith (str_drop i s) t then k (i + (b - a))%nat g
          else None
      | None => None
      end
  | Eol => if at_end i then k i g else None
  end.

(** One match: where it starts, where it ends and its groups. *)
Record mtch : Type := Match { m_start : nat; m_end : nat; m_groups : groups }.

(** One attempt at [i]. With [must_advance], a match that ends where it
    starts is refused and the alternatives to it are tried: this is how
    a scan resumes after an empty match. *)
Definition match_at (r : regex) (must_advance : bool) (i : nat) : option mtch :=
  match run r i no_groups
          (fun j g => if must_advance && Nat.eqb j i then None
                      else Some (j, g)) with
  | Some (j, g) => Some (Match i j g)
  | None => None
  end.

(** [m.group(n)]: [None] when the group took no part in the match. *)
Definition group (m : mtch) (n : nat) : option string :=
  match m_groups m n with
  | Some (a, b) => Some (str_take (b - a) (str_drop a s))
  | None => None
  end.

(** The first match that starts at [i] or later; [fuel] counts the start
    positions left to try, and [must_advance] holds for the first one
    only. *)
Fixpoint search_from (r : regex) (must_advance : bool) (fuel : nat) (i : nat)
    : option mtch :=
  match match_at r must_advance i with
  | Some m => Some m
  | None =>
      match fuel with
      | O => None
      | S fuel' => search_from r false fuel' (S i)
      end
  end.

(** [re.match(r, s)] *)
Definition rmatch (r : regex) : option mtch := match_at r false 0.

(** [re.search(r, s)] *)
Definition search (r : regex) : option mtch :=
  search_from r false (String.length s) 0.

(** [re.finditer(r, s)]: the matches from left to right, each search
    resuming where the previous match ended, and having to advance when
    that match was empty. Two searches always move the position forward,
    which bounds the fuel. *)
Fixpoint finditer_from (r : regex) (fuel : nat) (must_advance : bool) (i : nat)
    : list mtch :=
  match fuel with
  | O => []
  | S fuel' =>
      if (String.length s <? i)%nat then []
      else
        match search_from r must_advance (String.length s - i) i with
        | Some m =>
            m :: finditer_from r fuel' (Nat.eqb (m_end m) (m_start m)) (m_end m)
        | None => []
        end
  end.

Definition finditer (r : regex) : list mtch :=
  finditer_from r (2 * String.length s + 3) false 0.

End Matcher.

(** *** Writing patterns *)

(** [[abc]] and [[^abc]] *)
Definition one_of (cs : string) : ascii -> bool :=
  fun a => str_in (String a "") cs.
Definition none_of (cs : string) : ascii -> bool :=
  fun a => negb (str_in (String a "") cs).

(** [.], which stops at a newline, and [.] under [re.DOTALL] *)
Definition dot : ascii -> bool := fun a => negb (Ascii.eqb a newline).
Definition dot_all : ascii -> bool := fun _ => true.

(** [\d], [\w], [\s] *)
Definition digit : ascii -> bool := isdecimal_char.
Definition word : ascii -> bool := fun a => isalnum_char a || Ascii.eqb a "_".
Definition space : ascii -> bool := isspace_char.

Fixpoint lit (t : string) : regex :=
  match t with
  | "" => Eps
  | String c t' => Seq (Chr (Ascii.eqb c)) (lit t')
  end.

Fixpoint cat (rs : list regex) : regex :=
  match rs with
  | [] => Eps
  | [r] => r
  | r :: rs' => Seq r (cat rs')
  end.

(** [p+], [p+?]: one character, then the repetition *)
Definition plus (greedy : bool) (p : ascii -> bool) : regex :=
  Seq (Chr p) (Star greedy p).

(** [r?]: [r] first, nothing otherwise *)
Definition opt (r : regex) : regex := Alt r Eps.

End Re.

(** ** [core/helix_mode.py] *)

Module Helix.
Import Py.

(** *** [Selection] *)

Record Selection : Type := mkSelection {
  anchor : Z;
  head : Z;
  primary : bool
}.

Definition start (sel : Selection) : Z := Z.min (anchor sel) (head sel).
Definition end_ (sel : Selection) : Z := Z.max (anchor sel) (head sel).
Definition is_reversed (sel : Selection) : bool := head sel <? anchor sel.
Definition is_empty (sel : Selection) : bool := anchor sel =? head sel.

Definition set_head (h : Z) (sel : Selection) : Selection :=
  mkSelection (anchor sel) h (primary sel).
Definition set_primary (b : bool) (sel : Selection) : Selection :=
  mkSelection (anchor sel) (head sel) b.

(** *** [TextObject] and the table [TextObjectFinder.TEXT_OBJECTS] *)

Record TextObject : Type := mkTextObject {
  name : string;
  start_pattern : string;
  end_pattern : string;
  start_inclusive : bool;
  end_inclusive : bool;
  nested : bool;
  match_balanced : bool
}.

(** [TextObject(name, start, end, match_balanced=b)] with [nested] left
    at its default, and with [nested=True]. *)
Definition obj (n sp ep : string) (balanced : bool) : TextObject :=
  mkTextObject n sp ep false false false balanced.
Definition obj_nested (n sp ep : string) (balanced : bool) : TextObject :=
  mkTextObject n sp ep false false true balanced.

Definition dquote : string := String (ascii_of_nat 34) "".

Definition TEXT_OBJECTS : list (string * TextObject) :=
  [ ("(", obj "parentheses" "\(" "\)" true);
    (")", obj "parentheses" "\(" "\)" true);
    ("[", obj "brackets" "\[" "\]" true);
    ("]", obj "brackets" "\[" "\]" true);
    ("{", obj "braces" "\{" "\}" true);
    ("}", obj "braces" "\{" "\}" true);
    ("<", obj "angle" "<" ">" true);
    (">", obj "angle" "<" ">" true);
    (dquote, obj "double_quote" dquote dquote false);
    ("'", obj "single_quote" "'" "'" false);
    ("`", obj "backtick" "`" "`" false);
    ("w", obj "word" "\b\w" "\w\b" false);
    ("W", obj "WORD" "\S+" "\S+" false);
    ("s", obj "sentence" "[.!?]\s+" "[.!?]" false);
    ("p", obj "paragraph" "\n\s*\n" "\n\s*\n" false);
    ("f", obj_nested "function" "\b(def|function|fn|func|fun)\b" "\}" true);
    ("c", obj_nested "class" "\b(class|struct|interface|impl)\b" "\}" true);
    ("t", obj_nested "tag" "<[^/!][^>]*>" "</[^>]*>" true);
    ("i", obj "indent" "^\s*$" "^\S" false);
    ("h", obj "heading" "^#+\s+" "\n" false);
    ("l", obj "link" "\[" "\)" true);
    ("k", obj "code_block" "```" "```" false) ].

(** *** [TextObjectFinder] *)

Record TextObjectFinder : Type := mkTextObjectFinder {
  custom_objects : gmap string TextObject
}.

Definition new_finder : TextObjectFinder := mkTextObjectFinder ∅.

Definition add_custom_object (o : TextObject) (f : TextObjectFinder)
    : TextObjectFinder :=
  mkTextObjectFinder (<[name o := o]> (custom_objects f)).

Definition bounds : Type := option (Z * Z).

Definition pairs : list (string * string) :=
  [ ("(", ")"); ("[", "]"); ("{", "}"); (")", "("); ("]", "["); ("}", "{") ].
Definition open_chars : string := "([{".
Definition close_chars : string := ")]}".

(** The backward loop of [_find_balanced_pair]: [for i in range(pos, -1, -1)]
    with [n] indices left, the next one being [n - 1]. The answer is the
    value of [start] after the loop. *)
Fixpoint balanced_backward (content open_char close_char : string) (pos : Z)
    (n : nat) (depth : Z) : result Z :=
  match n with
  | O => Ok (-1)
  | S n' =>
      let i := Z.of_nat n' in
      c ← getitem content i;
      if String.eqb c close_char && negb (i =? pos) then
        balanced_backward content open_char close_char pos n' (depth + 1)
      else if String.eqb c open_char then
        if depth =? 0 then Ok i
        else balanced_backward content open_char close_char pos n' (depth - 1)
      else balanced_backward content open_char close_char pos n' depth
  end.

(** The forward loop: [for i in range(start, len(content))] with [n]
    indices left, the next one being [i]. The answer is the value of [end]
    after the loop. *)
Fixpoint balanced_forward (content open_char close_char : string) (i : Z)
    (n : nat) (depth : Z) : result Z :=
  match n with
  | O => Ok (-1)
  | S n' =>
      c ← getitem content i;
      if String.eqb c open_char then
        balanced_forward content open_char close_char (i + 1) n' (depth + 1)
      else if String.eqb c close_char then
        if depth - 1 =? 0 then Ok i
        else balanced_forward content open_char close_char (i + 1) n' (depth - 1)
      else balanced_forward content open_char close_char (i + 1) n' depth
  end.

Definition _find_balanced_pair (content : string) (pos : Z)
    (pair_char : string) (inner : bool) : result bounds :=
  let open_char :=
    if str_in pair_char open_chars then pair_char
    else default pair_char (table_get pairs pair_char) in
  let close_char := default open_char (table_get pairs open_char) in
  start ← balanced_backward content open_char close_char pos
            (Z.to_nat (pos + 1)) 0;
  if start =? -1 then Ok None
  else
    end_ ← balanced_forward content open_char close_char start
             (Z.to_nat (len content - start)) 0;
    if end_ =? -1 then Ok None
    else if inner then Ok (Some (start + 1, end_))
    else Ok (Some (start, end_ + 1)).

Definition escape : string := String backslash "".

Fixpoint quote_backward (content quote : string) (n : nat) : result Z :=
  match n with
  | O => Ok (-1)
  | S n' =>
      let i := Z.of_nat n' in
      c ← getitem content i;
      if String.eqb c quote then
        if 0 <? i then
          b ← getitem content (i - 1);
          if String.eqb b escape then quote_backward content quote n'
          else Ok i
        else Ok i
      else quote_backward content quote n'
  end.

Fixpoint quote_forward (content quote : string) (i : Z) (n : nat) : result Z :=
  match n with
  | O => Ok (-1)
  | S n' =>
      c ← getitem content i;
      if String.eqb c quote then
        b ← getitem content (i - 1);
        if negb (String.eqb b escape) then Ok i
        else quote_forward content quote (i + 1) n'
      else quote_forward content quote (i + 1) n'
  end.

Definition _find_quote (content : string) (pos : Z) (quote : string)
    (inner : bool) : result bounds :=
  start ← quote_backward content quote (Z.to_nat (pos + 1));
  if start =? -1 then Ok None
  else
    end_ ← quote_forward content quote (start + 1)
             (Z.to_nat (len content - (start + 1)));
    if end_ =? -1 then Ok None
    else if inner then Ok (Some (start + 1, end_))
    else Ok (Some (start, end_ + 1)).

(** The two character classes of [_find_word], on a string of one
    character. *)
Definition word_chars (big_word : bool) (c : string) : bool :=
  if big_word then negb (isspace c)
  else isalnum c || String.eqb c "_".

(** [while start > 0 and word_chars(content[start - 1]): start -= 1];
    the loop runs at most [start] times. *)
Fixpoint word_backward (content : string) (big_word : bool) (start : Z)
    (fuel : nat) : result Z :=
  match fuel with
  | O => Ok start
  | S fuel' =>
      if 0 <? start then
        c ← getitem content (start - 1);
        if word_chars big_word c then
          word_backward content big_word (start - 1) fuel'
        else Ok start
      else Ok start
  end.

(** [while end < len(content) and word_chars(content[end]): end += 1];
    the loop runs at most [len(content) - end] times. *)
Fixpoint word_forward (content : string) (big_word : bool) (end_ : Z)
    (fuel : nat) : result Z :=
  match fuel with
  | O => Ok end_
  | S fuel' =>
      if end_ <? len content then
        c ← getitem content end_;
        if word_chars big_word c then
          word_forward content big_word (end_ + 1) fuel'
        else Ok end_
      else Ok end_
  end.

Definition _find_word (content : string) (pos : Z) (big_word inner : bool)
    : result bounds :=
  if len content <=? pos then Ok None
  else
    start ← word_backward content big_word pos (Z.to_nat pos);
    end_ ← word_forward content big_word pos (Z.to_nat (len content - pos));
    if start =? end_ then Ok None
    else Ok (Some (start, end_)).

(** [while start_line > 0 and all_lines[start_line - 1].strip()] *)
Fixpoint paragraph_backward (all_lines : list string) (start_line : Z)
    (fuel : nat) : result Z :=
  match fuel with
  | O => Ok start_line
  | S fuel' =>
      if 0 <? start_line then
        l ← list_getitem all_lines (start_line - 1);
        if truthy (strip l) then
          paragraph_backward all_lines (start_line - 1) fuel'
        else Ok start_line
      else Ok start_line
  end.

(** [while end_line < len(all_lines) - 1 and all_lines[end_line + 1].strip()] *)
Fixpoint paragraph_forward (all_lines : list string) (end_line : Z)
    (fuel : nat) : result Z :=
  match fuel with
  | O => Ok end_line
  | S fuel' =>
      if end_line <? Z.of_nat (length all_lines) - 1 then
        l ← list_getitem all_lines (end_line + 1);
        if truthy (strip l) then
          paragraph_forward all_lines (end_line + 1) fuel'
        else Ok end_line
      else Ok end_line
  end.

(** [sum(len(all_lines[i]) + 1 for i in range(n))] *)
Fixpoint lines_extent (all_lines : list string) (n : nat) : result Z :=
  match n with
  | O => Ok 0
  | S n' =>
      before ← lines_extent all_lines n';
      l ← list_getitem all_lines (Z.of_nat n');
      Ok (before + (len l + 1))
  end.

Definition _find_paragraph (content : string) (pos : Z) (inner : bool)
    : result bounds :=
  let lines := count_char newline (slice content None (Some pos)) in
  let all_lines := split_char newline content in
  start_line ← paragraph_backward all_lines lines (Z.to_nat lines);
  end_line ← paragraph_forward all_lines lines (length all_lines);
  start_pos ← lines_extent all_lines (Z.to_nat start_line);
  end_sum ← lines_extent all_lines (Z.to_nat (end_line + 1));
  Ok (Some (start_pos, end_sum - 1)).

(** [[.!?]+\s+] *)
Definition sentence_end : Re.regex :=
  Re.Seq (Re.plus true (Re.one_of ".!?")) (Re.plus true Re.space).

Definition _find_sentence (content : string) (pos : Z) (inner : bool)
    : result bounds :=
  let before := slice content None (Some pos) in
  let start :=
    foldl (fun _ m => Z.of_nat (Re.m_end m)) 0
          (Re.finditer before sentence_end) in
  let end_ :=
    match Re.search (slice content (Some pos) None) sentence_end with
    | Some m => pos + Z.of_nat (Re.m_end m)
    | None => len content
    end in
  Ok (Some (start, end_)).

(** [open_pattern]: [<], then as group 1 one character other than [/],
    [!], [>] followed by the longest run of characters other than [>],
    then [>]. *)
Definition open_pattern : Re.regex :=
  Re.cat [ Re.lit "<";
           Re.Group 1 (Re.Seq (Re.Chr (Re.none_of "/!>"))
                              (Re.Star true (Re.none_of ">")));
           Re.lit ">" ].

(** The loop over the opening tags before the cursor: each match sets
    [tag_name] to the first word of its group and [start] to its end. *)
Fixpoint tag_backward (text : string) (ms : list Re.mtch) (start : Z)
    (tag_name : string) : result (Z * string) :=
  match ms with
  | [] => Ok (start, tag_name)
  | m :: ms' =>
      n ← list_getitem (split_ws (default "" (Re.group text m 1))) 0;
      tag_backward text ms' (Z.of_nat (Re.m_end m)) n
  end.

(** [for i in range(start, len(content))] over the suffixes [content[i:]],
    of which [rest] is the next. *)
Fixpoint tag_forward (rest open_tag close_tag : string) (i : Z) (depth : Z)
    : Z :=
  match rest with
  | "" => -1
  | String _ rest' =>
      if startswith rest open_tag then
        tag_forward rest' open_tag close_tag (i + 1) (depth + 1)
      else if startswith rest close_tag then
        if depth - 1 =? 0 then i
        else tag_forward rest' open_tag close_tag (i + 1) (depth - 1)
      else tag_forward rest' open_tag close_tag (i + 1) depth
  end.

Definition _find_tag (content : string) (pos : Z) (inner : bool)
    : result bounds :=
  let text := slice content None (Some (pos + 1)) in
  '(start, tag_name) ← tag_backward text (Re.finditer text open_pattern) (-1) "";
  if start =? -1 then Ok None
  else
    let close_tag := "</" +:+ tag_name +:+ ">" in
    let end_ :=
      tag_forward (slice content (Some start) None) ("<" +:+ tag_name)
                  close_tag start 1 in
    if end_ =? -1 then Ok None
    else if inner then Ok (Some (start, end_))
    else Ok (Some (start - len ("<" +:+ tag_name +:+ ">"),
                   end_ + len close_tag)).

(** [\[([^\]]+)\]\(([^)]+)\)] *)
Definition link_pattern : Re.regex :=
  Re.cat [ Re.lit "["; Re.Group 1 (Re.plus true (Re.none_of "]"));
           Re.lit "]("; Re.Group 2 (Re.plus true (Re.none_of ")"));
           Re.lit ")" ].

Fixpoint link_scan (content : string) (pos : Z) (inner : bool)
    (ms : list Re.mtch) : bounds :=
  match ms with
  | [] => None
  | m :: ms' =>
      let a := Z.of_nat (Re.m_start m) in
      let b := Z.of_nat (Re.m_end m) in
      if (a <=? pos) && (pos <=? b) then
        if inner then
          Some (a + 1, a + 1 + len (default "" (Re.group content m 1)))
        else Some (a, b)
      else link_scan content pos inner ms'
  end.

Definition _find_markdown_link (content : string) (pos : Z) (inner : bool)
    : result bounds :=
  Ok (link_scan content pos inner (Re.finditer content link_pattern)).

(** [```.*?\n(.*?)```] under [re.DOTALL] *)
Definition code_block_pattern : Re.regex :=
  Re.cat [ Re.lit "```"; Re.Star false Re.dot_all;
           Re.Chr (Ascii.eqb newline);
           Re.Group 1 (Re.Star false Re.dot_all); Re.lit "```" ].

Fixpoint code_block_scan (content : string) (pos : Z) (inner : bool)
    (ms : list Re.mtch) : bounds :=
  match ms with
  | [] => None
  | m :: ms' =>
      let a := Z.of_nat (Re.m_start m) in
      let b := Z.of_nat (Re.m_end m) in
      if (a <=? pos) && (pos <=? b) then
        if inner then Some (find content newline (Some a) None + 1, b - 3)
        else Some (a, b)
      else code_block_scan content pos inner ms'
  end.

Definition _find_code_block (content : string) (pos : Z) (inner : bool)
    : result bounds :=
  Ok (code_block_scan content pos inner (Re.finditer content code_block_pattern)).

(** [find_object]: the object is looked up in the standard table, then
    among the custom objects; an instance of [TextObject] is always true. *)
Definition find_object (f : TextObjectFinder) (content : string)
    (cursor_pos : Z) (obj_type : string) (inner : bool) : result bounds :=
  let found :=
    match table_get TEXT_OBJECTS obj_type with
    | Some o => Some o
    | None => custom_objects f !! obj_type
    end in
  match found with
  | None => Ok None
  | Some o =>
      if match_balanced o && str_in obj_type "()[]{}" then
        _find_balanced_pair content cursor_pos obj_type inner
      else if str_in obj_type (dquote +:+ "'`") then
        _find_quote content cursor_pos obj_type inner
      else if str_in obj_type "wW" then
        _find_word content cursor_pos (String.eqb obj_type "W") inner
      else if String.eqb obj_type "p" then
        _find_paragraph content cursor_pos inner
      else if String.eqb obj_type "s" then
        _find_sentence content cursor_pos inner
      else if String.eqb obj_type "t" then
        _find_tag content cursor_pos inner
      else if String.eqb obj_type "l" then
        _find_markdown_link content cursor_pos inner
      else if String.eqb obj_type "k" then
        _find_code_block content cursor_pos inner
      else Ok None
  end.

(** *** [MultiCursorManager] *)

Record MultiCursorManager : Type := mkMultiCursorManager {
  selections : list Selection;
  text_object_finder : TextObjectFinder
}.

(** [MultiCursorManager()] *)
Definition new_manager : MultiCursorManager :=
  mkMultiCursorManager [mkSelection 0 0 true] new_finder.

Definition set_selections (sels : list Selection) (m : MultiCursorManager)
    : MultiCursorManager :=
  mkMultiCursorManager sels (text_object_finder m).

Definition primary_selection (m : MultiCursorManager) : Selection :=
  match List.find primary (selections m) with
  | Some sel => sel
  | None =>
      match selections m with
      | sel :: _ => sel
      | [] => mkSelection 0 0 true
      end
  end.

Definition cursor_positions (m : MultiCursorManager) : list Z :=
  map head (selections m).

Definition add_selection (anchor head : Z) (primary : bool)
    (m : MultiCursorManager) : MultiCursorManager :=
  let sels :=
    if primary then map (set_primary false) (selections m)
    else selections m in
  set_selections (sels ++ [mkSelection anchor head primary]) m.

Definition remove_selection (index : Z) (m : MultiCursorManager)
    : MultiCursorManager :=
  if (0 <=? index) && (index <? Z.of_nat (length (selections m))) then
    match selections m !! Z.to_nat index with
    | Some removed =>
        let rest := delete (Z.to_nat index) (selections m) in
        if primary removed then
          match rest with
          | first :: rest' => set_selections (set_primary true first :: rest') m
          | [] => set_selections [] m
          end
        else set_selections rest m
    | None => m
    end
  else m.

Definition clear_selections (m : MultiCursorManager) : MultiCursorManager :=
  let p := primary_selection m in
  set_selections [mkSelection (head p) (head p) true] m.

Definition select_all (content_length : Z) (m : MultiCursorManager)
    : MultiCursorManager :=
  set_selections [mkSelection 0 content_length true] m.

(** The inner loop of [split_selection_by_line]: one new selection for
    every selection that meets the line from [pos] to [line_end]. *)
Definition line_selections (sels : list Selection) (pos line_end : Z)
    (first_line : bool) : list Selection :=
  flat_map
    (fun sel =>
       if (start sel <=? line_end) && (pos <=? end_ sel)
       then [mkSelection pos line_end first_line] else [])
    sels.

(** The outer loop, over [enumerate(lines)] from index [i] on. *)
Fixpoint split_lines (sels : list Selection) (lines : list string) (i : nat)
    (pos : Z) : list Selection :=
  match lines with
  | [] => []
  | line :: lines' =>
      let line_end := pos + len line in
      line_selections sels pos line_end (Nat.eqb i 0)
        ++ split_lines sels lines' (S i) (line_end + 1)
  end.

Definition split_selection_by_line (content : string) (m : MultiCursorManager)
    : MultiCursorManager :=
  let new_selections :=
    split_lines (selections m) (split_char newline content) 0 0 in
  match map (set_primary false) new_selections with
  | [] => m
  | first :: rest => set_selections (set_primary true first :: rest) m
  end.

(** The loops of [split_selection_by_regex]; [new_selections] is the list
    built so far. The pattern is taken already compiled. *)
Fixpoint regex_matches (sel : Selection) (ms : list Re.mtch)
    (new_selections : list Selection) : list Selection :=
  match ms with
  | [] => new_selections
  | m :: ms' =>
      regex_matches sel ms'
        (new_selections
           ++ [mkSelection (start sel + Z.of_nat (Re.m_start m))
                           (start sel + Z.of_nat (Re.m_end m))
                           (Nat.eqb (length new_selections) 0)])
  end.

Fixpoint regex_selections (content : string) (pattern : Re.regex)
    (sels : list Selection) (new_selections : list Selection)
    : list Selection :=
  match sels with
  | [] => new_selections
  | sel :: sels' =>
      let text := slice content (Some (start sel)) (Some (end_ sel)) in
      regex_selections content pattern sels'
        (regex_matches sel (Re.finditer text pattern) new_selections)
  end.

Definition split_selection_by_regex (content : string) (pattern : Re.regex)
    (m : MultiCursorManager) : MultiCursorManager :=
  match regex_selections content pattern (selections m) [] with
  | [] => m
  | new_selections => set_selections new_selections m
  end.

(** The two loops that move one head forward, and the two that move it
    backward, in [extend_to_word_boundary]; [skip] tells whether the loop
    passes alphanumeric characters or the others. *)
Fixpoint forward_while (content : string) (skip_alnum : bool) (pos : Z)
    (fuel : nat) : result Z :=
  match fuel with
  | O => Ok pos
  | S fuel' =>
      if pos <? len content then
        c ← getitem content pos;
        if Bool.eqb (isalnum c) skip_alnum then
          forward_while content skip_alnum (pos + 1) fuel'
        else Ok pos
      else Ok pos
  end.

Fixpoint backward_while (content : string) (skip_alnum : bool) (pos : Z)
    (fuel : nat) : result Z :=
  match fuel with
  | O => Ok pos
  | S fuel' =>
      if 0 <? pos then
        c ← getitem content (pos - 1);
        if Bool.eqb (isalnum c) skip_alnum then
          backward_while content skip_alnum (pos - 1) fuel'
        else Ok pos
      else Ok pos
  end.

Definition word_boundary (content : string) (forward : bool) (pos : Z)
    : result Z :=
  if forward then
    p ← forward_while content true pos (Z.to_nat (len content - pos));
    forward_while content false p (Z.to_nat (len content - p))
  else
    p ← backward_while content true pos (Z.to_nat pos);
    backward_while content false p (Z.to_nat p).

(** The selections are updated one after the other, so the ones before a
    failing one keep their new head. *)
Fixpoint extend_each (content : string) (forward : bool)
    (done todo : list Selection) : result unit * list Selection :=
  match todo with
  | [] => (Ok tt, done)
  | sel :: todo' =>
      match word_boundary content forward (head sel) with
      | Ok p => extend_each content forward (done ++ [set_head p sel]) todo'
      | Raise e => (Raise e, done ++ todo)
      end
  end.

Definition extend_to_word_boundary (content : string) (forward : bool)
    (m : MultiCursorManager) : result unit * MultiCursorManager :=
  let '(r, sels) := extend_each content forward [] (selections m) in
  (r, set_selections sels m).

Fixpoint object_selections (f : TextObjectFinder) (content obj_type : string)
    (inner : bool) (sels : list Selection) (new_selections : list Selection)
    : result (list Selection) :=
  match sels with
  | [] => Ok new_selections
  | sel :: sels' =>
      b ← find_object f content (head sel) obj_type inner;
      match b with
      | Some (b0, b1) =>
          object_selections f content obj_type inner sels'
            (new_selections
               ++ [mkSelection b0 b1 (Nat.eqb (length new_selections) 0)])
      | None => object_selections f content obj_type inner sels' new_selections
      end
  end.

Definition select_text_object (content obj_type : string) (inner : bool)
    (m : MultiCursorManager) : result unit * MultiCursorManager :=
  match object_selections (text_object_finder m) content obj_type inner
          (selections m) [] with
  | Raise e => (Raise e, m)
  | Ok [] => (Ok tt, m)
  | Ok new_selections => (Ok tt, set_selections new_selections m)
  end.

Definition add_cursor_above (content : string) (m : MultiCursorManager)
    : MultiCursorManager :=
  let p := primary_selection m in
  let line_start := rfind content newline (Some 0) (Some (head p)) in
  if line_start =? -1 then m
  else
    let prev := rfind content newline (Some 0) (Some line_start) in
    let prev_line_start := if prev =? -1 then 0 else prev + 1 in
    let column := head p - line_start - 1 in
    let e := find content newline (Some prev_line_start) None in
    let prev_line_end := if e =? -1 then len content else e in
    let new_pos := Z.min (prev_line_start + column) (prev_line_end - 1) in
    add_selection new_pos new_pos false m.

Definition add_cursor_below (content : string) (m : MultiCursorManager)
    : MultiCursorManager :=
  let p := primary_selection m in
  let line_end := find content newline (Some (head p)) None in
  if line_end =? -1 then m
  else
    let next_line_start := line_end + 1 in
    let e := find content newline (Some next_line_start) None in
    let next_line_end := if e =? -1 then len content else e in
    let s := rfind content newline (Some 0) (Some (head p)) in
    let line_start := if s =? -1 then 0 else s + 1 in
    let column := head p - line_start in
    let new_pos := Z.min (next_line_start + column) (next_line_end - 1) in
    add_selection new_pos new_pos false m.

Definition flip_selections (m : MultiCursorManager) : MultiCursorManager :=
  set_selections
    (map (fun sel => mkSelection (head sel) (anchor sel) (primary sel))
         (selections m))
    m.

(** The loop of [merge_consecutive_selections]: [merged] in the source is
    [done ++ [last]] here. *)
Fixpoint merge_loop (done : list Selection) (last : Selection)
    (rest : list Selection) : list Selection :=
  match rest with
  | [] => done ++ [last]
  | sel :: rest' =>
      if start sel <=? end_ last then
        merge_loop done
          (mkSelection (start last) (Z.max (end_ last) (end_ sel))
                       (primary last || primary sel))
          rest'
      else merge_loop (done ++ [last]) sel rest'
  end.

Definition merge_consecutive_selections (m : MultiCursorManager)
    : MultiCursorManager :=
  if (length (selections m) <? 2)%nat then m
  else
    match sorted start false (selections m) with
    | [] => m
    | first :: rest =>
        let merged := merge_loop [] first rest in
        let has_primary := existsb primary merged in
        match merged with
        | m0 :: merged' =>
            if negb has_primary
            then set_selections (set_primary true m0 :: merged') m
            else set_selections merged m
        | [] => set_selections merged m
        end
    end.

(** *** [SurroundManager] *)

Definition PAIRS : list (string * (string * string)) :=
  [ ("(", ("(", ")")); (")", ("(", ")"));
    ("[", ("[", "]")); ("]", ("[", "]"));
    ("{", ("{", "}")); ("}", ("{", "}"));
    ("<", ("<", ">")); (">", ("<", ">"));
    (dquote, (dquote, dquote));
    ("'", ("'", "'"));
    ("`", ("`", "`"));
    ("t", ("<", ">")) ].

Record SurroundManager : Type := mkSurroundManager {
  surround_finder : TextObjectFinder
}.

Definition new_surround : SurroundManager := mkSurroundManager new_finder.

Definition add_surround (content : string) (selection : Selection)
    (surround_char : string) : string :=
  let '(open_char, close_char) :=
    default (surround_char, surround_char) (table_get PAIRS surround_char) in
  let before := slice content None (Some (start selection)) in
  let inside := slice content (Some (start selection)) (Some (end_ selection)) in
  let after := slice content (Some (end_ selection)) None in
  if String.eqb surround_char "t" then
    before +:+ ("<tag>" +:+ inside +:+ "</tag>") +:+ after
  else before +:+ open_char +:+ inside +:+ close_char +:+ after.

Definition delete_surround (sm : SurroundManager) (content : string)
    (selection : Selection) (surround_char : string) : result string :=
  b ← find_object (surround_finder sm) content (head selection)
        surround_char false;
  match b with
  | None => Ok content
  | Some (b0, b1) =>
      Ok (slice content None (Some b0)
          +:+ slice content (Some (b0 + 1)) (Some (b1 - 1))
          +:+ slice content (Some b1) None)
  end.

Definition change_surround (sm : SurroundManager) (content : string)
    (selection : Selection) (old_char new_char : string) : result string :=
  b ← find_object (surround_finder sm) content (head selection)
        old_char false;
  match b with
  | None => Ok content
  | Some (b0, b1) =>
      let '(new_open, new_close) :=
        default (new_char, new_char) (table_get PAIRS new_char) in
      let inner_content := slice content (Some (b0 + 1)) (Some (b1 - 1)) in
      Ok (slice content None (Some b0)
          +:+ new_open +:+ inner_content +:+ new_close
          +:+ slice content (Some b1) None)
  end.

(** *** [HelixFeatures] *)

Record HelixFeatures : Type := mkHelixFeatures {
  multi_cursor : MultiCursorManager;
  surround : SurroundManager;
  text_objects : TextObjectFinder
}.

Definition new_helix : HelixFeatures :=
  mkHelixFeatures new_manager new_surround new_finder.

Definition get_selection_contents (h : HelixFeatures) (content : string)
    : list string :=
  map (fun sel => slice content (Some (start sel)) (Some (end_ sel)))
      (selections (multi_cursor h)).

(** One turn of the loop of [apply_to_selections], on the selection stored
    at index [i]: the text is rewritten and that selection gets its new
    head. *)
Definition apply_step (transform : string -> string)
    (acc : string * list Selection) (entry : nat * Selection)
    : string * list Selection :=
  let '(content, sels) := acc in
  let '(i, sel) := entry in
  let old_text := slice content (Some (start sel)) (Some (end_ sel)) in
  let new_text := transform old_text in
  (slice content None (Some (start sel)) +:+ new_text
     +:+ slice content (Some (end_ sel)) None,
   <[i := set_head (start sel + len new_text) sel]> sels).

(** [apply_to_selections]: the selections are visited by descending
    [start]; the sorted list holds the manager's own selection objects, so
    the new heads show in [multi_cursor.selections], at the positions the
    selections have there. Returns the new text and the object after the
    call. *)
Definition apply_to_selections (content : string)
    (transform : string -> string) (h : HelixFeatures)
    : string * HelixFeatures :=
  let sels := selections (multi_cursor h) in
  let sorted_sels :=
    sorted (fun entry : nat * Selection => start (snd entry)) true
           (imap pair sels) in
  let '(content', sels') :=
    foldl (apply_step transform) (content, sels) sorted_sels in
  (content',
   mkHelixFeatures (set_selections sels' (multi_cursor h)) (surround h)
                   (text_objects h)).

(** *** Notions used in the statements *)

(** The number of selections marked primary. *)
Definition primaries (sels : list Selection) : nat :=
  length (List.filter primary sels).

(** A list that is empty or has one primary: what the loops that mark as
    primary the first selection they append build. *)
Definition one_if_any (l : list Selection) : Prop :=
  l = [] \/ primaries l = 1%nat.

(** A call of a public method of [MultiCursorManager] (or of its finder),
    and the manager after the call, whether it returned or raised. *)
Inductive call : Type :=
| AddSelection (anchor head : Z) (primary : bool)
| RemoveSelection (index : Z)
| ClearSelections
| SelectAll (content_length : Z)
| SplitSelectionByLine (content : string)
| SplitSelectionByRegex (content : string) (pattern : Re.regex)
| ExtendToWordBoundary (content : string) (forward : bool)
| SelectTextObject (content obj_type : string) (inner : bool)
| AddCursorAbove (content : string)
| AddCursorBelow (content : string)
| FlipSelections
| MergeConsecutiveSelections
| AddCustomObject (o : TextObject).

Definition after (c : call) (m : MultiCursorManager) : MultiCursorManager :=
  match c with
  | AddSelection a h p => add_selection a h p m
  | RemoveSelection i => remove_selection i m
  | ClearSelections => clear_selections m
  | SelectAll n => select_all n m
  | SplitSelectionByLine content => split_selection_by_line content m
  | SplitSelectionByRegex content pattern =>
      split_selection_by_regex content pattern m
  | ExtendToWordBoundary content forward =>
      snd (extend_to_word_boundary content forward m)
  | SelectTextObject content obj_type inner =>
      snd (select_text_object content obj_type inner m)
  | AddCursorAbove content => add_cursor_above content m
  | AddCursorBelow content => add_cursor_below content m
  | FlipSelections => flip_selections m
  | MergeConsecutiveSelections => merge_consecutive_selections m
  | AddCustomObject o =>
      mkMultiCursorManager (selections m)
        (add_custom_object o (text_object_finder m))
  end.

(** The manager after a run of calls on a new one. *)
Definition run (calls : list call) : MultiCursorManager :=
  foldl (fun m c => after c m) new_manager calls.

(** The transform that changes nothing. *)
Definition identity_transform (text : string) : string := text.

(** A [HelixFeatures] around a given manager. *)
Definition helix_of (m : MultiCursorManager) : HelixFeatures :=
  mkHelixFeatures m new_surround new_finder.

(** Selections in ascending order with a gap between each and the next. *)
Fixpoint separated (l : list Selection) : Prop :=
  match l with
  | a :: l' =>
      match l' with
      | b :: _ => end_ a < start b /\ separated l'
      | [] => True
      end
  | [] => True
  end.

(** The order in which [merge_consecutive_selections] sorts. *)
Definition by_start (a b : Selection) : Prop := start a <= start b.

(** The six characters that name a bracket object. *)
Definition brackets : list string := ["("; ")"; "["; "]"; "{"; "}"].

End Helix.

(** ** [core/vim_mode.py]

    The callbacks [on_mode_change] and [on_status_update] are hooks of the
    host, unset in [__init__]; they have no part in the state of the engine,
    so [_update_status] and the notification in [enter_mode] leave no trace
    here. The marks, the macros and the search state are fields that no
    method below reads or writes. *)

Module Vim.
Import Py.

Inductive EditorMode : Type :=
| NORMAL | INSERT | VISUAL | VISUAL_LINE | VISUAL_BLOCK | COMMAND | REPLACE.

#[export] Instance EditorMode_eq_dec : EqDecision EditorMode.
Proof. solve_decision. Defined.

Record Register : Type := mkRegister {
  content : string;
  linewise : bool
}.

Record CommandState : Type := mkCommandState {
  buffer : string;
  cursor_pos : Z;
  history : list string;
  history_index : Z
}.

(** [CommandState()] *)
Definition new_command_state : CommandState := mkCommandState "" 0 [] (-1).

Record VimMode : Type := mkVimMode {
  mode : EditorMode;
  previous_mode : option EditorMode;
  registers : gmap string Register;
  count_buffer : string;
  operator_pending : option string;
  motion_buffer : string;
  command_state : CommandState;
  key_sequence : string;
  selection_anchor : option (Z * Z)
}.

Definition set_mode (x : EditorMode) (s : VimMode) : VimMode :=
  mkVimMode x (previous_mode s) (registers s) (count_buffer s)
    (operator_pending s) (motion_buffer s) (command_state s)
    (key_sequence s) (selection_anchor s).
Definition set_previous_mode (x : option EditorMode) (s : VimMode) : VimMode :=
  mkVimMode (mode s) x (registers s) (count_buffer s)
    (operator_pending s) (motion_buffer s) (command_state s)
    (key_sequence s) (selection_anchor s).
Definition set_registers (x : gmap string Register) (s : VimMode) : VimMode :=
  mkVimMode (mode s) (previous_mode s) x (count_buffer s)
    (operator_pending s) (motion_buffer s) (command_state s)
    (key_sequence s) (selection_anchor s).
Definition set_count_buffer (x : string) (s : VimMode) : VimMode :=
  mkVimMode (mode s) (previous_mode s) (registers s) x
    (operator_pending s) (motion_buffer s) (command_state s)
    (key_sequence s) (selection_anchor s).
Definition set_operator_pending (x : option string) (s : VimMode) : VimMode :=
  mkVimMode (mode s) (previous_mode s) (registers s) (count_buffer s)
    x (motion_buffer s) (command_state s)
    (key_sequence s) (selection_anchor s).
Definition set_motion_buffer (x : string) (s : VimMode) : VimMode :=
  mkVimMode (mode s) (previous_mode s) (registers s) (count_buffer s)
    (operator_pending s) x (command_state s)
    (key_sequence s) (selection_anchor s).
Definition set_command_state (x : CommandState) (s : VimMode) : VimMode :=
  mkVimMode (mode s) (previous_mode s) (registers s) (count_buffer s)
    (operator_pending s) (motion_buffer s) x
    (key_sequence s) (selection_anchor s).
Definition set_key_sequence (x : string) (s : VimMode) : VimMode :=
  mkVimMode (mode s) (previous_mode s) (registers s) (count_buffer s)
    (operator_pending s) (motion_buffer s) (command_state s)
    x (selection_anchor s).
Definition set_selection_anchor (x : option (Z * Z)) (s : VimMode) : VimMode :=
  mkVimMode (mode s) (previous_mode s) (registers s) (count_buffer s)
    (operator_pending s) (motion_buffer s) (command_state s)
    (key_sequence s) x.

(** The names of the registers that [__init__] installs: the unnamed one,
    [a] to [z] and [0] to [9]. *)
Definition register_names : list string :=
  "" :: map (fun i => String (ascii_of_nat (97 + i)) "") (seq 0 26)
     ++ map (fun i => String (ascii_of_nat (48 + i)) "") (seq 0 10).

Definition init_registers : gmap string Register :=
  foldl (fun m n => <[n := mkRegister "" false]> m) ∅ register_names.

(** [VimMode(config)] *)
Definition init : VimMode :=
  mkVimMode NORMAL None init_registers "" None "" new_command_state "" None.

(** *** Mode transitions *)

Definition enter_mode (m : EditorMode) (s : VimMode) : VimMode :=
  if decide (m = mode s) then s
  else
    set_motion_buffer ""
      (set_key_sequence ""
         (set_operator_pending None
            (set_count_buffer ""
               (set_mode m (set_previous_mode (Some (mode s)) s))))).

Definition enter_insert_mode (s : VimMode) : VimMode := enter_mode INSERT s.

Definition enter_normal_mode (s : VimMode) : VimMode :=
  set_selection_anchor None (enter_mode NORMAL s).

Definition enter_visual_mode (line_wise block : bool) (s : VimMode) : VimMode :=
  if block then enter_mode VISUAL_BLOCK s
  else if line_wise then enter_mode VISUAL_LINE s
  else enter_mode VISUAL s.

Definition enter_command_mode (s : VimMode) : VimMode :=
  enter_mode COMMAND (set_command_state new_command_state s).

Definition enter_replace_mode (s : VimMode) : VimMode := enter_mode REPLACE s.

(** *** Key tables *)

Definition ctrl_map : list (string * dict) :=
  [ ("f", [("action", VStr "page_down")]);
    ("b", [("action", VStr "page_up")]);
    ("d", [("action", VStr "half_page_down")]);
    ("u", [("action", VStr "half_page_up")]);
    ("e", [("action", VStr "scroll_line_down")]);
    ("y", [("action", VStr "scroll_line_up")]);
    ("r", [("action", VStr "redo")]);
    ("a", [("action", VStr "increment_number")]);
    ("x", [("action", VStr "decrement_number")]);
    ("v", [("action", VStr "enter_visual_block_mode")]);
    ("o", [("action", VStr "insert_line_above_and_enter")]);
    ("n", [("action", VStr "search_next_word")]) ].

Definition _handle_ctrl_key (key : string) : option dict :=
  table_get ctrl_map key.

Definition single_char_map : list (string * string) :=
  [ ("i", "enter_insert_mode"); ("I", "insert_line_start");
    ("a", "insert_after"); ("A", "insert_line_end");
    ("o", "insert_line_below"); ("O", "insert_line_above");
    ("v", "enter_visual_mode"); ("V", "enter_visual_line_mode");
    ("s", "substitute_char"); ("S", "substitute_line");
    ("x", "delete_char"); ("X", "delete_char_before");
    ("r", "replace_char_prompt"); ("R", "enter_replace_mode");
    ("p", "paste_after"); ("P", "paste_before");
    ("J", "join_lines"); ("~", "toggle_case_and_move");
    ("u", "undo"); ("U", "undo_line");
    (".", "repeat_last_edit"); ("@", "execute_macro");
    ("q", "record_macro"); ("m", "set_mark");
    ("'", "goto_mark_line"); ("`", "goto_mark_exact");
    (":", "enter_command_mode"); ("/", "search_forward");
    ("?", "search_backward"); ("n", "search_next");
    ("N", "search_prev"); ("*", "search_word_forward");
    ("#", "search_word_backward"); ("%", "match_bracket");
    ("zz", "center_cursor"); ("zt", "cursor_top");
    ("zb", "cursor_bottom"); ("z.", "center_cursor_first_char");
    ("z-", "cursor_bottom_first_char"); ("z<CR>", "cursor_top_first_char");
    ("zz", "center_view"); ("zj", "next_fold");
    ("zk", "prev_fold"); ("zo", "open_fold");
    ("zc", "close_fold"); ("za", "toggle_fold");
    ("zr", "open_all_folds"); ("zm", "close_all_folds") ].

Definition two_char_map : list (string * string) :=
  [ ("dd", "delete_line"); ("cc", "change_line"); ("yy", "yank_line");
    ("Y", "yank_to_end"); ("D", "delete_to_end"); ("C", "change_to_end");
    ("gg", "goto_file_start"); ("G", "goto_file_end");
    (">>", "indent_line"); ("<<", "unindent_line");
    ("==", "auto_indent_line");
    ("gd", "goto_definition"); ("gD", "goto_definition_global");
    ("gf", "goto_file"); ("ga", "show_ascii"); ("g8", "show_utf8");
    ("gg", "goto_first_line"); ("gi", "goto_last_insert");
    ("gI", "insert_line_start"); ("gh", "select_mode");
    ("gn", "select_next_match"); ("gN", "select_prev_match");
    ("ge", "word_end_backward"); ("gE", "WORD_end_backward");
    ("gu", "make_lowercase_motion"); ("gU", "make_uppercase_motion");
    ("g~", "toggle_case_motion"); ("gq", "format_motion");
    ("gw", "format_motion_keep_cursor"); ("gx", "open_url");
    ("[[", "prev_section"); ("]]", "next_section");
    ("[]", "prev_section_end"); ("][", "next_section_end");
    ("[(", "prev_unmatched_open_brace"); ("])", "next_unmatched_close_brace");
    ("[{", "prev_unmatched_open_brace"); ("]}", "next_unmatched_close_brace");
    ("[m", "prev_method_start"); ("]m", "next_method_start");
    ("[M", "prev_method_end"); ("]M", "next_method_end");
    ("[*", "prev_comment"); ("]*", "next_comment");
    ("[(]", "prev_open_paren"); ("])", "next_close_paren") ].

Definition objects : list (string * string) :=
  [ (Helix.dquote, "double_quote"); ("'", "single_quote"); ("`", "backtick");
    ("(", "parentheses"); (")", "parentheses");
    ("[", "brackets"); ("]", "brackets");
    ("{", "braces"); ("}", "braces");
    ("<", "angle_brackets"); (">", "angle_brackets");
    ("t", "tag"); ("w", "word"); ("W", "WORD");
    ("s", "sentence"); ("p", "paragraph");
    ("b", "block"); ("B", "block"); ("i", "indent") ].

Definition motion_map : list (string * string) :=
  [ ("w", "word"); ("W", "WORD"); ("e", "word_end"); ("E", "WORD_end");
    ("b", "word_back"); ("B", "WORD_back");
    ("$", "line_end"); ("0", "line_start"); ("^", "first_non_whitespace") ].

(** The characters of a key sequence, each as a string of its own. *)
Fixpoint chars (s : string) : list string :=
  match s with
  | "" => []
  | String c s' => String c "" :: chars s'
  end.

Definition _lookup_action (sequence : string) : option string :=
  match table_get single_char_map sequence with
  | Some a => Some a
  | None =>
      match table_get two_char_map sequence with
      | Some a => Some a
      | None =>
          match chars sequence with
          | [s0; s1] =>
              if str_in s0 "cdy" && str_in s1 "wWebB$0^" then
                Some (s0 +:+ "_motion_" +:+ default s1 (table_get motion_map s1))
              else None
          | [s0; s1; s2] =>
              if str_in s0 "cdy" && str_in s1 "ia" then
                match table_get objects s2 with
                | Some o =>
                    let inner_outer :=
                      if String.eqb s1 "i" then "inner" else "around" in
                    Some (s0 +:+ "_" +:+ inner_outer +:+ "_" +:+ o)
                | None => None
                end
              else None
          | _ => None
          end
      end
  end.

Definition _is_operator (key : string) : bool :=
  str_in key "cdy><g~gu gUgqgwg!?".

Definition all_sequences : list string :=
  [ "gg"; "gd"; "gD"; "gf"; "ga"; "g8"; "gi"; "gI"; "gh"; "gn"; "gN";
    "ge"; "gE"; "gu"; "gU"; "g~"; "gq"; "gw"; "gx";
    "dd"; "cc"; "yy"; ">>"; "<<"; "==";
    "ci"; "ca"; "di"; "da"; "yi"; "ya";
    "[["; "]]"; "[]"; "][";
    "[("; "])"; "[{"; "]}"; "[m"; "]m"; "[M"; "]M";
    "zj"; "zk"; "zo"; "zc"; "za"; "zr"; "zm" ].

Definition _has_partial_match (sequence : string) : bool :=
  existsb (fun seq => startswith seq sequence && negb (String.eqb seq sequence))
          all_sequences.

Definition operator_value (o : option string) : value :=
  match o with
  | Some k => VStr k
  | None => VNone
  end.

Definition _execute_action (action : string) (s : VimMode) : result dict :=
  count ← (if truthy (count_buffer s) then int (count_buffer s) else Ok 1);
  Ok [ ("action", VStr action); ("count", VInt count);
       ("operator", operator_value (operator_pending s)) ].

Definition get_count (s : VimMode) : result Z :=
  if truthy (count_buffer s) then int (count_buffer s) else Ok 1.

Definition _key_to_motion (key : string) : string :=
  default key
    (table_get [("h", "left"); ("j", "down"); ("k", "up"); ("l", "right")] key).

(** *** Ex commands

    A handler takes the arguments and the keywords [start] and [end] of
    the call. A keyword is [None] when the call does not pass it, as in the
    call by the first word of the line, and [Some v] when the call passes
    the value [v], as in the call by the range pattern, where [v] is [None]
    for a bound that the pattern did not find. *)

Definition keyword : Type := option (option string).

Definition handler : Type := string -> keyword -> keyword -> result dict.

Definition opt_str (o : option string) : value :=
  match o with
  | Some t => VStr t
  | None => VNone
  end.

(** The value of a parameter whose default is [None]. *)
Definition kw_str (k : keyword) : value := opt_str (default None k).

(** [args.strip() if args else None] *)
Definition strip_or_none (args : string) : value :=
  if truthy args then VStr (strip args) else VNone.

Definition _cmd_write : handler := fun args _ _ =>
  Ok [("action", VStr "save_file"); ("path", VStr args)].
Definition _cmd_write_quit : handler := fun args _ _ =>
  Ok [("action", VStr "save_and_quit"); ("path", VStr args)].
Definition _cmd_quit : handler := fun _ _ _ => Ok [("action", VStr "quit")].
Definition _cmd_force_quit : handler := fun _ _ _ =>
  Ok [("action", VStr "force_quit")].
Definition _cmd_quit_all : handler := fun _ _ _ =>
  Ok [("action", VStr "quit_all")].
Definition _cmd_force_quit_all : handler := fun _ _ _ =>
  Ok [("action", VStr "force_quit_all")].
Definition _cmd_edit : handler := fun args _ _ =>
  Ok [("action", VStr "open_file"); ("path", VStr args)].
Definition _cmd_buffer_next : handler := fun _ _ _ =>
  Ok [("action", VStr "next_buffer")].
Definition _cmd_buffer_prev : handler := fun _ _ _ =>
  Ok [("action", VStr "prev_buffer")].
Definition _cmd_buffer_close : handler := fun _ _ _ =>
  Ok [("action", VStr "close_buffer")].
Definition _cmd_list_buffers : handler := fun _ _ _ =>
  Ok [("action", VStr "list_buffers")].

(** The pattern of [_cmd_substitute]: [s], any character as group 1, the
    shortest run as group 2, group 1 again, the shortest run as group 3,
    then optionally group 1 again with a run of [g], [i], [I] as group 4,
    and the end. *)
Definition substitute_pattern : Re.regex :=
  Re.cat [ Re.lit "s"; Re.Group 1 (Re.Chr Re.dot);
           Re.Group 2 (Re.Star false Re.dot); Re.Backref 1;
           Re.Group 3 (Re.Star false Re.dot);
           Re.opt (Re.Seq (Re.Backref 1)
                          (Re.Group 4 (Re.plus true (Re.one_of "giI"))));
           Re.Eol ].

Definition _cmd_substitute : handler := fun args start end_ =>
  match Re.rmatch args substitute_pattern with
  | Some m =>
      Ok [ ("action", VStr "substitute");
           ("pattern", opt_str (Re.group args m 2));
           ("replacement", opt_str (Re.group args m 3));
           ("flags", VStr (default "" (Re.group args m 4)));
           ("start", kw_str start);
           ("end", kw_str end_) ]
  | None =>
      Ok [("action", VStr "error"); ("message", VStr "Invalid substitute syntax")]
  end.

(** [self._cmd_substitute(args, start="1", end="$", **kwargs)]: a call that
    passes [start] or [end] gives the keyword twice, which is a
    [TypeError]. *)
Definition _cmd_substitute_all : handler := fun args start end_ =>
  match start, end_ with
  | None, None => _cmd_substitute args (Some (Some "1")) (Some (Some "$"))
  | _, _ => Raise TypeError
  end.

(** The pattern of [_cmd_global]: any character as group 1, the shortest
    run as group 2, group 1 again, the rest as group 3. *)
Definition global_pattern : Re.regex :=
  Re.cat [ Re.Group 1 (Re.Chr Re.dot); Re.Group 2 (Re.Star false Re.dot);
           Re.Backref 1; Re.Group 3 (Re.Star true Re.dot); Re.Eol ].

Definition _cmd_global : handler := fun args _ _ =>
  match Re.rmatch args global_pattern with
  | Some m =>
      Ok [ ("action", VStr "global");
           ("pattern", opt_str (Re.group args m 2));
           ("command", opt_str (Re.group args m 3));
           ("inverse", VBool false) ]
  | None =>
      Ok [("action", VStr "error"); ("message", VStr "Invalid global syntax")]
  end.

(** [result.get("action") == a] *)
Definition action_is (d : dict) (a : string) : bool :=
  match dict_get d "action" with
  | Some (VStr t) => String.eqb t a
  | _ => false
  end.

Definition _cmd_global_inverse : handler := fun args start end_ =>
  result ← _cmd_global args start end_;
  if action_is result "global"
  then Ok (dict_set result "inverse" (VBool true))
  else Ok result.

Definition _cmd_delete : handler := fun _ start end_ =>
  Ok [("action", VStr "delete_lines"); ("start", kw_str start);
      ("end", kw_str end_)].
Definition _cmd_yank : handler := fun args start end_ =>
  Ok [("action", VStr "yank_lines"); ("start", kw_str start);
      ("end", kw_str end_); ("register", VStr (strip args))].
Definition _cmd_put : handler := fun args _ _ =>
  Ok [("action", VStr "put"); ("register", VStr (strip args))].

(** [_cmd_copy] and [_cmd_move] catch the [ValueError] of [int]. *)
Definition _cmd_copy : handler := fun args start end_ =>
  match int (strip args) with
  | Ok dest =>
      Ok [("action", VStr "copy_lines"); ("start", kw_str start);
          ("end", kw_str end_); ("destination", VInt dest)]
  | Raise ValueError =>
      Ok [("action", VStr "error"); ("message", VStr "Invalid destination")]
  | Raise e => Raise e
  end.
Definition _cmd_move : handler := fun args start end_ =>
  match int (strip args) with
  | Ok dest =>
      Ok [("action", VStr "move_lines"); ("start", kw_str start);
          ("end", kw_str end_); ("destination", VInt dest)]
  | Raise ValueError =>
      Ok [("action", VStr "error"); ("message", VStr "Invalid destination")]
  | Raise e => Raise e
  end.

Definition _cmd_join : handler := fun _ start end_ =>
  Ok [("action", VStr "join_lines_range"); ("start", kw_str start);
      ("end", kw_str end_)].
Definition _cmd_read : handler := fun args _ _ =>
  Ok [("action", VStr "read_file"); ("path", VStr (strip args))].
Definition _cmd_shell : handler := fun args _ _ =>
  Ok [("action", VStr "shell_command"); ("command", VStr args)].
Definition _cmd_source : handler := fun args _ _ =>
  Ok [("action", VStr "source_config"); ("path", VStr (strip args))].

(** [_cmd_set]: one part gives the option alone; the other branch indexes
    [parts[0]] and [parts[1]] whatever the number of parts. *)
Definition _cmd_set : handler := fun args _ _ =>
  let parts := split_ws1 args in
  if (length parts =? 1)%nat then
    p0 ← list_getitem parts 0;
    Ok [("action", VStr "set_option"); ("option", VStr p0)]
  else
    p0 ← list_getitem parts 0;
    p1 ← list_getitem parts 1;
    Ok [("action", VStr "set_option"); ("option", VStr p0); ("value", VStr p1)].

(** The pattern of [_cmd_let]: a word as group 1, blanks, [=], blanks and
    the rest as group 2. *)
Definition let_pattern : Re.regex :=
  Re.cat [ Re.Group 1 (Re.plus true Re.word); Re.Star true Re.space;
           Re.lit "="; Re.Star true Re.space;
           Re.Group 2 (Re.Star true Re.dot); Re.Eol ].

Definition _cmd_let : handler := fun args _ _ =>
  match Re.rmatch args let_pattern with
  | Some m =>
      Ok [ ("action", VStr "set_variable");
           ("name", opt_str (Re.group args m 1));
           ("value", opt_str (Re.group args m 2)) ]
  | None =>
      Ok [("action", VStr "error"); ("message", VStr "Invalid let syntax")]
  end.

Definition _cmd_map : handler := fun args _ _ =>
  match split_ws1 args with
  | [p0; p1] =>
      Ok [ ("action", VStr "map_key"); ("key", VStr p0);
           ("command", VStr p1); ("mode", VStr "normal") ]
  | _ => Ok [("action", VStr "error"); ("message", VStr "Invalid map syntax")]
  end.

Definition map_for (mode_name : string) : handler := fun args start end_ =>
  result ← _cmd_map args start end_;
  if action_is result "map_key"
  then Ok (dict_set result "mode" (VStr mode_name))
  else Ok result.

Definition _cmd_nmap : handler := map_for "normal".
Definition _cmd_imap : handler := map_for "insert".
Definition _cmd_vmap : handler := map_for "visual".

Definition _cmd_unmap : handler := fun args _ _ =>
  Ok [("action", VStr "unmap_key"); ("key", VStr (strip args))].
Definition _cmd_nohlsearch : handler := fun _ _ _ =>
  Ok [("action", VStr "clear_search_highlights")].
Definition _cmd_syntax : handler := fun args _ _ =>
  Ok [("action", VStr "syntax_command"); ("args", VStr args)].
Definition _cmd_highlight : handler := fun args _ _ =>
  Ok [("action", VStr "highlight_command"); ("args", VStr args)].
Definition _cmd_colorscheme : handler := fun args _ _ =>
  Ok [("action", VStr "set_colorscheme"); ("name", VStr (strip args))].
Definition _cmd_tabnew : handler := fun args _ _ =>
  Ok [("action", VStr "new_tab"); ("path", strip_or_none args)].
Definition _cmd_tabclose : handler := fun _ _ _ =>
  Ok [("action", VStr "close_tab")].
Definition _cmd_tabnext : handler := fun _ _ _ =>
  Ok [("action", VStr "next_tab")].
Definition _cmd_tabprev : handler := fun _ _ _ =>
  Ok [("action", VStr "prev_tab")].
Definition _cmd_vsplit : handler := fun args _ _ =>
  Ok [("action", VStr "vsplit"); ("path", strip_or_none args)].
Definition _cmd_split : handler := fun args _ _ =>
  Ok [("action", VStr "hsplit"); ("path", strip_or_none args)].
Definition _cmd_close : handler := fun _ _ _ =>
  Ok [("action", VStr "close_window")].
Definition _cmd_only : handler := fun _ _ _ =>
  Ok [("action", VStr "close_other_windows")].
Definition _cmd_resize : handler := fun args _ _ =>
  Ok [("action", VStr "resize_window"); ("size", VStr (strip args))].
Definition _cmd_vertical_resize : handler := fun args _ _ =>
  Ok [("action", VStr "vertical_resize"); ("size", VStr (strip args))].
Definition _cmd_cd : handler := fun args _ _ =>
  Ok [("action", VStr "change_directory"); ("path", VStr (strip args))].
Definition _cmd_pwd : handler := fun _ _ _ =>
  Ok [("action", VStr "show_directory")].
Definition _cmd_mkdir : handler := fun args _ _ =>
  Ok [("action", VStr "make_directory"); ("path", VStr (strip args))].
Definition _cmd_help : handler := fun args _ _ =>
  Ok [("action", VStr "show_help"); ("topic", strip_or_none args)].
Definition _cmd_version : handler := fun _ _ _ =>
  Ok [("action", VStr "show_version")].

(** The table that [_init_commands] builds. *)
Definition ex_commands : list (string * handler) :=
  [ ("w", _cmd_write); ("wq", _cmd_write_quit); ("q", _cmd_quit);
    ("q!", _cmd_force_quit); ("qa", _cmd_quit_all);
    ("qa!", _cmd_force_quit_all); ("e", _cmd_edit);
    ("bn", _cmd_buffer_next); ("bp", _cmd_buffer_prev);
    ("bd", _cmd_buffer_close); ("ls", _cmd_list_buffers);
    ("s", _cmd_substitute); ("%s", _cmd_substitute_all);
    ("g", _cmd_global); ("v", _cmd_global_inverse);
    ("d", _cmd_delete); ("y", _cmd_yank); ("pu", _cmd_put);
    ("co", _cmd_copy); ("t", _cmd_copy); ("m", _cmd_move);
    ("j", _cmd_join); ("r", _cmd_read); ("!", _cmd_shell);
    ("so", _cmd_source); ("set", _cmd_set); ("let", _cmd_let);
    ("map", _cmd_map); ("nmap", _cmd_nmap); ("imap", _cmd_imap);
    ("vmap", _cmd_vmap); ("unmap", _cmd_unmap); ("noh", _cmd_nohlsearch);
    ("syn", _cmd_syntax); ("hi", _cmd_highlight);
    ("colorscheme", _cmd_colorscheme); ("tabnew", _cmd_tabnew);
    ("tabc", _cmd_tabclose); ("tabn", _cmd_tabnext); ("tabp", _cmd_tabprev);
    ("vsp", _cmd_vsplit); ("sp", _cmd_split); ("clo", _cmd_close);
    ("on", _cmd_only); ("res", _cmd_resize); ("vert", _cmd_vertical_resize);
    ("cd", _cmd_cd); ("pwd", _cmd_pwd); ("mkdir", _cmd_mkdir);
    ("help", _cmd_help); ("version", _cmd_version) ].

(** The pattern of the range commands in [_execute_command]: optionally a
    number, [$] or [.] as group 1; optionally a comma and the same as
    group 2; a word as group 3; the rest as group 4. *)
Definition range_pattern : Re.regex :=
  let bound :=
    Re.Alt (Re.plus true Re.digit) (Re.Alt (Re.lit "$") (Re.lit ".")) in
  Re.cat [ Re.opt (Re.Group 1 bound);
           Re.opt (Re.Seq (Re.lit ",") (Re.Group 2 bound));
           Re.Group 3 (Re.plus true Re.word);
           Re.Group 4 (Re.Star true Re.dot); Re.Eol ].

(** The history after [cmd] has run: a command not yet in it goes to the
    front, and the last entry leaves when there are more than 100. *)
Definition push_history (cmd : string) (h : list string) : list string :=
  if existsb (String.eqb cmd) h then h
  else
    let h' := cmd :: h in
    if (100 <? length h')%nat then removelast h' else h'.

Definition set_buffer (b : string) (c : CommandState) : CommandState :=
  mkCommandState b (cursor_pos c) (history c) (history_index c).
Definition set_cursor_pos (p : Z) (c : CommandState) : CommandState :=
  mkCommandState (buffer c) p (history c) (history_index c).
Definition set_history (h : list string) (c : CommandState) : CommandState :=
  mkCommandState (buffer c) (cursor_pos c) h (history_index c).
Definition set_history_index (i : Z) (c : CommandState) : CommandState :=
  mkCommandState (buffer c) (cursor_pos c) (history c) i.

(** The action that stands for a command without a result. *)
Definition command_executed (cmd : string) : dict :=
  [("action", VStr "command_executed"); ("command", VStr cmd)].

(** The dispatch of [_execute_command], once [cmd] is known not to be
    empty: first by the first word of [cmd], then by the range pattern. *)
Definition dispatch (cmd : string) : result (option dict) :=
  let parts := split_ws1 cmd in
  cmd_name ← list_getitem parts 0;
  cmd_args ← (if (1 <? length parts)%nat then list_getitem parts 1 else Ok "");
  match table_get ex_commands cmd_name with
  | Some h => result ← h cmd_args None None; Ok (Some result)
  | None =>
      match Re.rmatch cmd range_pattern with
      | Some m =>
          let name := default "" (Re.group cmd m 3) in
          let args := default "" (Re.group cmd m 4) in
          match table_get ex_commands name with
          | Some h =>
              result ← h args (Some (Re.group cmd m 1))
                         (Some (Re.group cmd m 2));
              Ok (Some result)
          | None => Ok None
          end
      | None => Ok None
      end
  end.

(** [result or {...}]: an empty [dict] counts as no result. *)
Definition result_or (r : option dict) (d : dict) : dict :=
  match r with
  | Some ((_ :: _) as x) => x
  | _ => d
  end.

Definition _execute_command (s : VimMode) : result (option dict) * VimMode :=
  let cmd := strip (buffer (command_state s)) in
  if negb (truthy cmd) then (Ok None, enter_normal_mode s)
  else
    let c := command_state s in
    let s1 :=
      set_command_state
        (set_history_index (-1) (set_history (push_history cmd (history c)) c))
        s in
    match dispatch cmd with
    | Ok result =>
        (Ok (Some (result_or result (command_executed cmd))),
         enter_normal_mode s1)
    | Raise e => (Raise e, s1)
    end.

(** *** Key handling

    A key is the string the host passes: one character, or a name such as
    [Escape] or [Return]. The modifiers are the [dict] of flags, of which
    only [ctrl] is read. Each handler returns what the method returns or
    raises, and the object after the call. *)

Definition modifiers : Type := gmap string bool.

Definition ctrl_of (mods : modifiers) : bool := default false (mods !! "ctrl").

Definition outcome : Type := result (option dict) * VimMode.

Definition _handle_normal_key (key : string) (mods : modifiers) (s : VimMode)
    : outcome :=
  if ctrl_of mods then (Ok (_handle_ctrl_key key), s)
  else if isdigit key && (truthy (count_buffer s) || negb (String.eqb key "0"))
  then (Ok None, set_count_buffer (count_buffer s +:+ key) s)
  else
    let s1 := set_key_sequence (key_sequence s +:+ key) s in
    match _lookup_action (key_sequence s1) with
    | Some action =>
        match _execute_action action s1 with
        | Ok result =>
            (Ok (Some result), set_count_buffer "" (set_key_sequence "" s1))
        | Raise e => (Raise e, s1)
        end
    | None =>
        if _is_operator key then (Ok None, set_operator_pending (Some key) s1)
        else if _has_partial_match (key_sequence s1) then (Ok None, s1)
        else
          (Ok None,
           set_operator_pending None
             (set_count_buffer "" (set_key_sequence "" s1)))
    end.

Definition insert_ctrl_map : list (string * string) :=
  [ ("o", "single_normal_command"); ("w", "delete_word_before");
    ("u", "delete_to_line_start"); ("t", "indent_line");
    ("d", "unindent_line"); ("n", "completion_next");
    ("p", "completion_prev") ].

Definition _handle_insert_key (key : string) (mods : modifiers) (s : VimMode)
    : outcome :=
  let ctrl := ctrl_of mods in
  match (if ctrl then table_get insert_ctrl_map key else None) with
  | Some a => (Ok (Some [("action", VStr a)]), s)
  | None =>
      if String.eqb key "Escape" || (ctrl && String.eqb key "c") then
        (Ok (Some [("action", VStr "exit_insert_mode")]), enter_normal_mode s)
      else (Ok (Some [("action", VStr "insert_char"); ("char", VStr key)]), s)
  end.

Definition action_map : list (string * string) :=
  [ ("o", "move_to_other_end"); ("O", "move_to_other_end_block");
    ("gv", "reselect_last"); ("J", "join_selection_lines");
    ("u", "selection_to_lowercase"); ("U", "selection_to_uppercase");
    (">", "indent_selection"); ("<", "unindent_selection");
    ("=", "auto_indent_selection") ].

Definition executed (action : string) (s : VimMode) : outcome :=
  match _execute_action action s with
  | Ok result => (Ok (Some result), s)
  | Raise e => (Raise e, s)
  end.

Definition _handle_visual_key (key : string) (mods : modifiers) (s : VimMode)
    : outcome :=
  let ctrl := ctrl_of mods in
  if String.eqb key "Escape" || (ctrl && String.eqb key "c") then
    (Ok (Some [("action", VStr "clear_selection")]), enter_normal_mode s)
  else if str_in key "hjkl" then
    (Ok (Some [("action", VStr ("extend_" +:+ _key_to_motion key))]), s)
  else if String.eqb key "d" || String.eqb key "x" then
    executed "delete_selection" s
  else if String.eqb key "y" then executed "yank_selection" s
  else if String.eqb key "c" then executed "change_selection" s
  else if String.eqb key "r" then
    (Ok (Some [("action", VStr "replace_selection"); ("await_char", VBool true)]),
     enter_mode NORMAL s)
  else
    match table_get action_map key with
    | Some a => (Ok (Some [("action", VStr a)]), s)
    | None => (Ok None, s)
    end.

Definition with_command_state (c : CommandState) (s : VimMode) : outcome :=
  (Ok None, set_command_state c s).

Definition _handle_command_key (key : string) (mods : modifiers) (s : VimMode)
    : outcome :=
  let ctrl := ctrl_of mods in
  let c := command_state s in
  if String.eqb key "Escape" || (ctrl && String.eqb key "c") then
    (Ok None, enter_normal_mode s)
  else if String.eqb key "Return" then _execute_command s
  else if String.eqb key "BackSpace" then
    if 0 <? cursor_pos c then
      let pos := cursor_pos c in
      with_command_state
        (set_cursor_pos (pos - 1)
           (set_buffer (slice (buffer c) None (Some (pos - 1))
                        +:+ slice (buffer c) (Some pos) None) c))
        s
    else if negb (truthy (buffer c)) then (Ok None, enter_normal_mode s)
    else (Ok None, s)
  else if String.eqb key "Left" then
    if 0 <? cursor_pos c
    then with_command_state (set_cursor_pos (cursor_pos c - 1) c) s
    else (Ok None, s)
  else if String.eqb key "Right" then
    if cursor_pos c <? len (buffer c)
    then with_command_state (set_cursor_pos (cursor_pos c + 1) c) s
    else (Ok None, s)
  else if String.eqb key "Up" then
    match history c with
    | [] => (Ok None, s)
    | _ :: _ =>
        if history_index c <? Z.of_nat (length (history c)) - 1 then
          let c1 := set_history_index (history_index c + 1) c in
          match list_getitem (history c1) (history_index c1) with
          | Ok b =>
              with_command_state (set_cursor_pos (len b) (set_buffer b c1)) s
          | Raise e => (Raise e, set_command_state c1 s)
          end
        else (Ok None, s)
    end
  else if String.eqb key "Down" then
    if 0 <? history_index c then
      let c1 := set_history_index (history_index c - 1) c in
      match list_getitem (history c1) (history_index c1) with
      | Ok b =>
          with_command_state (set_cursor_pos (len b) (set_buffer b c1)) s
      | Raise e => (Raise e, set_command_state c1 s)
      end
    else if history_index c =? 0 then
      with_command_state
        (set_cursor_pos 0 (set_buffer "" (set_history_index (-1) c))) s
    else with_command_state (set_cursor_pos (len (buffer c)) c) s
  else if String.eqb key "Tab" then
    (Ok (Some [("action", VStr "command_complete")]), s)
  else if len key =? 1 then
    let pos := cursor_pos c in
    with_command_state
      (set_cursor_pos (pos + 1)
         (set_buffer (slice (buffer c) None (Some pos) +:+ key
                      +:+ slice (buffer c) (Some pos) None) c))
      s
  else (Ok None, s).

Definition _handle_replace_key (key : string) (mods : modifiers) (s : VimMode)
    : outcome :=
  if String.eqb key "Escape" then (Ok None, enter_normal_mode s)
  else (Ok (Some [("action", VStr "replace_char"); ("char", VStr key)]), s).

Definition handle_key (key : string) (mods : modifiers) (s : VimMode)
    : outcome :=
  match mode s with
  | INSERT => _handle_insert_key key mods s
  | NORMAL => _handle_normal_key key mods s
  | VISUAL | VISUAL_LINE | VISUAL_BLOCK => _handle_visual_key key mods s
  | COMMAND => _handle_command_key key mods s
  | REPLACE => _handle_replace_key key mods s
  end.

(** The keys of a sequence fed one after the other, as long as no call
    raises; the answer is what the last call returned. *)
Fixpoint handle_keys (keys : list string) (mods : modifiers) (s : VimMode)
    (last : option dict) : outcome :=
  match keys with
  | [] => (Ok last, s)
  | key :: keys' =>
      match handle_key key mods s with
      | (Ok r, s') => handle_keys keys' mods s' r
      | (Raise e, s') => (Raise e, s')
      end
  end.

(** *** Registers *)

Definition set_register (name content : string) (linewise : bool)
    (s : VimMode) : VimMode :=
  let r := mkRegister content linewise in
  let regs :=
    match registers s !! name with
    | Some _ => <[name := r]> (registers s)
    | None => registers s
    end in
  set_registers
    (if negb (String.eqb name "") then <["" := r]> regs else regs) s.

Definition get_register (name : string) (s : VimMode) : option Register :=
  match registers s !! name with
  | Some r => Some r
  | None => registers s !! ""
  end.

(** *** Notions used in the statements *)

Definition no_modifiers : modifiers := ∅.

(** An action as [_execute_action] builds it. *)
Definition action (name : string) (count : Z) (operator : value) : dict :=
  [("action", VStr name); ("count", VInt count); ("operator", operator)].

(** The engine in command mode with [line] typed, and what pressing Return
    then gives. *)
Definition command_line (line : string) : VimMode :=
  snd (handle_keys (chars line) no_modifiers (enter_command_mode init) None).

Definition press_return (line : string) : result (option dict) :=
  fst (handle_key "Return" no_modifiers (command_line line)).

(** The two names under which [_execute_command] looks a command up: the
    first word of the line, and the word that the range pattern finds. *)
Definition first_word (cmd : string) : option string := head (split_ws1 cmd).

Definition range_name (cmd : string) : option string :=
  match Re.rmatch cmd range_pattern with
  | Some m => Re.group cmd m 3
  | None => None
  end.

Definition known (n : option string) : bool :=
  match n with
  | Some n => table_mem ex_commands n
  | None => false
  end.

Definition recognized (cmd : string) : bool :=
  known (first_word cmd) || known (range_name cmd).

(** The states of the engine: the initial one and what the public methods
    make of a state, whether they return or raise. *)
Inductive reachable : VimMode -> Prop :=
| reach_init : reachable init
| reach_handle_key key mods s :
    reachable s -> reachable (snd (handle_key key mods s))
| reach_enter_mode m s : reachable s -> reachable (enter_mode m s)
| reach_enter_insert_mode s : reachable s -> reachable (enter_insert_mode s)
| reach_enter_normal_mode s : reachable s -> reachable (enter_normal_mode s)
| reach_enter_visual_mode l b s :
    reachable s -> reachable (enter_visual_mode l b s)
| reach_enter_command_mode s : reachable s -> reachable (enter_command_mode s)
| reach_enter_replace_mode s : reachable s -> reachable (enter_replace_mode s)
| reach_set_register name content linewise s :
    reachable s -> reachable (set_register name content linewise s).

(** The cursor of the command line is inside the buffer or at its end. *)
Definition cursor_in_buffer (c : CommandState) : Prop :=
  0 <= cursor_pos c <= len (buffer c).

(** A key whose characters are all below U+0080. *)
Definition is_ascii (key : string) : bool :=
  str_forall (fun c => ord c <? 128) key.

(** The actions that [_lookup_action] names for an operator followed by
    i or a and the key of a text object. *)
Definition text_object_actions : list string :=
  op ← ["c"; "d"; "y"];
  io ← ["inner"; "around"];
  o ← objects.*2;
  [op +:+ "_" +:+ io +:+ "_" +:+ o].

Definition is_text_object_action (a : string) : bool :=
  existsb (String.eqb a) text_object_actions.

(** No i and no a in a key sequence. *)
Definition no_ia (ks : string) : bool :=
  str_forall (fun c => negb (Ascii.eqb c "i" || Ascii.eqb c "a")) ks.

(** [d] has a string under the key [action]. *)
Definition has_action (d : dict) : bool :=
  match dict_get d "action" with
  | Some (VStr _) => true
  | _ => false
  end.

(** The history of the command line holds no line twice and at most 100
    lines, and its index is -1 or a position in it. *)
Definition history_in_order (c : CommandState) : Prop :=
  NoDup (history c) /\ (length (history c) <= 100)%nat
  /\ -1 <= history_index c < Z.of_nat (length (history c)).

End Vim.

(** ** Marks, macros and the search pattern of the Vim engine *)

Module VimStores.
Import Py.

(** Marks, macros and the search pattern

    The fields of [VimMode] that the key handling neither reads nor
    writes, with the methods that do. *)

Record Mark : Type := mkMark {
  line : Z;
  column : Z;
  filepath : string
}.

Record SearchState : Type := mkSearchState {
  pattern : string;
  direction : Z;
  highlights : list (Z * Z * Z * Z)
}.

Record Stores : Type := mkStores {
  marks : gmap string Mark;
  search_state : SearchState;
  last_search_pattern : string;
  macro_recording : option string;
  macro_buffer : string;
  macros : gmap string string
}.

(** The fields as [__init__] leaves them. *)
Definition init_stores : Stores :=
  mkStores ∅ (mkSearchState "" 1 []) "" None "" ∅.

Definition set_mark (name : string) (l c : Z) (path : string) (st : Stores)
    : Stores :=
  mkStores (<[name := mkMark l c path]> (marks st)) (search_state st)
    (last_search_pattern st) (macro_recording st) (macro_buffer st)
    (macros st).

Definition get_mark (name : string) (st : Stores) : option Mark :=
  marks st !! name.

Definition start_macro (register : string) (st : Stores) : Stores :=
  mkStores (marks st) (search_state st) (last_search_pattern st)
    (Some register) "" (macros st).

(** [if self.macro_recording:] is false for [None] and for the empty
    name. *)
Definition stop_macro (st : Stores) : Stores :=
  match macro_recording st with
  | Some register =>
      if truthy register then
        mkStores (marks st) (search_state st) (last_search_pattern st)
          None "" (<[register := macro_buffer st]> (macros st))
      else st
  | None => st
  end.

Definition play_macro (register : string) (st : Stores) : string :=
  default "" (macros st !! register).

Definition set_search_pattern (p : string) (d : Z) (st : Stores) : Stores :=
  mkStores (marks st)
    (mkSearchState p d (highlights (search_state st)))
    p (macro_recording st) (macro_buffer st) (macros st).

Definition get_search_pattern (st : Stores) : string :=
  if truthy (pattern (search_state st)) then pattern (search_state st)
  else last_search_pattern st.

(** What the five methods that write make of the fields. *)
Inductive stored : Stores -> Prop :=
| stored_init : stored init_stores
| stored_set_mark name l c path st :
    stored st -> stored (set_mark name l c path st)
| stored_start_macro register st :
    stored st -> stored (start_macro register st)
| stored_stop_macro st : stored st -> stored (stop_macro st)
| stored_set_search_pattern p d st :
    stored st -> stored (set_search_pattern p d st).

End VimStores.

(** * Properties *)

(** ** Facts about the built-ins *)

Module PyFacts.
Import Py.

Lemma append_cons (c : ascii) (s t : string) :
  String c s +:+ t = String c (s +:+ t).
Proof. reflexivity. Qed.

Lemma append_assoc (s t u : string) : (s +:+ t) +:+ u = s +:+ t +:+ u.
Proof.
  induction s as [|c s IH]; [reflexivity|].
  now rewrite !append_cons, IH.
Qed.

Lemma str_take_drop (n : nat) (s : string) :
  str_take n s +:+ str_drop n s = s.
Proof.
  revert s; induction n as [|n IH]; intros [|c s]; simpl; try reflexivity.
  now rewrite append_cons, IH.
Qed.

Lemma str_drop_add (n m : nat) (s : string) :
  str_drop (n + m) s = str_drop m (str_drop n s).
Proof.
  revert s; induction n as [|n IH]; intros s; simpl; [reflexivity|].
  destruct s as [|c s]; simpl; [now destruct m | apply IH].
Qed.

Lemma str_take_all (n : nat) (s : string) :
  (String.length s <= n)%nat -> str_take n s = s.
Proof.
  revert s; induction n as [|n IH]; intros [|c s]; simpl; intros H;
    try reflexivity; [lia|].
  rewrite IH; [reflexivity | lia].
Qed.

Lemma str_drop_length (n : nat) (s : string) :
  String.length (str_drop n s) = (String.length s - n)%nat.
Proof.
  revert s; induction n as [|n IH]; intros [|c s]; simpl; try reflexivity.
  apply IH.
Qed.

Lemma clamp_nonneg (n i : Z) :
  0 <= n -> 0 <= i -> clamp n i = Z.min i n.
Proof.
  intros Hn Hi. unfold clamp.
  destruct (i <? 0) eqn:E1; [lia|]. rewrite E1.
  destruct (n <? i) eqn:E2; lia.
Qed.

(** A text cut at two offsets in order, neither negative, is the three
    pieces put back together. *)
Lemma slice_three (s : string) (a b : Z) :
  0 <= a -> a <= b ->
  slice s None (Some a) +:+ slice s (Some a) (Some b) +:+ slice s (Some b) None
  = s.
Proof.
  intros Ha Hab. unfold slice.
  assert (Hn : 0 <= len s) by (unfold len; lia).
  rewrite !clamp_nonneg by lia.
  set (a' := Z.to_nat (Z.min a (len s))).
  set (b' := Z.to_nat (Z.min b (len s))).
  replace (Z.to_nat (Z.min a (len s) - 0)) with a' by (subst a'; lia).
  replace (Z.to_nat 0) with 0%nat by reflexivity.
  replace (Z.to_nat (Z.min b (len s) - Z.min a (len s))) with (b' - a')%nat
    by (subst a' b'; lia).
  assert (Hle : (a' <= b')%nat) by (subst a' b'; lia).
  change (str_drop 0 s) with s.
  rewrite (str_take_all (Z.to_nat (len s - Z.min b (len s))) (str_drop b' s)).
  2:{ rewrite str_drop_length. subst b'. unfold len. lia. }
  replace (str_drop b' s) with (str_drop (b' - a') (str_drop a' s)).
  2:{ rewrite <- str_drop_add. f_equal. lia. }
  rewrite str_take_drop. apply str_take_drop.
Qed.

Lemma insert_sorted_elem {A} (key : A -> Z) (reverse : bool) (x y : A)
    (l : list A) :
  y ∈ insert_sorted key reverse x l -> y = x \/ y ∈ l.
Proof.
  induction l as [|z l IH]; simpl.
  - intros H. apply list_elem_of_singleton in H. now left.
  - destruct (if reverse then key x <=? key z else key z <=? key x).
    + intros H. apply elem_of_cons in H as [->|H].
      * right. apply elem_of_cons. now left.
      * destruct (IH H) as [->|H']; [now left|].
        right. apply elem_of_cons. now right.
    + intros H. apply elem_of_cons in H as [->|H]; [now left | now right].
Qed.

Lemma foldl_insert_elem {A} (key : A -> Z) (reverse : bool) (l acc : list A)
    (y : A) :
  y ∈ foldl (fun acc x => insert_sorted key reverse x acc) acc l ->
  y ∈ acc \/ y ∈ l.
Proof.
  revert acc; induction l as [|x l IH]; simpl; intros acc H.
  - now left.
  - destruct (IH _ H) as [H'|H'].
    + destruct (insert_sorted_elem _ _ _ _ _ H') as [->|H''].
      * right. apply elem_of_cons. now left.
      * now left.
    + right. apply elem_of_cons. now right.
Qed.

(** Sorting brings in no element. *)
Lemma sorted_elem {A} (key : A -> Z) (reverse : bool) (l : list A) (y : A) :
  y ∈ sorted key reverse l -> y ∈ l.
Proof.
  intros H. destruct (foldl_insert_elem _ _ _ _ _ H) as [H'|H']; [|exact H'].
  now apply elem_of_nil in H'.
Qed.

(** What [lstrip] leaves is empty or starts with a character that is no
    blank. *)
Lemma lstrip_shape (s : string) :
  lstrip s = "" \/
  exists c t, lstrip s = String c t /\ isspace_char c = false.
Proof.
  induction s as [|c s IH]; simpl; [now left|].
  destruct (isspace_char c) eqn:E; [exact IH|].
  right. now exists c, s.
Qed.

Lemma rstrip_cons (c : ascii) (t : string) :
  isspace_char c = false -> exists r, rstrip (String c t) = String c r.
Proof.
  intros E. simpl. destruct (rstrip t); rewrite ?E; eauto.
Qed.

(** A stripped string that is not empty starts with a character that is no
    blank. *)
Lemma strip_shape (s : string) :
  strip s = "" \/
  exists c t, strip s = String c t /\ isspace_char c = false.
Proof.
  unfold strip. destruct (lstrip_shape s) as [->|(c & t & -> & E)].
  - now left.
  - right. destruct (rstrip_cons c t E) as [r ->]. now exists c, r.
Qed.

(** The first word of a line that starts with a character that is no
    blank. *)
Lemma split_ws1_cons (c : ascii) (t : string) :
  isspace_char c = false ->
  exists w rest, split_ws1 (String c t) = w :: rest.
Proof.
  intros E. unfold split_ws1. simpl lstrip. rewrite E.
  simpl span. rewrite E. simpl negb.
  destruct (span (fun c0 => negb (isspace_char c0)) t) as [a b].
  destruct (lstrip b); eauto.
Qed.

Lemma list_getitem_ok {A} (l : list A) (i : nat) (x : A) :
  l !! i = Some x -> list_getitem l (Z.of_nat i) = Ok x.
Proof.
  intros H. unfold list_getitem.
  pose proof (lookup_lt_Some _ _ _ H) as Hlt.
  destruct (Z.of_nat i <? 0) eqn:E1; [lia|].
  destruct ((Z.of_nat i <? 0) || (Z.of_nat (length l) <=? Z.of_nat i)) eqn:E2.
  - apply orb_true_iff in E2 as [E2|E2]; lia.
  - rewrite Nat2Z.id, H. reflexivity.
Qed.

Lemma str_take_add (p q : nat) (t : string) :
  str_take (p + q) t = str_take p t +:+ str_take q (str_drop p t).
Proof.
  revert t. induction p as [|p IH]; intros t; simpl.
  - now destruct q, t.
  - destruct t as [|c t]; [now destruct q|].
    rewrite append_cons. now rewrite IH.
Qed.

(** Two slices that meet make one. *)
Lemma slice_cat (s : string) (i j k : Z) :
  0 <= i -> i <= j -> j <= k ->
  slice s (Some i) (Some j) +:+ slice s (Some j) (Some k)
  = slice s (Some i) (Some k).
Proof.
  intros Hi Hij Hjk. unfold slice.
  assert (Hn : 0 <= len s) by (unfold len; lia).
  rewrite !clamp_nonneg by lia.
  set (i' := Z.to_nat (Z.min i (len s))).
  set (j' := Z.to_nat (Z.min j (len s))).
  set (k' := Z.to_nat (Z.min k (len s))).
  replace (Z.to_nat (Z.min j (len s) - Z.min i (len s))) with (j' - i')%nat
    by (subst i' j'; lia).
  replace (Z.to_nat (Z.min k (len s) - Z.min j (len s))) with (k' - j')%nat
    by (subst j' k'; lia).
  replace (Z.to_nat (Z.min k (len s) - Z.min i (len s)))
    with ((j' - i') + (k' - j'))%nat by (subst i' j' k'; lia).
  rewrite str_take_add, <- str_drop_add.
  replace (i' + (j' - i'))%nat with j' by (subst i' j'; lia).
  reflexivity.
Qed.

Lemma get_take_drop (n : nat) (s : string) (c : ascii) :
  String.get n s = Some c -> str_take 1 (str_drop n s) = String c "".
Proof.
  revert s. induction n as [|n IH]; intros [|d s]; simpl; try discriminate.
  - intros [= ->]. now destruct s.
  - apply IH.
Qed.

Lemma get_length (n : nat) (s : string) (c : ascii) :
  String.get n s = Some c -> (n < String.length s)%nat.
Proof.
  revert s. induction n as [|n IH]; intros [|d s]; simpl; try discriminate.
  - lia.
  - intros H. apply IH in H. lia.
Qed.

(** An index that is not negative and has a character lies in the text, and
    the character is the slice of length one there. *)
Lemma getitem_nonneg (s : string) (i : Z) (x : string) :
  0 <= i -> getitem s i = Ok x ->
  i < len s /\ slice s (Some i) (Some (i + 1)) = x.
Proof.
  intros Hi. unfold getitem.
  destruct (i <? 0) eqn:E; [lia|].
  destruct ((i <? 0) || (len s <=? i)) eqn:E2; [discriminate|].
  destruct (String.get (Z.to_nat i) s) as [c|] eqn:G; [|discriminate].
  intros [= <-]. apply orb_false_iff in E2 as [_ E2].
  split; [lia|]. unfold slice.
  assert (Hn : 0 <= len s) by (unfold len; lia).
  rewrite !clamp_nonneg by lia.
  replace (Z.to_nat (Z.min (i + 1) (len s) - Z.min i (len s))) with 1%nat by lia.
  replace (Z.min i (len s)) with i by lia.
  now apply get_take_drop.
Qed.

Lemma get_some (n : nat) (s : string) :
  (n < String.length s)%nat -> exists c, String.get n s = Some c.
Proof.
  revert s. induction n as [|n IH]; intros [|d s]; simpl; try lia.
  - eauto.
  - intros H. apply IH. lia.
Qed.

(** Every index from 0 to the length has a character. *)
Lemma getitem_in_range (s : string) (i : Z) :
  0 <= i < len s -> exists x, getitem s i = Ok x.
Proof.
  intros Hi. unfold getitem.
  destruct (i <? 0) eqn:E; [lia|].
  destruct ((i <? 0) || (len s <=? i)) eqn:E2.
  - apply orb_true_iff in E2 as [E2|E2]; lia.
  - destruct (get_some (Z.to_nat i) s) as [c ->]; [unfold len in Hi; lia|].
    eauto.
Qed.

Lemma count_char_nonneg (c : ascii) (s : string) : 0 <= count_char c s.
Proof. induction s as [|d s IH]; simpl; [lia|]. destruct (Ascii.eqb c d); lia. Qed.

Lemma split_char_length (sep : ascii) (s : string) :
  Z.of_nat (length (split_char sep s)) = count_char sep s + 1.
Proof.
  induction s as [|c s IH]; [reflexivity|].
  simpl split_char. simpl count_char.
  rewrite (Ascii.eqb_sym sep c).
  destruct (Ascii.eqb c sep).
  - simpl length. rewrite Nat2Z.inj_succ. lia.
  - pose proof (count_char_nonneg sep s).
    destruct (split_char sep s); simpl length in *; lia.
Qed.

Lemma count_char_take (c : ascii) (n : nat) (s : string) :
  count_char c (str_take n s) <= count_char c s.
Proof.
  revert s. induction n as [|n IH]; intros [|d s]; simpl; try lia.
  - pose proof (count_char_nonneg c s). destruct (Ascii.eqb c d); lia.
  - specialize (IH s). lia.
Qed.

Lemma count_char_drop (c : ascii) (n : nat) (s : string) :
  count_char c (str_drop n s) <= count_char c s.
Proof.
  revert s. induction n as [|n IH]; intros [|d s]; simpl; try lia.
  specialize (IH s). destruct (Ascii.eqb c d); lia.
Qed.

(** A slice has no more occurrences of a character than the text. *)
Lemma count_char_slice (c : ascii) (s : string) (lo hi : option Z) :
  0 <= count_char c (slice s lo hi) <= count_char c s.
Proof.
  split; [apply count_char_nonneg|]. unfold slice.
  etransitivity; [apply count_char_take | apply count_char_drop].
Qed.

(** The lines of a text, each with its newline, together have one character
    more than the text. *)
Lemma split_char_extent (sep : ascii) (s : string) :
  sum_list_with (fun l => S (String.length l)) (split_char sep s)
  = S (String.length s).
Proof.
  induction s as [|c s IH]; simpl; [reflexivity|].
  destruct (Ascii.eqb c sep).
  - simpl. rewrite IH. reflexivity.
  - destruct (split_char sep s) as [|w ws]; simpl in *; lia.
Qed.

Lemma sum_take_le {A} (f : A -> nat) (n : nat) (l : list A) :
  (sum_list_with f (take n l) <= sum_list_with f l)%nat.
Proof.
  rewrite <- (take_drop n l) at 2. rewrite sum_list_with_app. lia.
Qed.

Lemma sum_take_lt {A} (f : A -> nat) (n m : nat) (l : list A) :
  (forall x, 1 <= f x)%nat -> (n < m <= length l)%nat ->
  (sum_list_with f (take n l) + 1 <= sum_list_with f (take m l))%nat.
Proof.
  intros Hf Hnm.
  replace m with (n + (m - n))%nat by lia.
  rewrite <- take_take_drop, sum_list_with_app.
  destruct (take (m - n) (drop n l)) as [|x t] eqn:E.
  - apply (f_equal length) in E. rewrite length_take, length_drop in E.
    simpl in E. lia.
  - simpl. specialize (Hf x). lia.
Qed.

Lemma split_char_cons (sep : ascii) (s : string) :
  exists w ws, split_char sep s = w :: ws.
Proof.
  destruct s as [|c s]; simpl; [eauto|].
  destruct (Ascii.eqb c sep); [eauto|].
  destruct (split_char sep s); eauto.
Qed.

(** Joining the lines of a text with newlines gives the text back. *)
Lemma join_split_char (s : string) : join nl (split_char newline s) = s.
Proof.
  induction s as [|c s IH]; [reflexivity|]. simpl split_char.
  destruct (Ascii.eqb c newline) eqn:E.
  - apply Ascii.eqb_eq in E. subst c.
    destruct (split_char_cons newline s) as (w & ws & Hs).
    rewrite Hs in IH |- *. simpl join in *.
    change ("" +:+ nl +:+ ?x) with (String newline x).
    destruct ws; now rewrite IH.
  - destruct (split_char_cons newline s) as (w & ws & Hs).
    rewrite Hs in IH |- *.
    simpl join in *. destruct ws; [now rewrite IH|].
    rewrite append_cons. now rewrite IH.
Qed.

Lemma str_drop_append (x t : string) : str_drop (String.length x) (x +:+ t) = t.
Proof. induction x as [|c x IH]; [now destruct t|]. now rewrite append_cons. Qed.

Lemma str_take_append (y z : string) : str_take (String.length y) (y +:+ z) = y.
Proof.
  induction y as [|c y IH]; [now destruct z|].
  rewrite append_cons. simpl. now rewrite IH.
Qed.

Lemma append_empty_r (s : string) : s +:+ "" = s.
Proof. induction s as [|c s IH]; [reflexivity|]. now rewrite append_cons, IH. Qed.

Lemma len_append (s t : string) : len (s +:+ t) = len s + len t.
Proof.
  unfold len. induction s as [|c s IH].
  - change ("" +:+ t) with t. simpl. lia.
  - rewrite append_cons. simpl String.length. lia.
Qed.

(** The slice that cuts the middle one of three pieces. *)
Lemma slice_middle (x y z : string) :
  slice (x +:+ y +:+ z) (Some (len x)) (Some (len x + len y)) = y.
Proof.
  unfold slice. rewrite !len_append.
  assert (0 <= len x /\ 0 <= len y /\ 0 <= len z) by (unfold len; lia).
  rewrite !clamp_nonneg by lia.
  replace (Z.to_nat (Z.min (len x) (len x + (len y + len z))))
    with (String.length x) by (unfold len; lia).
  replace (Z.to_nat (Z.min (len x + len y) (len x + (len y + len z))
                     - Z.min (len x) (len x + (len y + len z))))
    with (String.length y) by (unfold len; lia).
  now rewrite str_drop_append, str_take_append.
Qed.

Lemma eqb_length (a b : string) :
  String.eqb a b = true -> String.length a = String.length b.
Proof. intros H. apply String.eqb_eq in H. now subst. Qed.

(** A key found in a table is one of its keys. *)
Lemma table_get_some {A} (t : list (string * A)) (k : string) (v : A) :
  table_get t k = Some v -> (k, v) ∈ t.
Proof.
  induction t as [|[k' v'] t IH]; simpl; [discriminate|].
  destruct (table_get t k) as [w|].
  - intros [= ->]. apply elem_of_cons. right. now apply IH.
  - destruct (String.eqb k k') eqn:E; [|discriminate].
    intros [= ->]. apply String.eqb_eq in E. subst. apply elem_of_cons. now left.
Qed.

Lemma startswith_length (s p : string) :
  startswith s p = true -> (String.length p <= String.length s)%nat.
Proof.
  revert s. induction p as [|a p IH]; intros s; [simpl; lia|].
  destruct s as [|b s]; [discriminate|]. simpl.
  intros H. apply andb_true_iff in H as [_ H]. apply IH in H. lia.
Qed.

Lemma length_append (s t : string) :
  String.length (s +:+ t) = (String.length s + String.length t)%nat.
Proof. pose proof (len_append s t). unfold len in *. lia. Qed.

Lemma str_take_length (n : nat) (s : string) :
  String.length (str_take n s) = Nat.min n (String.length s).
Proof.
  revert s. induction n as [|n IH]; intros [|c s]; simpl; try reflexivity.
  now rewrite IH.
Qed.

(** The two pieces of a text cut at an offset that is not negative. *)
Lemma slice_two (s : string) (p : Z) :
  0 <= p -> slice s None (Some p) +:+ slice s (Some p) None = s.
Proof.
  intros Hp. unfold slice.
  assert (Hn : 0 <= len s) by (unfold len; lia).
  rewrite !clamp_nonneg by lia.
  replace (Z.to_nat (Z.min p (len s) - 0)) with (Z.to_nat (Z.min p (len s)))
    by lia.
  change (str_drop (Z.to_nat 0) s) with s.
  rewrite (str_take_all (Z.to_nat (len s - Z.min p (len s)))).
  - apply str_take_drop.
  - rewrite str_drop_length. unfold len. lia.
Qed.

Lemma len_slice_prefix (s : string) (p : Z) :
  0 <= p <= len s -> len (slice s None (Some p)) = p.
Proof.
  intros Hp. unfold slice. rewrite clamp_nonneg by lia.
  change (str_drop (Z.to_nat 0) s) with s.
  unfold len in *. rewrite str_take_length. lia.
Qed.

Lemma len_slice_suffix (s : string) (p : Z) :
  0 <= p <= len s -> len (slice s (Some p) None) = len s - p.
Proof.
  intros Hp. unfold slice. rewrite clamp_nonneg by lia.
  unfold len in *. rewrite str_take_length, str_drop_length. lia.
Qed.

Lemma slice_prefix_append (x y : string) :
  slice (x +:+ y) None (Some (len x)) = x.
Proof.
  unfold slice. rewrite len_append.
  assert (0 <= len x /\ 0 <= len y) by (unfold len; lia).
  rewrite clamp_nonneg by lia.
  change (str_drop (Z.to_nat 0) (x +:+ y)) with (x +:+ y).
  replace (Z.to_nat (Z.min (len x) (len x + len y) - 0)) with (String.length x)
    by (unfold len; lia).
  apply str_take_append.
Qed.

Lemma slice_suffix_append (x y : string) :
  slice (x +:+ y) (Some (len x)) None = y.
Proof.
  unfold slice. rewrite len_append.
  assert (0 <= len x /\ 0 <= len y) by (unfold len; lia).
  rewrite clamp_nonneg by lia.
  replace (Z.to_nat (Z.min (len x) (len x + len y))) with (String.length x)
    by (unfold len; lia).
  rewrite str_drop_append. apply str_take_all. unfold len. lia.
Qed.

Lemma slice_whole (s : string) :
  slice s None (Some (len s)) = s /\ slice s (Some (len s)) None = "".
Proof.
  pose proof (slice_prefix_append s "") as H1.
  pose proof (slice_suffix_append s "") as H2.
  rewrite append_empty_r in H1, H2. now split.
Qed.

Lemma index_from_absent (c : ascii) (x : string) (i : Z) :
  count_char c x = 0 -> index_from c x i = None.
Proof.
  revert i. induction x as [|d x IH]; intros i; simpl; [reflexivity|].
  pose proof (count_char_nonneg c x).
  destruct (Ascii.eqb c d); [lia|]. intros H0. apply IH. lia.
Qed.

Lemma index_from_first (c : ascii) (x y : string) (i : Z) :
  count_char c x = 0 -> index_from c (x +:+ String c y) i = Some (i + len x).
Proof.
  revert i. induction x as [|d x IH]; intros i.
  - intros _. change ("" +:+ String c y) with (String c y). simpl.
    rewrite Ascii.eqb_refl. f_equal. unfold len. simpl. lia.
  - rewrite append_cons. simpl.
    pose proof (count_char_nonneg c x).
    destruct (Ascii.eqb c d); [lia|]. intros H0.
    rewrite IH by lia. f_equal. unfold len. simpl String.length. lia.
Qed.

Lemma rindex_from_absent (c : ascii) (x : string) (i : Z) :
  count_char c x = 0 -> rindex_from c x i = None.
Proof.
  revert i. induction x as [|d x IH]; intros i; simpl; [reflexivity|].
  pose proof (count_char_nonneg c x).
  destruct (Ascii.eqb c d); [lia|]. intros H0. rewrite IH by lia. reflexivity.
Qed.

Lemma rindex_from_last (c : ascii) (x y : string) (i : Z) :
  count_char c y = 0 -> rindex_from c (x +:+ String c y) i = Some (i + len x).
Proof.
  intros Hy. revert i. induction x as [|d x IH]; intros i.
  - change ("" +:+ String c y) with (String c y). simpl.
    rewrite rindex_from_absent by exact Hy. rewrite Ascii.eqb_refl.
    f_equal. unfold len. simpl. lia.
  - rewrite append_cons. simpl. rewrite IH.
    f_equal. unfold len. simpl String.length. lia.
Qed.

Lemma count_char_append (c : ascii) (x y : string) :
  count_char c (x +:+ y) = count_char c x + count_char c y.
Proof.
  induction x as [|d x IH]; [reflexivity|].
  rewrite append_cons. simpl. rewrite IH. lia.
Qed.

(** [s.find(c, i)] and [s.rfind(c, 0, h)] for offsets inside [s]. *)
Lemma find_from (s : string) (c : ascii) (i : nat) :
  (i <= String.length s)%nat ->
  find s c (Some (Z.of_nat i)) None
  = default (-1) (index_from c (str_drop i s) (Z.of_nat i)).
Proof.
  intros Hi. unfold find, slice.
  assert (0 <= len s) by (unfold len; lia).
  rewrite clamp_nonneg by lia.
  replace (Z.min (Z.of_nat i) (len s)) with (Z.of_nat i) by (unfold len; lia).
  rewrite Nat2Z.id. rewrite str_take_all; [reflexivity|].
  rewrite str_drop_length. unfold len. lia.
Qed.

Lemma rfind_upto (s : string) (c : ascii) (h : nat) :
  (h <= String.length s)%nat ->
  rfind s c (Some 0) (Some (Z.of_nat h))
  = default (-1) (rindex_from c (str_take h s) 0).
Proof.
  intros Hh. unfold rfind, slice.
  assert (0 <= len s) by (unfold len; lia).
  rewrite !clamp_nonneg by lia.
  replace (Z.min 0 (len s)) with 0 by lia.
  replace (Z.min (Z.of_nat h) (len s)) with (Z.of_nat h) by (unfold len; lia).
  rewrite Z.sub_0_r, Nat2Z.id. reflexivity.
Qed.

Lemma str_drop_app (x y : string) (k : nat) :
  str_drop (String.length x + k) (x +:+ y) = str_drop k y.
Proof.
  induction x as [|d x IH]; [reflexivity|].
  rewrite append_cons. simpl. exact IH.
Qed.

Lemma str_take_app (x y : string) (k : nat) :
  str_take (String.length x + k) (x +:+ y) = x +:+ str_take k y.
Proof.
  induction x as [|d x IH]; [reflexivity|].
  rewrite !append_cons. simpl. now rewrite IH.
Qed.

Lemma str_drop_within (x y : string) (k : nat) :
  (k <= String.length x)%nat ->
  str_drop k (x +:+ y) = str_drop k x +:+ y.
Proof.
  revert x. induction k as [|k IH]; intros x Hk.
  - now destruct x.
  - destruct x as [|d x]; simpl in Hk; [lia|].
    rewrite append_cons. simpl. apply IH. lia.
Qed.

Lemma str_take_within (x y : string) (k : nat) :
  (k <= String.length x)%nat -> str_take k (x +:+ y) = str_take k x.
Proof.
  revert x. induction k as [|k IH]; intros x Hk.
  - now destruct x.
  - destruct x as [|d x]; simpl in Hk; [lia|].
    rewrite append_cons. simpl. rewrite IH by lia. reflexivity.
Qed.

Lemma count_char_zero_take (c : ascii) (k : nat) (s : string) :
  count_char c s = 0 -> count_char c (str_take k s) = 0.
Proof.
  intros H. pose proof (count_char_take c k s).
  pose proof (count_char_nonneg c (str_take k s)). lia.
Qed.

Lemma count_char_zero_drop (c : ascii) (k : nat) (s : string) :
  count_char c s = 0 -> count_char c (str_drop k s) = 0.
Proof.
  intros H. pose proof (count_char_drop c k s).
  pose proof (count_char_nonneg c (str_drop k s)). lia.
Qed.

Lemma str_forall_append (p : ascii -> bool) (s t : string) :
  str_forall p (s +:+ t) = str_forall p s && str_forall p t.
Proof.
  induction s as [|c s IH]; [reflexivity|].
  rewrite append_cons. simpl. rewrite IH. now rewrite andb_assoc.
Qed.

Lemma int_digits_decimal (s : string) :
  str_forall isdecimal_char s = true ->
  forall acc b, s <> "" \/ b = true -> exists n, int_digits s acc b = Some n.
Proof.
  induction s as [|c s IH]; simpl; intros Hs acc b Hb.
  - destruct Hb as [Hb| ->]; [contradiction | eauto].
  - apply andb_true_iff in Hs as [Hc Hs]. rewrite Hc.
    apply IH; [exact Hs | now right].
Qed.

Lemma count_digits_decimal (s : string) :
  str_forall isdecimal_char s = true -> count_digits s = len s.
Proof.
  induction s as [|c s IH]; [reflexivity|]. simpl.
  intros H. apply andb_true_iff in H as [-> H]. rewrite (IH H).
  unfold len. simpl String.length. lia.
Qed.

(** [int] reads every string of decimal digits that is not empty and has no
    more digits than the limit. *)
Lemma int_decimal (s : string) :
  s <> "" -> str_forall isdecimal_char s = true ->
  len s <= int_max_str_digits -> exists n, int s = Ok n.
Proof.
  intros Hne Hs Hlen. unfold int.
  assert (Hlim : (int_max_str_digits <? count_digits s) = false)
    by (rewrite (count_digits_decimal s Hs); now apply Z.ltb_ge).
  clear Hlen.
  destruct s as [|c s]; [contradiction|].
  pose proof Hs as Hs'. simpl in Hs'. apply andb_true_iff in Hs' as [Hc _].
  assert (Hb : int_blank c = false).
  { unfold isdecimal_char, int_blank, between in *.
    apply andb_true_iff in Hc as [H1 H2]. apply Z.leb_le in H1, H2.
    repeat (apply orb_false_iff; split);
      try (apply andb_false_iff; (left; apply Z.leb_gt; lia) || (right; apply Z.leb_gt; lia));
      apply Z.eqb_neq; lia. }
  simpl drop_while. rewrite Hb.
  destruct (int_digits_decimal (String c s) Hs 0 false) as [n Hn]; [now left|].
  revert Hn Hlim. clear -Hc. unfold isdecimal_char, between, ord in Hc.
  destruct c as [[] [] [] [] [] [] [] []]; intros Hn Hlim; cbv beta iota zeta;
    first [rewrite Hn, Hlim; eauto | vm_compute in Hc; discriminate].
Qed.

Lemma table_values {A} (P : A -> bool) (t : list (string * A)) :
  forallb (fun kv => P kv.2) t = true ->
  forall k v, table_get t k = Some v -> P v = true.
Proof.
  intros Hall k v. induction t as [|[k' v'] t IH]; simpl; [discriminate|].
  simpl in Hall. apply andb_true_iff in Hall as [Hv Hall].
  destruct (table_get t k) as [w|].
  - intros [= ->]. now apply IH.
  - destruct (String.eqb k k'); [|discriminate]. now intros [= <-].
Qed.

Lemma str_in_char (c : ascii) (cs : string) :
  str_in (String c "") cs = existsb (Ascii.eqb c) (list_ascii_of_string cs).
Proof.
  induction cs as [|b cs IH]; [reflexivity|].
  simpl. rewrite IH. f_equal.
  destruct cs; now rewrite andb_true_r.
Qed.

Lemma startswith_same_length (s p : string) :
  startswith s p = true -> String.length s = String.length p -> s = p.
Proof.
  revert s. induction p as [|a p IH]; intros [|b s]; simpl; try discriminate;
    try reflexivity.
  intros H Hl. apply andb_true_iff in H as [Hab H].
  apply Ascii.eqb_eq in Hab. subst. f_equal. apply IH; [exact H | lia].
Qed.

End PyFacts.

(** ** The text-object finder, the selections and the surrounds *)

Module HelixSpec.
Import Py Helix.

(** C7. On the text "(hello)" with the cursor at offset 3 and the object
    "(", [find_object] returns the range (1, 6) for the inner object and
    (0, 7) for the object with its delimiters; on the unbalanced text
    "(hello" it returns [None]. *)
Theorem find_object_parentheses :
  find_object new_finder "(hello)" 3 "(" true = Ok (Some (1, 6))
  /\ find_object new_finder "(hello)" 3 "(" false = Ok (Some (0, 7))
  /\ find_object new_finder "(hello" 3 "(" true = Ok None.
Proof. repeat split; vm_compute; reflexivity. Qed.

(** The span (1, 6) of "(hello)" is the word between the parentheses. *)
Lemma find_object_parentheses_span :
  slice "(hello)" (Some 1) (Some 6) = "hello".
Proof. reflexivity. Qed.

(** *** The primary selection *)

Lemma primaries_app (l1 l2 : list Selection) :
  primaries (l1 ++ l2) = (primaries l1 + primaries l2)%nat.
Proof. unfold primaries. now rewrite List.filter_app, length_app. Qed.

Lemma primaries_cons (x : Selection) (l : list Selection) :
  primaries (x :: l) = ((if primary x then 1 else 0) + primaries l)%nat.
Proof. unfold primaries. simpl. now destruct (primary x). Qed.

Lemma primaries_nil : primaries [] = 0%nat.
Proof. reflexivity. Qed.

Lemma primaries_map (f : Selection -> Selection) (l : list Selection) :
  (forall x, primary (f x) = primary x) ->
  primaries (map f l) = primaries l.
Proof.
  intros Hf. induction l as [|x l IH]; [reflexivity|].
  simpl map. rewrite !primaries_cons, Hf, IH. reflexivity.
Qed.

Lemma primaries_unset (l : list Selection) :
  primaries (map (set_primary false) l) = 0%nat.
Proof.
  induction l as [|x l IH]; [reflexivity|].
  simpl map. rewrite primaries_cons, IH. reflexivity.
Qed.

Lemma primaries_delete (l : list Selection) (i : nat) (x : Selection) :
  l !! i = Some x ->
  primaries l = ((if primary x then 1 else 0) + primaries (delete i l))%nat.
Proof.
  revert i. induction l as [|y l IH]; intros [|i] H; simpl in H;
    try discriminate.
  - injection H as ->. simpl delete. apply primaries_cons.
  - simpl delete. rewrite !primaries_cons, (IH i H). lia.
Qed.

Lemma primaries_insert_sorted (key : Selection -> Z) (reverse : bool)
    (x : Selection) (l : list Selection) :
  primaries (insert_sorted key reverse x l) = primaries (x :: l).
Proof.
  induction l as [|y l IH]; [reflexivity|]. simpl.
  destruct (if reverse then key x <=? key y else key y <=? key x);
    [|reflexivity].
  rewrite !primaries_cons in *. rewrite IH. lia.
Qed.

Lemma primaries_sorted (key : Selection -> Z) (reverse : bool)
    (l : list Selection) :
  primaries (sorted key reverse l) = primaries l.
Proof.
  unfold sorted.
  assert (H : forall acc,
    primaries (foldl (fun acc x => insert_sorted key reverse x acc) acc l)
    = (primaries acc + primaries l)%nat).
  { induction l as [|x l IH]; intros acc; simpl; [rewrite primaries_nil; lia|].
    rewrite IH, primaries_insert_sorted, !primaries_cons. lia. }
  rewrite H. reflexivity.
Qed.

Lemma existsb_primary (l : list Selection) :
  existsb primary l = negb (primaries l =? 0)%nat.
Proof.
  induction l as [|x l IH]; [reflexivity|].
  simpl existsb. rewrite primaries_cons, IH. now destruct (primary x).
Qed.

(** Merging keeps the number of primaries when there is at most one. *)
Lemma primaries_merge_loop (rest done : list Selection) (last : Selection) :
  (primaries done + primaries [last] + primaries rest <= 1)%nat ->
  primaries (merge_loop done last rest)
  = (primaries done + primaries [last] + primaries rest)%nat.
Proof.
  revert done last. induction rest as [|sel rest IH]; intros done last H; simpl.
  - rewrite primaries_app, primaries_nil. lia.
  - rewrite !primaries_cons, primaries_nil in H.
    destruct (start sel <=? end_ last).
    + rewrite IH; rewrite !primaries_cons, !primaries_nil; simpl primary;
        destruct (primary last), (primary sel); simpl in *; lia.
    + rewrite IH; rewrite ?primaries_app, !primaries_cons, !primaries_nil;
        destruct (primary last), (primary sel); simpl in *; lia.
Qed.

Lemma one_if_any_snoc (l : list Selection) (a h : Z) :
  one_if_any l ->
  primaries (l ++ [mkSelection a h (Nat.eqb (length l) 0)]) = 1%nat.
Proof.
  intros [->|H]; [reflexivity|].
  rewrite primaries_app, H. destruct l; [discriminate H|]. reflexivity.
Qed.

Lemma one_if_any_regex_matches (sel : Selection) (ms : list Re.mtch)
    (acc : list Selection) :
  one_if_any acc -> one_if_any (regex_matches sel ms acc).
Proof.
  revert acc. induction ms as [|m ms IH]; intros acc H; simpl; [exact H|].
  apply IH. right. now apply one_if_any_snoc.
Qed.

Lemma one_if_any_regex_selections (content : string) (pattern : Re.regex)
    (sels acc : list Selection) :
  one_if_any acc -> one_if_any (regex_selections content pattern sels acc).
Proof.
  revert acc. induction sels as [|sel sels IH]; intros acc H; simpl; [exact H|].
  now apply IH, one_if_any_regex_matches.
Qed.

Lemma one_if_any_object_selections (f : TextObjectFinder)
    (content obj_type : string) (inner : bool) (sels acc out : list Selection) :
  one_if_any acc ->
  object_selections f content obj_type inner sels acc = Ok out ->
  one_if_any out.
Proof.
  revert acc. induction sels as [|sel sels IH]; intros acc H; simpl.
  - intros E. injection E as <-. exact H.
  - destruct (find_object f content (head sel) obj_type inner)
      as [[[b0 b1]|]|e]; simpl; try discriminate.
    + apply IH. right. now apply one_if_any_snoc.
    + now apply IH.
Qed.

Lemma primaries_extend_each (content : string) (forward : bool)
    (todo done : list Selection) :
  primaries (snd (extend_each content forward done todo))
  = (primaries done + primaries todo)%nat.
Proof.
  revert done. induction todo as [|sel todo IH]; intros done; simpl.
  - rewrite primaries_nil. lia.
  - destruct (word_boundary content forward (head sel)).
    + rewrite IH, primaries_app, !primaries_cons, primaries_nil. simpl. lia.
    + simpl. rewrite primaries_app. reflexivity.
Qed.

(** What a call does to the number of primaries of a manager with at most
    one: it keeps the number, or leaves one primary, or leaves no selection. *)
Lemma primaries_after (c : call) (m : MultiCursorManager) :
  (primaries (selections m) <= 1)%nat ->
  primaries (selections (after c m)) = primaries (selections m)
  \/ primaries (selections (after c m)) = 1%nat
  \/ selections (after c m) = [].
Proof.
  intros Hle. destruct c; simpl after.
  - (* add_selection *)
    unfold add_selection. simpl selections. rewrite primaries_app.
    destruct primary0.
    + right; left. rewrite primaries_unset. reflexivity.
    + left. rewrite primaries_cons, primaries_nil. simpl. lia.
  - (* remove_selection *)
    unfold remove_selection.
    destruct ((0 <=? index) && (index <? Z.of_nat (length (selections m))));
      [|now left].
    destruct (selections m !! Z.to_nat index) as [removed|] eqn:E; [|now left].
    pose proof (primaries_delete _ _ _ E) as Hdel.
    destruct (primary removed).
    + destruct (delete (Z.to_nat index) (selections m)) as [|first rest'];
        [now right; right|].
      right; left. simpl selections. rewrite primaries_cons in *.
      simpl primary. destruct (primary first); lia.
    + left. simpl selections. lia.
  - (* clear_selections *) now right; left.
  - (* select_all *) now right; left.
  - (* split_selection_by_line *)
    unfold split_selection_by_line.
    destruct (map (set_primary false) _) as [|first rest] eqn:E; [now left|].
    right; left. simpl selections.
    pose proof (primaries_unset
      (split_lines (selections m) (split_char newline content) 0 0)) as H0.
    rewrite E, primaries_cons in H0.
    rewrite primaries_cons. simpl primary. destruct (primary first); lia.
  - (* split_selection_by_regex *)
    unfold split_selection_by_regex.
    pose proof (one_if_any_regex_selections content pattern (selections m) []
                  (or_introl eq_refl)) as [H|H].
    + rewrite H. now left.
    + destruct (regex_selections content pattern (selections m) []);
        [now left | now right; left].
  - (* extend_to_word_boundary *)
    left. unfold extend_to_word_boundary.
    pose proof (primaries_extend_each content forward (selections m) []) as H.
    destruct (extend_each content forward [] (selections m)) as [r sels].
    simpl in *. exact H.
  - (* select_text_object *)
    unfold select_text_object.
    destruct (object_selections (text_object_finder m) content obj_type inner
                (selections m) []) as [out|e] eqn:E; [|now left].
    pose proof (one_if_any_object_selections _ _ _ _ _ _ _
                  (or_introl eq_refl) E) as [->|H]; [now left|].
    destruct out; [now left | now right; left].
  - (* add_cursor_above *)
    left. unfold add_cursor_above.
    destruct (_ =? -1); [reflexivity|].
    unfold add_selection. simpl selections.
    rewrite primaries_app, primaries_cons, primaries_nil. simpl. lia.
  - (* add_cursor_below *)
    left. unfold add_cursor_below.
    destruct (_ =? -1); [reflexivity|].
    unfold add_selection. simpl selections.
    rewrite primaries_app, primaries_cons, primaries_nil. simpl. lia.
  - (* flip_selections *)
    left. unfold flip_selections. simpl selections.
    now apply primaries_map.
  - (* merge_consecutive_selections *)
    unfold merge_consecutive_selections.
    destruct (length (selections m) <? 2)%nat; [now left|].
    pose proof (primaries_sorted start false (selections m)) as Hs.
    destruct (sorted start false (selections m)) as [|first rest];
      [now left|].
    assert (Hm : primaries (merge_loop [] first rest) = primaries (selections m)).
    { rewrite primaries_merge_loop;
        rewrite primaries_nil, !primaries_cons, primaries_nil in *; lia. }
    rewrite existsb_primary, Hm.
    destruct (merge_loop [] first rest) as [|m0 merged'] eqn:E; [now left|].
    destruct (primaries (selections m) =? 0)%nat eqn:E0; simpl negb; cbv iota.
    + right; left. simpl selections. apply Nat.eqb_eq in E0.
      rewrite primaries_cons in Hm. rewrite primaries_cons. simpl primary.
      destruct (primary m0); lia.
    + left. simpl selections. exact Hm.
  - (* add_custom_object *) now left.
Qed.

Lemma run_snoc (calls : list call) (c : call) :
  run (calls ++ [c]) = after c (run calls).
Proof. unfold run. now rewrite foldl_app. Qed.

(** In every manager that a run of calls builds, at most one selection is
    primary. *)
Lemma at_most_one_primary (calls : list call) :
  (primaries (selections (run calls)) <= 1)%nat.
Proof.
  induction calls as [|c calls IH] using rev_ind; [vm_compute; lia|].
  rewrite run_snoc.
  destruct (primaries_after c _ IH) as [H|[H|H]]; rewrite H.
  - exact IH.
  - lia.
  - rewrite primaries_nil. lia.
Qed.

(** A call on a manager with exactly one primary leaves exactly one primary,
    or no selection at all. *)
Lemma one_primary_after (c : call) (m : MultiCursorManager) :
  primaries (selections m) = 1%nat ->
  selections (after c m) = [] \/ primaries (selections (after c m)) = 1%nat.
Proof.
  intros H. destruct (primaries_after c m) as [H'|[H'|H']]; [lia| | |].
  - right. congruence.
  - now right.
  - now left.
Qed.

(** C6, at its failing input. Removing the only selection of a new manager
    and adding a selection without the primary flag leaves a set that is not
    empty and has no primary selection. *)
Theorem add_after_remove_has_no_primary :
  selections (run [RemoveSelection 0; AddSelection 5 5 false])
    = [mkSelection 5 5 false]
  /\ primaries (selections (run [RemoveSelection 0; AddSelection 5 5 false]))
     = 0%nat.
Proof. split; reflexivity. Qed.

(** *** Transforming the selections *)

(** The identity transform at selections that start at an offset that is
    not negative leaves the text as it is at every turn of the loop. *)
Lemma apply_identity_loop (order : list (nat * Selection)) (content : string)
    (sels : list Selection) :
  (forall entry, entry ∈ order -> 0 <= start (snd entry)) ->
  fst (foldl (apply_step identity_transform) (content, sels) order) = content.
Proof.
  revert content sels. induction order as [|[i sel] order IH];
    intros content sels H; [reflexivity|].
  replace (foldl (apply_step identity_transform) (content, sels)
             ((i, sel) :: order))
    with (foldl (apply_step identity_transform)
            (apply_step identity_transform (content, sels) (i, sel)) order)
    by reflexivity.
  assert (E : exists sels',
    apply_step identity_transform (content, sels) (i, sel) = (content, sels')).
  { eexists. unfold apply_step, identity_transform.
    rewrite PyFacts.slice_three; [reflexivity | | unfold start, end_; lia].
    apply (H (i, sel)). now apply elem_of_cons; left. }
  destruct E as [sels' ->].
  apply IH. intros entry He. apply H. now apply elem_of_cons; right.
Qed.

(** C8, at its failing input. On a text whose first line is empty, a cursor
    added above the second line lands on offset -1, since [add_cursor_above]
    takes the end of the line above less one also when that line is empty;
    extended to the next word it is the selection from -1 to 1, and the
    identity transform then returns a text with two characters more. *)
Lemma identity_changes_text_at_negative_offset :
  selections (run [AddSelection 2 2 true; AddCursorAbove (nl +:+ "abc");
                   ExtendToWordBoundary (nl +:+ "abc") true])
    = [mkSelection 0 1 false; mkSelection 2 4 true; mkSelection (-1) 1 false]
  /\ fst (apply_to_selections (nl +:+ "abc") identity_transform
            (helix_of (run [AddSelection 2 2 true;
                            AddCursorAbove (nl +:+ "abc");
                            ExtendToWordBoundary (nl +:+ "abc") true])))
     = nl +:+ "ababc".
Proof. split; vm_compute; reflexivity. Qed.

(** The law of the identity transform where no offset is negative: for
    every text and every set of selections whose anchors and heads are not
    negative, [apply_to_selections] with the identity transform returns the
    text unchanged. *)
Theorem identity_keeps_text (content : string) (h : HelixFeatures) :
  (forall sel, sel ∈ selections (multi_cursor h) ->
     0 <= anchor sel /\ 0 <= head sel) ->
  fst (apply_to_selections content identity_transform h) = content.
Proof.
  intros H. unfold apply_to_selections.
  set (order := sorted _ true _).
  pose proof (apply_identity_loop order content (selections (multi_cursor h)))
    as Hloop.
  destruct (foldl (apply_step identity_transform)
              (content, selections (multi_cursor h)) order) as [content' sels'].
  simpl in *. apply Hloop. intros [i sel] He.
  apply PyFacts.sorted_elem in He.
  apply elem_of_lookup_imap in He as (j & x & Heq & Hx).
  injection Heq as -> ->.
  apply list_elem_of_lookup_2 in Hx. destruct (H x Hx).
  unfold start. simpl. lia.
Qed.

Lemma identity_keeps_text_witness :
  fst (apply_to_selections "abcdef" identity_transform
         (helix_of (run [SelectAll 3; AddSelection 5 4 false])))
  = "abcdef".
Proof.
  apply (identity_keeps_text "abcdef").
  intros sel Hsel. vm_compute in Hsel.
  repeat (apply elem_of_cons in Hsel as [->|Hsel]; [simpl; lia|]).
  now apply elem_of_nil in Hsel.
Defined.

(** A transform that changes the text is applied from the last selection to
    the first, and every selection gets its new head. *)
Lemma apply_to_selections_example :
  let wrap := fun t => "<" +:+ t +:+ ">" in
  let '(text, h) :=
    apply_to_selections "abcdef" wrap
      (helix_of (run [SelectAll 2; AddSelection 4 6 false])) in
  text = "<ab>cd<ef>"
  /\ selections (multi_cursor h)
     = [mkSelection 0 4 true; mkSelection 4 8 false].
Proof. vm_compute. split; reflexivity. Qed.

(** *** Surrounds *)



(** A character that names no text object, standard or custom, has no pair
    in any text, so both operations return any text as it is. *)
Lemma surround_unknown_char (sm : SurroundManager) (content : string)
    (selection : Selection) (surround_char new_char : string) :
  table_get TEXT_OBJECTS surround_char = None ->
  custom_objects (surround_finder sm) !! surround_char = None ->
  delete_surround sm content selection surround_char = Ok content
  /\ change_surround sm content selection surround_char new_char = Ok content.
Proof.
  intros Ht Hc. unfold delete_surround, change_surround, find_object.
  rewrite Ht, Hc. split; reflexivity.
Qed.

(** When the pair is found, the two delimiters go and the rest stays. *)
Lemma surround_found_example :
  delete_surround new_surround "a(bc)d" (mkSelection 3 3 true) "(" = Ok "abcd"
  /\ change_surround new_surround "a(bc)d" (mkSelection 3 3 true) "(" "["
     = Ok "a[bc]d".
Proof. split; vm_compute; reflexivity. Qed.

End HelixSpec.

(** ** More on the selections, the finder and the surrounds *)

Module HelixMore.
Import Py Helix.

(** *** Flipping *)

(** Flipping the selections twice gives the manager back, and one flip
    leaves the start, the end and the primary flag of every selection. *)
Theorem flip_selections_involutive (m : MultiCursorManager) :
  flip_selections (flip_selections m) = m
  /\ map start (selections (flip_selections m)) = map start (selections m)
  /\ map end_ (selections (flip_selections m)) = map end_ (selections m)
  /\ map primary (selections (flip_selections m)) = map primary (selections m).
Proof.
  destruct m as [sels f]. unfold flip_selections, set_selections. simpl.
  repeat split.
  - f_equal. rewrite <- list_fmap_compose.
    rewrite <- (list_fmap_id sels) at 2. apply list_fmap_ext.
    intros i [a h p] _. reflexivity.
  - rewrite <- list_fmap_compose. apply list_fmap_ext.
    intros i [a h p] _. unfold start. simpl. lia.
  - rewrite <- list_fmap_compose. apply list_fmap_ext.
    intros i [a h p] _. unfold end_. simpl. lia.
  - rewrite <- list_fmap_compose. apply list_fmap_ext.
    intros i [a h p] _. reflexivity.
Qed.

(** *** Merging *)

Lemma insert_sorted_by_start (x : Selection) (l : list Selection) :
  StronglySorted by_start l ->
  StronglySorted by_start (insert_sorted start false x l).
Proof.
  induction 1 as [|y l Hl IH Hy]; simpl.
  - repeat constructor.
  - destruct (start y <=? start x) eqn:E.
    + constructor; [exact IH|].
      apply Forall_forall. intros z Hz.
      apply PyFacts.insert_sorted_elem in Hz as [->|Hz].
      * unfold by_start. lia.
      * rewrite Forall_forall in Hy. now apply Hy.
    + constructor; [now constructor|].
      constructor; [unfold by_start; lia|].
      eapply Forall_impl; [exact Hy|]. unfold by_start. intros z Hz. lia.
Qed.

Lemma sorted_by_start (l : list Selection) :
  StronglySorted by_start (sorted start false l).
Proof.
  unfold sorted.
  assert (H : forall acc, StronglySorted by_start acc ->
    StronglySorted by_start
      (foldl (fun acc x => insert_sorted start false x acc) acc l)).
  { induction l as [|x l IH]; intros acc Hacc; simpl; [exact Hacc|].
    apply IH. now apply insert_sorted_by_start. }
  apply H. constructor.
Qed.

Lemma separated_snoc (l : list Selection) (x y : Selection) :
  separated (l ++ [x]) -> end_ x < start y -> separated ((l ++ [x]) ++ [y]).
Proof.
  induction l as [|a l IH]; simpl; intros H Hxy; [tauto|].
  destruct l as [|b l]; simpl in *; [tauto|].
  destruct H as [Hab H]. split; [exact Hab|]. now apply IH.
Qed.

Lemma separated_last_start (l : list Selection) (x y : Selection) :
  separated (l ++ [x]) -> start y = start x -> separated (l ++ [y]).
Proof.
  induction l as [|a l IH]; simpl; intros H Hxy; [exact I|].
  destruct l as [|b l]; simpl in *; [rewrite Hxy; tauto|].
  destruct H as [Hab H]. split; [exact Hab|]. now apply IH.
Qed.

Lemma separated_merge_loop (rest done : list Selection) (last : Selection) :
  separated (done ++ [last]) ->
  StronglySorted by_start (last :: rest) ->
  separated (merge_loop done last rest).
Proof.
  revert done last. induction rest as [|sel rest IH]; intros done last Hd Hs;
    simpl; [exact Hd|].
  apply StronglySorted_inv in Hs as [Hrest Hlast].
  apply StronglySorted_inv in Hrest as [Hrest Hsel].
  apply Forall_cons in Hlast as [Hls Hlast].
  destruct (start sel <=? end_ last) eqn:E.
  - set (merged := mkSelection (start last) (Z.max (end_ last) (end_ sel))
                               (primary last || primary sel)).
    assert (Hstart : start merged = start last).
    { unfold merged, start, end_. simpl. lia. }
    apply IH.
    + now apply (separated_last_start done last merged).
    + constructor; [exact Hrest|].
      eapply Forall_impl; [exact Hlast|].
      unfold by_start. intros z Hz. lia.
  - apply IH.
    + apply separated_snoc; [exact Hd | lia].
    + now constructor.
Qed.

Lemma separated_set_primary (b : bool) (x : Selection) (l : list Selection) :
  separated (x :: l) -> separated (set_primary b x :: l).
Proof. destruct l; simpl; [tauto|]. unfold end_. simpl. tauto. Qed.

(** After [merge_consecutive_selections] the selections are in ascending
    order and each ends strictly before the next one starts: none overlaps or
    touches another. (A set of fewer than two is left as it is.) *)
Theorem merge_separates (m : MultiCursorManager) :
  separated (selections (merge_consecutive_selections m)).
Proof.
  unfold merge_consecutive_selections.
  destruct (length (selections m) <? 2)%nat eqn:E.
  - apply Nat.ltb_lt in E.
    destruct (selections m) as [|a [|b l]]; simpl in *; try exact I. lia.
  - pose proof (sorted_by_start (selections m)) as Hs.
    destruct (sorted start false (selections m)) as [|first rest] eqn:Es.
    + apply Nat.ltb_ge in E.
      destruct (selections m) as [|a l]; [simpl in E; lia|].
      exfalso. unfold sorted in Es. simpl in Es.
      assert (H : forall l acc, acc <> [] ->
        foldl (fun acc x => insert_sorted start false x acc) acc l <> []).
      { clear. induction l as [|x l IH]; intros acc Hacc; simpl; [exact Hacc|].
        apply IH. destruct acc as [|y acc]; simpl; [discriminate|].
        destruct (start y <=? start x); discriminate. }
      now apply (H l [a]).
    + pose proof (separated_merge_loop rest [] first I Hs) as Hm.
      destruct (merge_loop [] first rest) as [|m0 merged']; [exact I|].
      destruct (negb (existsb primary (m0 :: merged'))); simpl selections;
        [now apply separated_set_primary | exact Hm].
Qed.

(** Of the cursor of a new manager and three selections added out of
    order, the two that overlap are merged. *)
Lemma merge_example :
  selections (merge_consecutive_selections
    (run [AddSelection 7 9 false; AddSelection 3 1 false;
          AddSelection 2 5 false]))
  = [mkSelection 0 0 true; mkSelection 1 5 false; mkSelection 7 9 false].
Proof. vm_compute. reflexivity. Qed.

(** *** Objects that are in the table and have no finder *)

(** The angle brackets are in the table of text objects and among the
    surround pairs, but [find_object] has no branch for them: it returns
    [None] on every text, and deleting or changing a surround of angle
    brackets returns every text as it is. *)
Theorem angle_brackets_are_never_found (f : TextObjectFinder)
    (sm : SurroundManager) (content : string) (pos : Z) (inner : bool)
    (selection : Selection) (new_char : string) :
  find_object f content pos "<" inner = Ok None
  /\ find_object f content pos ">" inner = Ok None
  /\ delete_surround sm content selection "<" = Ok content
  /\ delete_surround sm content selection ">" = Ok content
  /\ change_surround sm content selection "<" new_char = Ok content
  /\ change_surround sm content selection ">" new_char = Ok content.
Proof. repeat split; reflexivity. Qed.

(** *** Bracket objects *)

Lemma balanced_backward_found (content o c : string) (pos : Z) (n : nat)
    (depth i : Z) :
  balanced_backward content o c pos n depth = Ok i -> i <> -1 ->
  0 <= i < Z.of_nat n /\ getitem content i = Ok o.
Proof.
  revert depth. induction n as [|n IH]; intros depth; simpl.
  - intros [= <-] H. contradiction.
  - destruct (getitem content (Z.of_nat n)) as [ch|e] eqn:G; simpl;
      [|discriminate].
    destruct (String.eqb ch c && negb (Z.of_nat n =? pos)).
    + intros H Hi. destruct (IH _ H Hi). split; [lia | assumption].
    + destruct (String.eqb ch o) eqn:Eo.
      * destruct (depth =? 0).
        -- intros [= <-] _. apply String.eqb_eq in Eo. subst ch.
           split; [lia | exact G].
        -- intros H Hi. destruct (IH _ H Hi). split; [lia | assumption].
      * intros H Hi. destruct (IH _ H Hi). split; [lia | assumption].
Qed.

Lemma balanced_forward_found (content o c : string) (n : nat)
    (i depth e : Z) :
  balanced_forward content o c i n depth = Ok e -> e <> -1 ->
  i <= e < i + Z.of_nat n /\ getitem content e = Ok c /\ c <> o.
Proof.
  revert i depth. induction n as [|n IH]; intros i depth; simpl.
  - intros [= <-] H. contradiction.
  - destruct (getitem content i) as [ch|x] eqn:G; simpl; [|discriminate].
    destruct (String.eqb ch o) eqn:Eo.
    + intros H He. destruct (IH _ _ H He) as (? & ? & ?).
      repeat split; try assumption; lia.
    + destruct (String.eqb ch c) eqn:Ec.
      * destruct (depth - 1 =? 0).
        -- intros [= <-] _. apply String.eqb_eq in Ec. subst ch.
           repeat split; [lia | lia | exact G |].
           intros ->. rewrite String.eqb_refl in Eo. discriminate.
        -- intros H He. destruct (IH _ _ H He) as (? & ? & ?).
           repeat split; try assumption; lia.
      * intros H He. destruct (IH _ _ H He) as (? & ? & ?).
        repeat split; try assumption; lia.
Qed.

(** What a bracket found by [_find_balanced_pair] looks like, in terms of
    the opening and closing characters that the function works with. *)
Lemma balanced_pair_bounds (content : string) (pos : Z) (pair_char : string)
    (inner : bool) (r : Z * Z) (o c : string) :
  o = (if str_in pair_char open_chars then pair_char
       else default pair_char (table_get pairs pair_char)) ->
  c = default o (table_get pairs o) ->
  _find_balanced_pair content pos pair_char inner = Ok (Some r) ->
  exists a b,
    r = (if inner then (a + 1, b - 1) else (a, b))
    /\ 0 <= a <= pos /\ a + 2 <= b <= len content
    /\ slice content (Some a) (Some (a + 1)) = o
    /\ slice content (Some (b - 1)) (Some b) = c
    /\ _find_balanced_pair content pos pair_char (negb inner)
       = Ok (Some (if inner then (a, b) else (a + 1, b - 1))).
Proof.
  intros Ho Hc H. unfold _find_balanced_pair in H |- *. cbv zeta in H |- *.
  rewrite <- Ho in H |- *. rewrite <- Hc in H |- *.
  destruct (balanced_backward content o c pos (Z.to_nat (pos + 1)) 0)
    as [a|x] eqn:Eb; simpl in H |- *; [|discriminate].
  destruct (a =? -1) eqn:Ea; [discriminate|].
  destruct (balanced_forward content o c a (Z.to_nat (len content - a)) 0)
    as [e|x] eqn:Ef; simpl in H |- *; [|discriminate].
  destruct (e =? -1) eqn:Ee; [discriminate|].
  apply Z.eqb_neq in Ea, Ee.
  destruct (balanced_backward_found _ _ _ _ _ _ _ Eb Ea) as [Ha Ga].
  destruct (balanced_forward_found _ _ _ _ _ _ _ Ef Ee) as (He & Ge & Hne).
  destruct (PyFacts.getitem_nonneg content a o) as [Hla Hsa];
    [lia | exact Ga |].
  destruct (PyFacts.getitem_nonneg content e c) as [Hle Hse];
    [lia | exact Ge |].
  assert (a <> e) by (intros ->; rewrite Ga in Ge; congruence).
  exists a, (e + 1).
  replace (e + 1 - 1) with e by lia.
  repeat split; try lia; try assumption.
  - destruct inner; now injection H as <-.
  - destruct inner; simpl; replace (e + 1 - 1) with e by lia; reflexivity.
Qed.

Lemma find_object_bracket (f : TextObjectFinder) (content : string) (pos : Z)
    (kind : string) (inner : bool) :
  kind ∈ brackets ->
  find_object f content pos kind inner
  = _find_balanced_pair content pos kind inner.
Proof.
  intros H. unfold brackets in H.
  repeat (apply elem_of_cons in H as [->|H]; [reflexivity|]).
  now apply elem_of_nil in H.
Qed.

Lemma bracket_pair (kind : string) :
  kind ∈ brackets ->
  exists o c,
    table_get PAIRS kind = Some (o, c)
    /\ (if str_in kind open_chars then kind
        else default kind (table_get pairs kind)) = o
    /\ default o (table_get pairs o) = c
    /\ len o = 1 /\ len c = 1.
Proof.
  intros H. unfold brackets in H.
  repeat (apply elem_of_cons in H as [->|H];
          [vm_compute; eexists _, _; repeat split; reflexivity|]).
  now apply elem_of_nil in H.
Qed.

(** A bracket object that [find_object] finds with its delimiters, as the
    range from [a] to [b]: it starts at or before the cursor, on the opening
    bracket of its kind, and ends just after a closing bracket; and the inner
    object at the same place is the same range without its first and last
    character. *)
Theorem bracket_object_shape (f : TextObjectFinder) (content : string)
    (pos : Z) (kind : string) (a b : Z) :
  kind ∈ brackets ->
  find_object f content pos kind false = Ok (Some (a, b)) ->
  exists o c,
    table_get PAIRS kind = Some (o, c)
    /\ 0 <= a <= pos /\ a + 2 <= b <= len content
    /\ slice content (Some a) (Some (a + 1)) = o
    /\ slice content (Some (b - 1)) (Some b) = c
    /\ find_object f content pos kind true = Ok (Some (a + 1, b - 1)).
Proof.
  intros Hk H. rewrite find_object_bracket in H |- * by exact Hk.
  destruct (bracket_pair kind Hk) as (o & c & Hp & Ho & Hc & _).
  destruct (balanced_pair_bounds _ _ _ _ _ o c (eq_sym Ho) (eq_sym Hc) H)
    as (a' & b' & [= -> ->] & Ha & Hb & Hso & Hsc & Hinner).
  exists o, c. repeat split; try lia; assumption.
Qed.

Lemma bracket_object_shape_witness :
  exists o c,
    table_get PAIRS "]" = Some (o, c)
    /\ 0 <= 4 <= 6 /\ 4 + 2 <= 7 <= len "f([a[b]])"
    /\ slice "f([a[b]])" (Some 4) (Some (4 + 1)) = o
    /\ slice "f([a[b]])" (Some (7 - 1)) (Some 7) = c
    /\ find_object new_finder "f([a[b]])" 6 "]" true = Ok (Some (4 + 1, 7 - 1)).
Proof.
  apply (bracket_object_shape new_finder "f([a[b]])" 6 "]" 4 7).
  - unfold brackets. do 3 right. left.
  - vm_compute. reflexivity.
Defined.

(** When the bracket around the head of the selection is found, the text is
    what comes before it, the opening bracket, the inside, the closing
    bracket and what comes after: [delete_surround] returns the text without
    the two brackets, and [change_surround] returns it with the new pair in
    their place, the inside and the rest unchanged. *)
Theorem surround_brackets (sm : SurroundManager) (content : string)
    (selection : Selection) (kind : string) (a b : Z) :
  kind ∈ brackets ->
  find_object (surround_finder sm) content (head selection) kind false
    = Ok (Some (a, b)) ->
  exists before inside after o c,
    table_get PAIRS kind = Some (o, c)
    /\ content = before +:+ o +:+ inside +:+ c +:+ after
    /\ delete_surround sm content selection kind
       = Ok (before +:+ inside +:+ after)
    /\ forall new_char,
       change_surround sm content selection kind new_char
       = Ok (before
             +:+ fst (default (new_char, new_char) (table_get PAIRS new_char))
             +:+ inside
             +:+ snd (default (new_char, new_char) (table_get PAIRS new_char))
             +:+ after).
Proof.
  intros Hk H. unfold delete_surround, change_surround. rewrite H.
  rewrite find_object_bracket in H by exact Hk.
  destruct (bracket_pair kind Hk) as (o & c & Hp & Ho & Hc & _).
  destruct (balanced_pair_bounds _ _ _ _ _ o c (eq_sym Ho) (eq_sym Hc) H)
    as (a' & b' & [= <- <-] & Ha & Hb & Hso & Hsc & _).
  exists (slice content None (Some a)),
         (slice content (Some (a + 1)) (Some (b - 1))),
         (slice content (Some b) None), o, c.
  split; [exact Hp|]. split; [|split].
  - symmetry. etransitivity; [|apply (PyFacts.slice_three content a b); lia].
    f_equal.
    rewrite <- (PyFacts.slice_cat content a (a + 1) b) by lia.
    rewrite <- (PyFacts.slice_cat content (a + 1) (b - 1) b) by lia.
    rewrite Hso, Hsc, !PyFacts.append_assoc. reflexivity.
  - reflexivity.
  - intros new_char.
    destruct (default (new_char, new_char) (table_get PAIRS new_char)).
    reflexivity.
Qed.

Lemma surround_brackets_witness :
  exists before inside after o c,
    table_get PAIRS "(" = Some (o, c)
    /\ "say (hi) now" = before +:+ o +:+ inside +:+ c +:+ after
    /\ delete_surround new_surround "say (hi) now" (mkSelection 5 6 true) "("
       = Ok (before +:+ inside +:+ after)
    /\ forall new_char,
       change_surround new_surround "say (hi) now" (mkSelection 5 6 true) "("
                       new_char
       = Ok (before
             +:+ fst (default (new_char, new_char) (table_get PAIRS new_char))
             +:+ inside
             +:+ snd (default (new_char, new_char) (table_get PAIRS new_char))
             +:+ after).
Proof.
  apply (surround_brackets new_surround "say (hi) now" (mkSelection 5 6 true)
                           "(" 4 8).
  - left.
  - vm_compute. reflexivity.
Defined.

(** *** Words *)

Lemma word_backward_spec (content : string) (big : bool) (fuel : nat)
    (start : Z) :
  0 <= start <= len content ->
  exists a,
    word_backward content big start fuel = Ok a
    /\ 0 <= a <= start
    /\ forall i, a <= i < start ->
       exists ch, getitem content i = Ok ch /\ word_chars big ch = true.
Proof.
  revert start. induction fuel as [|fuel IH]; intros start Hs; simpl.
  - exists start. split; [reflexivity|]. split; [lia|]. intros i Hi. lia.
  - destruct (0 <? start) eqn:E.
    + destruct (PyFacts.getitem_in_range content (start - 1)) as [ch G];
        [lia|].
      rewrite G. simpl. destruct (word_chars big ch) eqn:W.
      * destruct (IH (start - 1)) as (a & Ha & Hr & Hw); [lia|].
        exists a. split; [exact Ha|]. split; [lia|].
        intros i Hi. destruct (Z.eq_dec i (start - 1)) as [->|Hne].
        -- now exists ch.
        -- apply Hw. lia.
      * exists start. split; [reflexivity|]. split; [lia|]. intros i Hi. lia.
    + exists start. split; [reflexivity|]. split; [lia|]. intros i Hi. lia.
Qed.

Lemma word_forward_spec (content : string) (big : bool) (fuel : nat)
    (end_ : Z) :
  0 <= end_ <= len content ->
  exists b,
    word_forward content big end_ fuel = Ok b
    /\ end_ <= b <= len content
    /\ forall i, end_ <= i < b ->
       exists ch, getitem content i = Ok ch /\ word_chars big ch = true.
Proof.
  revert end_. induction fuel as [|fuel IH]; intros e He; simpl.
  - exists e. split; [reflexivity|]. split; [lia|]. intros i Hi. lia.
  - destruct (e <? len content) eqn:E.
    + destruct (PyFacts.getitem_in_range content e) as [ch G]; [lia|].
      rewrite G. simpl. destruct (word_chars big ch) eqn:W.
      * destruct (IH (e + 1)) as (b & Hb & Hr & Hw); [lia|].
        exists b. split; [exact Hb|]. split; [lia|].
        intros i Hi. destruct (Z.eq_dec i e) as [->|Hne].
        -- now exists ch.
        -- apply Hw. lia.
      * exists e. split; [reflexivity|]. split; [lia|]. intros i Hi. lia.
    + exists e. split; [reflexivity|]. split; [lia|]. intros i Hi. lia.
Qed.

Lemma find_object_word (f : TextObjectFinder) (content : string) (pos : Z)
    (big inner : bool) :
  find_object f content pos (if big then "W" else "w") inner
  = _find_word content pos big inner.
Proof. now destruct big. Qed.

(** With a cursor offset that is not negative, the word object ([w], or [W]
    when [big]) never raises. At or after the end of the text it is [None];
    a range it returns lies in the text, is not empty, reaches from at or
    before the cursor to at or after it, and holds only characters of the
    word class. *)
Theorem word_object_shape (f : TextObjectFinder) (content : string) (pos : Z)
    (big inner : bool) :
  0 <= pos ->
  exists r,
    find_object f content pos (if big then "W" else "w") inner = Ok r
    /\ (len content <= pos -> r = None)
    /\ forall a b, r = Some (a, b) ->
       0 <= a <= pos /\ pos <= b <= len content /\ a < b
       /\ forall i, a <= i < b ->
          exists ch, getitem content i = Ok ch /\ word_chars big ch = true.
Proof.
  intros Hpos. rewrite find_object_word. unfold _find_word.
  destruct (len content <=? pos) eqn:E.
  - exists None. split; [reflexivity|]. split; [reflexivity | discriminate].
  - destruct (word_backward_spec content big (Z.to_nat pos) pos)
      as (a & -> & Ha & Hwa); [lia|].
    destruct (word_forward_spec content big (Z.to_nat (len content - pos)) pos)
      as (b & -> & Hb & Hwb); [lia|].
    simpl. destruct (a =? b) eqn:Eab.
    + exists None. split; [reflexivity|]. split; [lia | discriminate].
    + exists (Some (a, b)). split; [reflexivity|]. split; [lia|].
      intros a' b' [= <- <-].
      split; [lia|]. split; [lia|]. split; [lia|].
      intros i Hi.
      destruct (Z.lt_ge_cases i pos); [apply Hwa | apply Hwb]; lia.
Qed.

Lemma word_object_shape_witness :
  exists r,
    find_object new_finder "say hello now" 6 "w" true = Ok r
    /\ (len "say hello now" <= 6 -> r = None)
    /\ forall a b, r = Some (a, b) ->
       0 <= a <= 6 /\ 6 <= b <= len "say hello now" /\ a < b
       /\ forall i, a <= i < b ->
          exists ch, getitem "say hello now" i = Ok ch
                     /\ word_chars false ch = true.
Proof.
  apply (word_object_shape new_finder "say hello now" 6 false true). lia.
Defined.

(** The word under the cursor of the text above. *)
Lemma word_object_example :
  find_object new_finder "say hello now" 6 "w" true = Ok (Some (4, 9))
  /\ slice "say hello now" (Some 4) (Some 9) = "hello".
Proof. split; vm_compute; reflexivity. Qed.

(** *** Paragraphs *)

Lemma paragraph_backward_spec (all_lines : list string) (fuel : nat)
    (start_line : Z) :
  0 <= start_line <= Z.of_nat (length all_lines) ->
  exists a,
    paragraph_backward all_lines start_line fuel = Ok a /\ 0 <= a <= start_line.
Proof.
  revert start_line. induction fuel as [|fuel IH]; intros n Hn; simpl.
  - exists n. split; [reflexivity | lia].
  - destruct (0 <? n) eqn:E; [|exists n; split; [reflexivity | lia]].
    destruct (all_lines !! Z.to_nat (n - 1)) as [l|] eqn:G.
    2:{ apply lookup_ge_None in G. lia. }
    pose proof (PyFacts.list_getitem_ok _ _ _ G) as Hg.
    rewrite Z2Nat.id in Hg by lia. rewrite Hg. simpl.
    destruct (truthy (strip l)); [|exists n; split; [reflexivity | lia]].
    destruct (IH (n - 1)) as (a & Ha & Hr); [lia|].
    exists a. split; [exact Ha | lia].
Qed.

Lemma paragraph_forward_spec (all_lines : list string) (fuel : nat)
    (end_line : Z) :
  0 <= end_line < Z.of_nat (length all_lines) ->
  exists b,
    paragraph_forward all_lines end_line fuel = Ok b
    /\ end_line <= b < Z.of_nat (length all_lines).
Proof.
  revert end_line. induction fuel as [|fuel IH]; intros n Hn; simpl.
  - exists n. split; [reflexivity | lia].
  - destruct (n <? Z.of_nat (length all_lines) - 1) eqn:E;
      [|exists n; split; [reflexivity | lia]].
    destruct (all_lines !! Z.to_nat (n + 1)) as [l|] eqn:G.
    2:{ apply lookup_ge_None in G. lia. }
    pose proof (PyFacts.list_getitem_ok _ _ _ G) as Hg.
    rewrite Z2Nat.id in Hg by lia. rewrite Hg. simpl.
    destruct (truthy (strip l)); [|exists n; split; [reflexivity | lia]].
    destruct (IH (n + 1)) as (b & Hb & Hr); [lia|].
    exists b. split; [exact Hb | lia].
Qed.

Lemma lines_extent_spec (all_lines : list string) (n : nat) :
  (n <= length all_lines)%nat ->
  lines_extent all_lines n
  = Ok (Z.of_nat (sum_list_with (fun l => S (String.length l))
                                (take n all_lines))).
Proof.
  induction n as [|n IH]; intros Hn; simpl lines_extent; [reflexivity|].
  rewrite IH by lia. simpl.
  destruct (all_lines !! n) as [l|] eqn:G.
  2:{ apply lookup_ge_None in G. lia. }
  rewrite (PyFacts.list_getitem_ok _ _ _ G). simpl.
  rewrite (take_S_r _ _ _ G), sum_list_with_app. simpl.
  f_equal. unfold len. lia.
Qed.

(** The paragraph object never raises and is never [None]: for every text
    and every cursor offset, negative ones included, [find_object] returns a
    range that lies in the text, from the start of a line to the end of a
    line at or after it. *)
Theorem paragraph_object_total (f : TextObjectFinder) (content : string)
    (pos : Z) (inner : bool) :
  exists a b,
    find_object f content pos "p" inner = Ok (Some (a, b))
    /\ 0 <= a <= b /\ b <= len content.
Proof.
  change (find_object f content pos "p" inner)
    with (_find_paragraph content pos inner).
  unfold _find_paragraph.
  set (lines := count_char newline (slice content None (Some pos))).
  set (all_lines := split_char newline content).
  pose proof (PyFacts.count_char_slice newline content None (Some pos)) as Hc.
  pose proof (PyFacts.split_char_length newline content) as Hl.
  fold lines in Hc. fold all_lines in Hl.
  destruct (paragraph_backward_spec all_lines (Z.to_nat lines) lines)
    as (sl & -> & Hsl); [lia|].
  destruct (paragraph_forward_spec all_lines (length all_lines) lines)
    as (el & -> & Hel); [lia|].
  simpl.
  rewrite (lines_extent_spec all_lines (Z.to_nat sl)) by lia. simpl.
  rewrite (lines_extent_spec all_lines (Z.to_nat (el + 1))) by lia. simpl.
  eexists _, _. split; [reflexivity|].
  assert (Hlt :
    (sum_list_with (fun l => S (String.length l)) (take (Z.to_nat sl) all_lines)
     + 1
     <= sum_list_with (fun l => S (String.length l))
          (take (Z.to_nat (el + 1)) all_lines))%nat)
    by (apply PyFacts.sum_take_lt; [intros; lia | lia]).
  pose proof (PyFacts.sum_take_le (fun l => S (String.length l))
                (Z.to_nat (el + 1)) all_lines) as Hle.
  pose proof (PyFacts.split_char_extent newline content) as Htot.
  fold all_lines in Htot. rewrite Htot in Hle.
  unfold len. lia.
Qed.

(** A paragraph between two blank lines. *)
Lemma paragraph_object_example :
  let text := "one" +:+ nl +:+ nl +:+ "two" +:+ nl +:+ "three" +:+ nl
              +:+ nl +:+ "four" in
  find_object new_finder text 7 "p" true = Ok (Some (5, 14))
  /\ slice text (Some 5) (Some 14) = "two" +:+ nl +:+ "three".
Proof. split; vm_compute; reflexivity. Qed.

(** *** Splitting by line *)

Lemma split_lines_all (content : string) (lines : list string) :
  forall (prefix : string) (i : nat),
  content = prefix +:+ join nl lines ->
  map (fun sel => slice content (Some (start sel)) (Some (end_ sel)))
      (split_lines [mkSelection 0 (len content) true] lines i (len prefix))
  = lines.
Proof.
  induction lines as [|l ls IH]; intros prefix i Hc; [reflexivity|].
  assert (Hn : 0 <= len prefix /\ 0 <= len l) by (unfold len; lia).
  assert (Hrest : exists rest,
    content = prefix +:+ l +:+ rest
    /\ (ls <> [] -> content = (prefix +:+ l +:+ nl) +:+ join nl ls)).
  { destruct ls as [|l' ls'].
    - exists "". simpl join in Hc. rewrite PyFacts.append_empty_r.
      split; [exact Hc | congruence].
    - exists (nl +:+ join nl (l' :: ls')). split; [exact Hc|].
      intros _. now rewrite !PyFacts.append_assoc. }
  destruct Hrest as (rest & Hcontent & Hnext).
  assert (Hlen : len prefix + len l <= len content).
  { rewrite Hcontent, !PyFacts.len_append. unfold len. lia. }
  simpl split_lines. unfold line_selections. simpl flat_map.
  assert (Hcond :
    (start (mkSelection 0 (len content) true) <=? len prefix + len l)
    && (len prefix <=? end_ (mkSelection 0 (len content) true)) = true).
  { unfold start, end_. simpl. apply andb_true_iff. lia. }
  rewrite Hcond. simpl app. rewrite List.map_cons. f_equal.
  - unfold start, end_. simpl.
    replace (Z.min (len prefix) (len prefix + len l)) with (len prefix) by lia.
    replace (Z.max (len prefix) (len prefix + len l))
      with (len prefix + len l) by lia.
    rewrite Hcontent at 1. apply PyFacts.slice_middle.
  - destruct ls as [|l' ls']; [reflexivity|].
    replace (len prefix + len l + 1) with (len (prefix +:+ l +:+ nl))
      by (rewrite !PyFacts.len_append; change (len nl) with 1; lia).
    apply IH. apply Hnext. discriminate.
Qed.

(** After [select_all] over the whole text, [split_selection_by_line] leaves
    one selection for every line: the contents of the selections are the
    lines of the text, in order, and the first selection alone is primary. *)
Theorem split_all_by_line (m : MultiCursorManager) (content : string) :
  let m' := split_selection_by_line content (select_all (len content) m) in
  get_selection_contents (helix_of m') content = split_char newline content
  /\ primaries (selections m') = 1%nat
  /\ exists first rest, selections m' = first :: rest /\ primary first = true.
Proof.
  intros m'. subst m'. unfold split_selection_by_line, get_selection_contents.
  simpl multi_cursor. simpl selections.
  pose proof (split_lines_all content (split_char newline content) "" 0) as H.
  change (len "") with 0 in H.
  rewrite PyFacts.join_split_char in H. specialize (H eq_refl).
  set (out := split_lines [mkSelection 0 (len content) true]
                          (split_char newline content) 0 0) in *.
  pose proof (HelixSpec.primaries_unset out) as Hp.
  assert (Hmap :
    map (fun sel => slice content (Some (start sel)) (Some (end_ sel)))
        (map (set_primary false) out)
    = split_char newline content).
  { rewrite <- H, <- list_fmap_compose. apply list_fmap_ext.
    intros i [a h p] _. reflexivity. }
  destruct (map (set_primary false) out) as [|first rest].
  - destruct (PyFacts.split_char_cons newline content) as (w & ws & Hw).
    rewrite Hw in Hmap. discriminate.
  - simpl selections. split; [|split].
    + rewrite <- Hmap. reflexivity.
    + rewrite HelixSpec.primaries_cons in *. simpl primary.
      destruct (primary first); lia.
    + eauto.
Qed.

(** A text of three lines, the second empty. *)
Lemma split_all_by_line_example :
  selections (split_selection_by_line ("ab" +:+ nl +:+ nl +:+ "cde")
                (select_all 7 new_manager))
  = [mkSelection 0 2 true; mkSelection 3 3 false; mkSelection 4 7 false].
Proof. vm_compute. reflexivity. Qed.

(** *** A cursor on the next and on the previous line *)

Lemma nl_append (z : string) : nl +:+ z = String newline z.
Proof. reflexivity. Qed.

(** The line break that ends the line of the cursor. *)
Lemma find_line_end (pre l1 rest : string) (k : nat) :
  count_char newline l1 = 0 -> (k <= String.length l1)%nat ->
  find (pre +:+ l1 +:+ nl +:+ rest) newline
       (Some (len pre + Z.of_nat k)) None
  = len pre + len l1.
Proof.
  intros Hl1 Hk.
  replace (len pre + Z.of_nat k) with (Z.of_nat (String.length pre + k))
    by (unfold len; lia).
  rewrite PyFacts.find_from
    by (rewrite !PyFacts.length_append; lia).
  rewrite PyFacts.str_drop_app, PyFacts.str_drop_within by exact Hk.
  rewrite nl_append, PyFacts.index_from_first by now apply PyFacts.count_char_zero_drop.
  simpl. unfold len. rewrite PyFacts.str_drop_length. lia.
Qed.

(** Where the line of the cursor starts. *)
Lemma rfind_line_start (pre l1 rest : string) (k : nat) :
  (pre = "" \/ exists t, pre = t +:+ nl) ->
  count_char newline l1 = 0 -> (k <= String.length l1)%nat ->
  let s := rfind (pre +:+ l1 +:+ rest) newline (Some 0)
                 (Some (len pre + Z.of_nat k)) in
  (if s =? -1 then 0 else s + 1) = len pre
  /\ (s = -1 <-> pre = "").
Proof.
  intros Hpre Hl1 Hk.
  replace (len pre + Z.of_nat k) with (Z.of_nat (String.length pre + k))
    by (unfold len; lia).
  cbv zeta. rewrite PyFacts.rfind_upto by (rewrite !PyFacts.length_append; lia).
  rewrite PyFacts.str_take_app, PyFacts.str_take_within by exact Hk.
  destruct Hpre as [->|[t ->]].
  - change ("" +:+ str_take k l1) with (str_take k l1).
    rewrite PyFacts.rindex_from_absent by now apply PyFacts.count_char_zero_take.
    simpl. split; [reflexivity | now split].
  - rewrite PyFacts.append_assoc, nl_append.
    rewrite PyFacts.rindex_from_last by now apply PyFacts.count_char_zero_take.
    simpl default. rewrite PyFacts.len_append. change (len nl) with 1.
    assert (0 <= len t) by (unfold len; lia).
    destruct (0 + len t =? -1) eqn:E; [lia|].
    split; [lia|]. split; [lia|]. now destruct t.
Qed.

(** With the primary cursor at column [col] of a line [l1] that is followed
    by a line [l2], [add_cursor_below] adds a cursor on [l2] at the same
    column, or on the last character of [l2] when [l2] is shorter; when
    [l2] is empty the cursor is put on the line break that ends [l1]. *)
Theorem add_cursor_below_column (pre l1 l2 post : string) (col : Z)
    (m : MultiCursorManager) :
  (pre = "" \/ exists t, pre = t +:+ nl) ->
  (post = "" \/ exists t, post = nl +:+ t) ->
  count_char newline l1 = 0 -> count_char newline l2 = 0 ->
  0 <= col <= len l1 ->
  head (primary_selection m) = len pre + col ->
  add_cursor_below (pre +:+ l1 +:+ nl +:+ l2 +:+ post) m
  = add_selection (len pre + len l1 + 1 + Z.min col (len l2 - 1))
                  (len pre + len l1 + 1 + Z.min col (len l2 - 1)) false m.
Proof.
  intros Hpre Hpost Hl1 Hl2 Hcol Hhead.
  unfold add_cursor_below. cbv zeta. rewrite Hhead.
  replace col with (Z.of_nat (Z.to_nat col)) by lia.
  assert (Hk : (Z.to_nat col <= String.length l1)%nat) by (unfold len in *; lia).
  rewrite (find_line_end pre l1 (l2 +:+ post) _ Hl1 Hk).
  destruct (rfind_line_start pre l1 (nl +:+ l2 +:+ post) _ Hpre Hl1 Hk)
    as [-> _].
  assert (Hlen : 0 <= len pre /\ 0 <= len l1 /\ 0 <= len l2)
    by (unfold len; lia).
  destruct (len pre + len l1 =? -1) eqn:E; [lia|].
  assert (He : (let e := find (pre +:+ l1 +:+ nl +:+ l2 +:+ post) newline
                              (Some (len pre + len l1 + 1)) None in
                if e =? -1 then len (pre +:+ l1 +:+ nl +:+ l2 +:+ post) else e)
               = len pre + len l1 + 1 + len l2).
  { cbv zeta.
    replace (pre +:+ l1 +:+ nl +:+ l2 +:+ post)
      with ((pre +:+ l1 +:+ nl) +:+ l2 +:+ post)
      by now rewrite !PyFacts.append_assoc.
    replace (len pre + len l1 + 1)
      with (Z.of_nat (String.length (pre +:+ l1 +:+ nl) + 0))
      by (rewrite !PyFacts.length_append; change (String.length nl) with 1%nat;
          unfold len; lia).
    rewrite PyFacts.find_from by (rewrite !PyFacts.length_append; lia).
    rewrite PyFacts.str_drop_app. change (str_drop 0 (l2 +:+ post)) with (l2 +:+ post).
    destruct Hpost as [->|[t ->]].
    - rewrite PyFacts.append_empty_r, PyFacts.index_from_absent by exact Hl2.
      simpl. unfold len. rewrite !PyFacts.length_append.
      change (String.length nl) with 1%nat. lia.
    - rewrite nl_append, PyFacts.index_from_first by exact Hl2. simpl default.
      unfold len. rewrite !PyFacts.length_append.
      change (String.length nl) with 1%nat.
      match goal with
      | |- context [?a =? -1] => destruct (Z.eqb_spec a (-1))
      end; [|reflexivity].
      lia. }
  cbv zeta in He. rewrite He. f_equal; lia.
Qed.

Lemma add_cursor_below_column_witness :
  add_cursor_below ("x" +:+ nl +:+ "hello" +:+ nl +:+ "hi" +:+ nl +:+ "z")
    (add_selection 6 6 true new_manager)
  = add_selection 9 9 false (add_selection 6 6 true new_manager).
Proof.
  apply (add_cursor_below_column ("x" +:+ nl) "hello" "hi" (nl +:+ "z") 4).
  - right. now exists "x".
  - right. now exists "z".
  - reflexivity.
  - reflexivity.
  - unfold len. simpl. lia.
  - reflexivity.
Defined.

(** With the primary cursor at column [col] of a line [l1] that follows a
    line [l0], [add_cursor_above] adds a cursor on [l0] at the same column,
    or on the last character of [l0] when [l0] is shorter; when [l0] is
    empty the cursor is put one character before the start of [l0], which
    is the offset -1 when [l0] is the first line. *)
Theorem add_cursor_above_column (pre l0 l1 post : string) (col : Z)
    (m : MultiCursorManager) :
  (pre = "" \/ exists t, pre = t +:+ nl) ->
  count_char newline l0 = 0 -> count_char newline l1 = 0 ->
  0 <= col <= len l1 ->
  head (primary_selection m) = len pre + len l0 + 1 + col ->
  add_cursor_above (pre +:+ l0 +:+ nl +:+ l1 +:+ post) m
  = add_selection (len pre + Z.min col (len l0 - 1))
                  (len pre + Z.min col (len l0 - 1)) false m.
Proof.
  intros Hpre Hl0 Hl1 Hcol Hhead.
  unfold add_cursor_above. cbv zeta. rewrite Hhead.
  assert (Hlen : 0 <= len pre /\ 0 <= len l0 /\ 0 <= len l1)
    by (unfold len; lia).
  assert (Hk : (Z.to_nat col <= String.length l1)%nat) by (unfold len in *; lia).
  (* the line break before the cursor *)
  assert (Hs : rfind (pre +:+ l0 +:+ nl +:+ l1 +:+ post) newline (Some 0)
                 (Some (len pre + len l0 + 1 + col))
               = len pre + len l0).
  { replace (pre +:+ l0 +:+ nl +:+ l1 +:+ post)
      with ((pre +:+ l0 +:+ nl) +:+ l1 +:+ post)
      by now rewrite !PyFacts.append_assoc.
    replace (len pre + len l0 + 1 + col)
      with (Z.of_nat (String.length (pre +:+ l0 +:+ nl) + Z.to_nat col))
      by (rewrite !PyFacts.length_append; change (String.length nl) with 1%nat;
          unfold len in *; lia).
    rewrite PyFacts.rfind_upto by (rewrite !PyFacts.length_append; lia).
    rewrite PyFacts.str_take_app, PyFacts.str_take_within by exact Hk.
    rewrite !PyFacts.append_assoc, nl_append.
    rewrite <- PyFacts.append_assoc.
    rewrite PyFacts.rindex_from_last by now apply PyFacts.count_char_zero_take.
    simpl default. rewrite PyFacts.len_append. lia. }
  rewrite Hs.
  destruct (Z.eqb_spec (len pre + len l0) (-1)) as [E|_]; [lia|].
  (* the start of the line above *)
  destruct (rfind_line_start pre l0 (nl +:+ l1 +:+ post) (String.length l0)
              Hpre Hl0 (le_n _)) as [Hstart _].
  cbv zeta in Hstart. change (Z.of_nat (String.length l0)) with (len l0) in Hstart.
  rewrite Hstart.
  (* the end of the line above *)
  pose proof (find_line_end pre l0 (l1 +:+ post) 0 Hl0 (Nat.le_0_l _)) as Hf.
  change (Z.of_nat 0) with 0 in Hf. rewrite Z.add_0_r in Hf. rewrite Hf.
  destruct (Z.eqb_spec (len pre + len l0) (-1)) as [E|_]; [lia|].
  f_equal; lia.
Qed.

Lemma add_cursor_above_column_witness :
  add_cursor_above ("x" +:+ nl +:+ "hi" +:+ nl +:+ "hello" +:+ nl +:+ "z")
    (add_selection 9 9 true new_manager)
  = add_selection 3 3 false (add_selection 9 9 true new_manager).
Proof.
  apply (add_cursor_above_column ("x" +:+ nl) "hi" "hello" (nl +:+ "z") 4).
  - right. now exists "x".
  - reflexivity.
  - reflexivity.
  - unfold len. simpl. lia.
  - reflexivity.
Defined.

(** On an empty first line this is the offset -1. *)
Lemma add_cursor_above_empty_first_line :
  add_cursor_above (nl +:+ "abc") (add_selection 2 2 true new_manager)
  = add_selection (-1) (-1) false (add_selection 2 2 true new_manager).
Proof. reflexivity. Qed.

(** *** The primary selection *)

Lemma one_primary_after_witness :
  selections (after (AddSelection 3 4 true) new_manager) = []
  \/ primaries (selections (after (AddSelection 3 4 true) new_manager)) = 1%nat.
Proof.
  apply (HelixSpec.one_primary_after (AddSelection 3 4 true) new_manager).
  reflexivity.
Defined.

End HelixMore.

(** ** The key resolver, the ex commands and the registers *)

Module VimSpec.
Import Py Vim.

(** The handlers read the modifiers through [ctrl] only. *)
Lemma handle_key_ctrl (key : string) (mods mods' : modifiers) (s : VimMode) :
  ctrl_of mods = ctrl_of mods' ->
  handle_key key mods s = handle_key key mods' s.
Proof.
  intros H. unfold handle_key.
  destruct (mode s);
    unfold _handle_insert_key, _handle_normal_key, _handle_visual_key,
           _handle_command_key, _handle_replace_key;
    rewrite ?H; reflexivity.
Qed.

Lemma handle_keys_ctrl (keys : list string) (mods mods' : modifiers)
    (s : VimMode) (last : option dict) :
  ctrl_of mods = ctrl_of mods' ->
  handle_keys keys mods s last = handle_keys keys mods' s last.
Proof.
  intros H. revert s last. induction keys as [|key keys IH]; intros s last.
  - reflexivity.
  - simpl. rewrite (handle_key_ctrl key mods mods' s H).
    destruct (handle_key key mods' s) as [[r|e] s']; [apply IH | reflexivity].
Qed.

Lemma ctrl_of_no_modifiers : ctrl_of no_modifiers = false.
Proof. reflexivity. Qed.

(** The claim C1 fails as it is stated: after the keys 3, d, d from the
    initial state the action does not have a null operator. *)
Lemma three_dd_operator_is_not_null :
  fst (handle_keys ["3"; "d"; "d"] no_modifiers init None)
  <> Ok (Some (action "delete_line" 3 VNone)).
Proof. vm_compute. discriminate. Qed.

(** C1, amended. In Normal mode with empty accumulators and no Ctrl, the keys
    3, d, d yield the action delete_line with count 3, and d, d alone yield it
    with count 1; in both the operator is "d", the operator that the first d
    left pending, whatever the rest of the state. *)
Theorem dd_delete_line (s : VimMode) (mods : modifiers) :
  mode s = NORMAL -> ctrl_of mods = false ->
  count_buffer s = "" -> operator_pending s = None -> key_sequence s = "" ->
  fst (handle_keys ["3"; "d"; "d"] mods s None)
    = Ok (Some (action "delete_line" 3 (VStr "d")))
  /\ fst (handle_keys ["d"; "d"] mods s None)
    = Ok (Some (action "delete_line" 1 (VStr "d"))).
Proof.
  intros Hmode Hctrl Hcount Hop Hseq.
  rewrite !(handle_keys_ctrl _ mods no_modifiers) by exact Hctrl.
  destruct s; simpl in Hmode, Hcount, Hop, Hseq; subst.
  split; vm_compute; reflexivity.
Qed.

Lemma dd_delete_line_witness :
  fst (handle_keys ["3"; "d"; "d"] no_modifiers init None)
    = Ok (Some (action "delete_line" 3 (VStr "d")))
  /\ fst (handle_keys ["d"; "d"] no_modifiers init None)
    = Ok (Some (action "delete_line" 1 (VStr "d"))).
Proof.
  apply (dd_delete_line init no_modifiers); reflexivity.
Defined.

(** The claim C5 fails as it is stated: from the initial state, where the
    count buffer is empty, the key 0 resolves to no action at all. *)
Lemma zero_alone_is_no_action :
  handle_key "0" no_modifiers init = (Ok None, init).
Proof. vm_compute. reflexivity. Qed.

(** C5, amended. In Normal mode without Ctrl: with a count under way the key
    0 is appended to the count buffer and [handle_key] returns [None]; with an
    empty count buffer 0 is no count digit but goes to the key sequence, where
    on its own it matches nothing, so [handle_key] returns [None] and leaves
    the three accumulators empty, and where after a pending c, d or y it
    resolves to the action <operator>_motion_line_start. *)
Theorem zero_key (s : VimMode) (mods : modifiers) :
  mode s = NORMAL -> ctrl_of mods = false ->
  (count_buffer s <> "" ->
     handle_key "0" mods s
     = (Ok None, set_count_buffer (count_buffer s +:+ "0") s))
  /\ (count_buffer s = "" -> key_sequence s = "" ->
     handle_key "0" mods s = (Ok None, set_operator_pending None s))
  /\ (forall op : string,
     count_buffer s = "" -> op ∈ ["c"; "d"; "y"] -> key_sequence s = op ->
     handle_key "0" mods s
     = (Ok (Some (action (op +:+ "_motion_line_start") 1
                         (operator_value (operator_pending s)))),
        set_key_sequence "" s)).
Proof.
  intros Hmode Hctrl.
  rewrite (handle_key_ctrl "0" mods no_modifiers s Hctrl).
  destruct s as [m pm regs cb op mb cs ks sa]; simpl in Hmode; subst m.
  simpl count_buffer; simpl key_sequence; simpl operator_pending.
  split; [|split].
  - intros Hcb. destruct cb as [|c cb]; [contradiction|]. reflexivity.
  - intros -> ->. reflexivity.
  - intros o -> Ho ->.
    repeat (apply elem_of_cons in Ho as [->|Ho]; [reflexivity|]).
    now apply elem_of_nil in Ho.
Qed.

Lemma zero_key_witness :
  handle_key "0" no_modifiers (set_count_buffer "3" init)
    = (Ok None, set_count_buffer "30" init)
  /\ handle_key "0" no_modifiers init = (Ok None, init)
  /\ handle_key "0" no_modifiers
       (set_key_sequence "d" (set_operator_pending (Some "d") init))
    = (Ok (Some (action "d_motion_line_start" 1 (VStr "d"))),
       set_operator_pending (Some "d") init).
Proof.
  split; [|split].
  - apply (proj1 (zero_key (set_count_buffer "3" init) no_modifiers
                           eq_refl eq_refl)).
    discriminate.
  - apply (proj1 (proj2 (zero_key init no_modifiers eq_refl eq_refl)));
      reflexivity.
  - apply (proj2 (proj2 (zero_key
             (set_key_sequence "d" (set_operator_pending (Some "d") init))
             no_modifiers eq_refl eq_refl)) "d");
      [reflexivity | | reflexivity].
    apply elem_of_cons; right; apply elem_of_cons; left; reflexivity.
Defined.

(** *** Ex commands *)

Lemma return_in_command_mode (mods : modifiers) (s : VimMode) :
  mode s = COMMAND -> handle_key "Return" mods s = _execute_command s.
Proof.
  intros H. unfold handle_key. rewrite H. unfold _handle_command_key.
  destruct (ctrl_of mods); reflexivity.
Qed.

Lemma mode_enter_normal_mode (s : VimMode) : mode (enter_normal_mode s) = NORMAL.
Proof.
  unfold enter_normal_mode, enter_mode.
  destruct (decide (NORMAL = mode s)) as [E|E]; simpl; congruence.
Qed.

(** A line under neither of its two names in the table has no handler. *)
Lemma dispatch_unrecognized (cmd w : string) :
  first_word cmd = Some w -> recognized cmd = false -> dispatch cmd = Ok None.
Proof.
  intros Hw Hrec. unfold recognized in Hrec. rewrite Hw in Hrec.
  apply orb_false_iff in Hrec as [Hfirst Hrange].
  unfold first_word in Hw. unfold dispatch.
  destruct (split_ws1 cmd) as [|w' parts]; simpl in Hw; [discriminate|].
  injection Hw as ->.
  pose proof (PyFacts.list_getitem_ok (w :: parts) 0 w eq_refl) as H0.
  change (Z.of_nat 0) with 0 in H0. rewrite H0. clear H0.
  unfold mbind, result_bind.
  assert (Hargs : exists a,
    (if (1 <? length (w :: parts))%nat then list_getitem (w :: parts) 1
     else Ok "") = Ok a).
  { destruct parts as [|a parts]; [now exists ""|].
    exists a. exact (PyFacts.list_getitem_ok (w :: a :: parts) 1 a eq_refl). }
  destruct Hargs as [a ->].
  unfold known, table_mem in Hfirst.
  destruct (table_get ex_commands w); [discriminate|].
  unfold range_name in Hrange.
  destruct (Re.rmatch cmd range_pattern) as [m|]; [|reflexivity].
  destruct (Re.group cmd m 3) as [n|]; simpl default.
  - unfold known, table_mem in Hrange.
    destruct (table_get ex_commands n); [discriminate | reflexivity].
  - reflexivity.
Qed.

(** The claim C3 fails as it is stated: the line foo names no ex command,
    and Return answers with the action command_executed, not with an error
    action. *)
Lemma unknown_command_is_not_an_error :
  recognized "foo" = false
  /\ press_return "foo" = Ok (Some (command_executed "foo"))
  /\ action_is (command_executed "foo") "error" = false.
Proof. repeat split; vm_compute; reflexivity. Qed.

(** C3, amended. In Command mode, when the trimmed command line is not empty
    and neither its first word nor the word found by the range pattern is a
    name of the command table, Return yields the action command_executed
    carrying the whole trimmed line, and leaves the engine in Normal mode. *)
Theorem unknown_command_executed (s : VimMode) (mods : modifiers) :
  mode s = COMMAND ->
  strip (buffer (command_state s)) <> "" ->
  recognized (strip (buffer (command_state s))) = false ->
  fst (handle_key "Return" mods s)
    = Ok (Some (command_executed (strip (buffer (command_state s)))))
  /\ mode (snd (handle_key "Return" mods s)) = NORMAL.
Proof.
  intros Hmode Hcmd Hrec.
  rewrite (return_in_command_mode mods s Hmode). unfold _execute_command.
  set (cmd := strip (buffer (command_state s))) in *.
  assert (Htruthy : truthy cmd = true) by (now destruct cmd).
  rewrite Htruthy. simpl negb. cbv iota.
  assert (Hword : exists w, first_word cmd = Some w).
  { destruct (PyFacts.strip_shape (buffer (command_state s)))
      as [E|(c & t & E & Hc)]; [contradiction|].
    destruct (PyFacts.split_ws1_cons c t Hc) as (w & rest & Hsplit).
    exists w. unfold first_word. subst cmd. now rewrite E, Hsplit. }
  destruct Hword as [w Hw].
  rewrite (dispatch_unrecognized cmd w Hw Hrec). simpl.
  split; [reflexivity | apply mode_enter_normal_mode].
Qed.

Lemma unknown_command_executed_witness :
  fst (handle_key "Return" no_modifiers (command_line "foo"))
    = Ok (Some (command_executed "foo"))
  /\ mode (snd (handle_key "Return" no_modifiers (command_line "foo"))) = NORMAL.
Proof.
  apply (unknown_command_executed (command_line "foo") no_modifiers);
    [reflexivity | vm_compute; discriminate | vm_compute; reflexivity].
Defined.

(** C4. Return on the line %s/foo/bar/g does not reach the substitute
    handler: the first word is the whole line and the range pattern does not
    match it, so the answer is the action command_executed. The line
    s/foo/bar/g reaches the handler with the s taken off and is refused. The
    handler itself, given the text s/foo/bar/g under the name %s, parses the
    pattern foo, the replacement bar and the flag g over the lines 1 to $. *)
Theorem percent_s_is_not_dispatched :
  press_return "%s/foo/bar/g" = Ok (Some (command_executed "%s/foo/bar/g"))
  /\ press_return "s/foo/bar/g"
     = Ok (Some [("action", VStr "error");
                 ("message", VStr "Invalid substitute syntax")])
  /\ _cmd_substitute_all "s/foo/bar/g" None None
     = Ok [("action", VStr "substitute"); ("pattern", VStr "foo");
           ("replacement", VStr "bar"); ("flags", VStr "g");
           ("start", VStr "1"); ("end", VStr "$")]
  /\ press_return "%s s/foo/bar/g"
     = Ok (Some [("action", VStr "substitute"); ("pattern", VStr "foo");
                 ("replacement", VStr "bar"); ("flags", VStr "g");
                 ("start", VStr "1"); ("end", VStr "$")]).
Proof. repeat split; vm_compute; reflexivity. Qed.

(** The delimiter of a substitution is the character after the s. *)
Lemma substitute_any_delimiter :
  _cmd_substitute "s#a/b#c#gi" (Some (Some "2")) (Some (Some "5"))
  = Ok [("action", VStr "substitute"); ("pattern", VStr "a/b");
        ("replacement", VStr "c"); ("flags", VStr "gi");
        ("start", VStr "2"); ("end", VStr "5")].
Proof. vm_compute. reflexivity. Qed.

(** The ex command 1,3d goes through the range pattern. *)
Lemma range_delete : 
  press_return "1,3d"
  = Ok (Some [("action", VStr "delete_lines"); ("start", VStr "1");
              ("end", VStr "3")]).
Proof. vm_compute. reflexivity. Qed.

(** *** Registers *)

Lemma registers_enter_mode (m : EditorMode) (s : VimMode) :
  registers (enter_mode m s) = registers s.
Proof. unfold enter_mode. now destruct (decide (m = mode s)). Qed.

Lemma registers_enter_normal_mode (s : VimMode) :
  registers (enter_normal_mode s) = registers s.
Proof. unfold enter_normal_mode. simpl. apply registers_enter_mode. Qed.

Lemma registers_execute_command (s : VimMode) :
  registers (snd (_execute_command s)) = registers s.
Proof.
  unfold _execute_command.
  destruct (negb (truthy (strip (buffer (command_state s)))));
    [apply registers_enter_normal_mode|].
  destruct (dispatch (strip (buffer (command_state s))));
    cbn [snd]; [now rewrite registers_enter_normal_mode | reflexivity].
Qed.

(** No key touches the registers. *)
Lemma registers_handle_key (key : string) (mods : modifiers) (s : VimMode) :
  registers (snd (handle_key key mods s)) = registers s.
Proof.
  unfold handle_key.
  destruct (mode s);
    unfold _handle_insert_key, _handle_normal_key, _handle_visual_key,
           _handle_command_key, _handle_replace_key, executed,
           with_command_state;
    repeat (case_match; simpl;
            rewrite ?registers_enter_normal_mode, ?registers_enter_mode,
                    ?registers_execute_command;
            try reflexivity).
Qed.

(** The unnamed register is never removed. *)
Lemma unnamed_register_present (s : VimMode) :
  reachable s -> is_Some (registers s !! "").
Proof.
  induction 1 as [|key mods s _ IH|m s _ IH|s _ IH|s _ IH|l b s _ IH|s _ IH
                  |s _ IH|name content linewise s _ IH].
  - vm_compute. eauto.
  - now rewrite registers_handle_key.
  - now rewrite registers_enter_mode.
  - unfold enter_insert_mode. now rewrite registers_enter_mode.
  - now rewrite registers_enter_normal_mode.
  - unfold enter_visual_mode.
    destruct b; [|destruct l]; now rewrite registers_enter_mode.
  - unfold enter_command_mode. now rewrite registers_enter_mode.
  - unfold enter_replace_mode. now rewrite registers_enter_mode.
  - unfold set_register. simpl.
    destruct (negb (name =? "")%string).
    + rewrite lookup_insert_eq. eauto.
    + destruct (registers s !! name) eqn:E; [|exact IH].
      destruct (decide (name = "")) as [->|Hne].
      * rewrite lookup_insert_eq. eauto.
      * now rewrite lookup_insert_ne.
Qed.

(** C9. In every state of the engine, a name that is no key of the register
    map reads as the unnamed register: [get_register] returns the register
    stored under the empty name, not [None]. *)
Theorem get_register_missing (s : VimMode) (name : string) :
  reachable s -> registers s !! name = None ->
  exists r, registers s !! "" = Some r /\ get_register name s = Some r.
Proof.
  intros Hs Hname. destruct (unnamed_register_present s Hs) as [r Hr].
  exists r. split; [exact Hr|]. unfold get_register. now rewrite Hname.
Qed.

Lemma get_register_missing_witness :
  exists r, registers init !! "" = Some r /\ get_register "A" init = Some r.
Proof.
  apply (get_register_missing init "A"); [apply reach_init | reflexivity].
Defined.

(** Writing a register that does not exist still overwrites the unnamed
    one, which is then what reading that name gives. *)
Lemma uppercase_register_reads_unnamed :
  get_register "A" (set_register "A" "text" true init)
  = Some (mkRegister "text" true).
Proof. vm_compute. reflexivity. Qed.

End VimSpec.

(** ** The boundary of the engine *)

Module EngineSpec.
Import Py.

(** C2, at its failing inputs. With the cursor at the end of the text, which
    is where it stands after the last character, [find_object] for a bracket
    indexes the text at its length and raises [IndexError]; [_find_word]
    guards this case and the bracket and quote finders do not. In Command
    mode Return on the line set, an option command without arguments, raises
    [IndexError] out of [handle_key], which leaves the engine in Command
    mode. *)
Theorem engine_raises :
  Helix.find_object Helix.new_finder "(hello)" 7 "(" true = Raise IndexError
  /\ Helix.find_object Helix.new_finder "(hello)" 7 "w" true = Ok None
  /\ Vim.handle_key "Return" Vim.no_modifiers (Vim.command_line "set")
     = (Raise IndexError,
        Vim.set_command_state
          (Vim.mkCommandState "set" 3 ["set"] (-1))
          (Vim.command_line "set"))
  /\ Vim.mode (Vim.command_line "set") = Vim.COMMAND.
Proof. repeat split; vm_compute; reflexivity. Qed.

(** Other ways out of the boundary: a quote looked for at the end of the
    text, a tag whose name is blank, and a count typed with the key of the
    superscript two, which [isdigit] takes for a digit and [int] refuses. *)
Lemma engine_raises_more :
  Helix.find_object Helix.new_finder "'a'" 3 "'" true = Raise IndexError
  /\ Helix.find_object Helix.new_finder "< >x" 3 "t" true = Raise IndexError
  /\ fst (Vim.handle_keys [String (ascii_of_nat 178) ""; "x"]
            Vim.no_modifiers Vim.init None)
     = Raise ValueError.
Proof. repeat split; vm_compute; reflexivity. Qed.

End EngineSpec.

(** ** More on keys, modes, the command line and the stores *)

Module VimMore.
Import Py Vim.

(** *** Escape *)

Lemma chars_length (s : string) : length (chars s) = String.length s.
Proof. induction s as [|c s IH]; simpl; [reflexivity | now rewrite IH]. Qed.

(** A sequence longer than every key of the tables and every known
    sequence resolves to nothing. *)
Lemma long_sequence_unknown (seq : string) :
  (6 <= String.length seq)%nat ->
  _lookup_action seq = None /\ _has_partial_match seq = false.
Proof.
  intros Hlen. split.
  - unfold _lookup_action.
    destruct (table_get single_char_map seq) as [a|] eqn:E1.
    { apply PyFacts.table_get_some in E1. exfalso. revert E1 Hlen.
      unfold single_char_map.
      repeat (rewrite elem_of_cons; intros [[= -> _]|E1]; [simpl; lia|];
              revert E1).
      intros E1. now apply elem_of_nil in E1. }
    destruct (table_get two_char_map seq) as [a|] eqn:E2.
    { apply PyFacts.table_get_some in E2. exfalso. revert E2 Hlen.
      unfold two_char_map.
      repeat (rewrite elem_of_cons; intros [[= -> _]|E2]; [simpl; lia|];
              revert E2).
      intros E2. now apply elem_of_nil in E2. }
    pose proof (chars_length seq) as Hc.
    destruct (chars seq) as [|s0 [|s1 [|s2 [|s3 l]]]]; simpl in Hc;
      try lia; reflexivity.
  - unfold _has_partial_match. apply not_true_iff_false. intros H.
    apply existsb_exists in H as (x & Hx & H).
    apply andb_true_iff in H as [H _]. apply PyFacts.startswith_length in H.
    revert Hx H. unfold all_sequences. simpl In.
    intros Hx. repeat (destruct Hx as [<-|Hx]; [simpl; lia|]). contradiction.
Qed.

(** Escape without Ctrl, in whatever mode and state, makes [handle_key]
    return without raising and leaves the engine in Normal mode with the
    count, the pending operator and the key sequence cleared. *)
Theorem escape_cancels (s : VimMode) (mods : modifiers) :
  ctrl_of mods = false ->
  (exists r, fst (handle_key "Escape" mods s) = Ok r)
  /\ mode (snd (handle_key "Escape" mods s)) = NORMAL
  /\ count_buffer (snd (handle_key "Escape" mods s)) = ""
  /\ operator_pending (snd (handle_key "Escape" mods s)) = None
  /\ key_sequence (snd (handle_key "Escape" mods s)) = "".
Proof.
  intros Hctrl. unfold handle_key.
  destruct (mode s) eqn:Hmode.
  - (* Normal *)
    unfold _handle_normal_key. rewrite Hctrl.
    change (isdigit "Escape") with false. simpl andb. cbv iota.
    destruct (long_sequence_unknown (key_sequence s +:+ "Escape")) as [Hl Hp].
    { rewrite PyFacts.length_append. simpl. lia. }
    simpl key_sequence. rewrite Hl, Hp.
    change (_is_operator "Escape") with false. cbv iota.
    simpl. rewrite Hmode. eauto 10.
  - (* Insert *)
    unfold _handle_insert_key. rewrite Hctrl. simpl.
    unfold enter_normal_mode, enter_mode. rewrite Hmode. simpl. eauto 10.
  - unfold _handle_visual_key. simpl.
    unfold enter_normal_mode, enter_mode. rewrite Hmode. simpl. eauto 10.
  - unfold _handle_visual_key. simpl.
    unfold enter_normal_mode, enter_mode. rewrite Hmode. simpl. eauto 10.
  - unfold _handle_visual_key. simpl.
    unfold enter_normal_mode, enter_mode. rewrite Hmode. simpl. eauto 10.
  - unfold _handle_command_key. simpl.
    unfold enter_normal_mode, enter_mode. rewrite Hmode. simpl. eauto 10.
  - unfold _handle_replace_key. simpl.
    unfold enter_normal_mode, enter_mode. rewrite Hmode. simpl. eauto 10.
Qed.

Lemma escape_cancels_witness :
  (exists r,
     fst (handle_key "Escape" no_modifiers
            (snd (handle_keys ["2"; "d"; "g"] no_modifiers init None))) = Ok r)
  /\ mode (snd (handle_key "Escape" no_modifiers
            (snd (handle_keys ["2"; "d"; "g"] no_modifiers init None))))
     = NORMAL
  /\ count_buffer (snd (handle_key "Escape" no_modifiers
            (snd (handle_keys ["2"; "d"; "g"] no_modifiers init None)))) = ""
  /\ operator_pending (snd (handle_key "Escape" no_modifiers
            (snd (handle_keys ["2"; "d"; "g"] no_modifiers init None)))) = None
  /\ key_sequence (snd (handle_key "Escape" no_modifiers
            (snd (handle_keys ["2"; "d"; "g"] no_modifiers init None)))) = "".
Proof.
  apply (escape_cancels
           (snd (handle_keys ["2"; "d"; "g"] no_modifiers init None))
           no_modifiers).
  reflexivity.
Defined.

(** *** Registers *)

(** In every state of the engine, what [set_register] writes under a name is
    what [get_register] then reads under that name, whether the name is one
    of the installed registers or not; a write under a name other than the
    empty one also lands in the unnamed register; and the registers under
    other names are left as they were. *)
Theorem set_then_get_register (s : VimMode) (name content : string)
    (linewise : bool) :
  reachable s ->
  get_register name (set_register name content linewise s)
    = Some (mkRegister content linewise)
  /\ (name <> "" ->
      registers (set_register name content linewise s) !! ""
      = Some (mkRegister content linewise))
  /\ forall other, other <> name -> other <> "" ->
       registers (set_register name content linewise s) !! other
       = registers s !! other.
Proof.
  intros Hs. pose proof (VimSpec.unnamed_register_present s Hs) as [r0 Hr0].
  unfold get_register, set_register. simpl registers.
  destruct (String.eqb name "") eqn:E; simpl negb; cbv iota.
  - apply String.eqb_eq in E. subst name. rewrite Hr0.
    split; [now rewrite lookup_insert_eq|]. split; [congruence|].
    intros other Ho _. now rewrite lookup_insert_ne.
  - apply String.eqb_neq in E. split; [|split].
    + rewrite lookup_insert_ne by congruence.
      destruct (registers s !! name) eqn:En.
      * now rewrite lookup_insert_eq.
      * rewrite En. now rewrite lookup_insert_eq.
    + intros _. now rewrite lookup_insert_eq.
    + intros other Ho Ho'. rewrite lookup_insert_ne by congruence.
      destruct (registers s !! name); [|reflexivity].
      now rewrite lookup_insert_ne.
Qed.

Lemma set_then_get_register_witness :
  get_register "Q" (set_register "Q" "text" true init)
    = Some (mkRegister "text" true)
  /\ ("Q" <> "" ->
      registers (set_register "Q" "text" true init) !! ""
      = Some (mkRegister "text" true))
  /\ forall other, other <> "Q" -> other <> "" ->
       registers (set_register "Q" "text" true init) !! other
       = registers init !! other.
Proof.
  apply (set_then_get_register init "Q" "text" true). apply reach_init.
Defined.

(** The register map never gains or loses a name: in every state of the
    engine its keys are the 37 names that [__init__] installs. *)
Theorem register_names_are_fixed (s : VimMode) :
  reachable s ->
  dom (registers s) = list_to_set register_names.
Proof.
  assert (Hinit : dom init_registers = list_to_set (C := gset string) register_names).
  { unfold init_registers.
    assert (H : forall (l : list string) (m : gmap string Register),
      dom (foldl (fun m n => <[n := mkRegister "" false]> m) m l)
      = dom m ∪ list_to_set l).
    { induction l as [|x l IH]; intros m; simpl.
      - now rewrite (right_id_L ∅ (∪)).
      - rewrite IH, dom_insert_L.
        rewrite (comm_L (∪) {[x]} (dom m)), <- (assoc_L (∪)). reflexivity. }
    rewrite H, dom_empty_L. apply (left_id_L ∅ (∪)). }
  induction 1 as [|key mods s _ IH|m s _ IH|s _ IH|s _ IH|l b s _ IH|s _ IH
                  |s _ IH|name content linewise s Hs IH].
  - exact Hinit.
  - now rewrite VimSpec.registers_handle_key.
  - now rewrite VimSpec.registers_enter_mode.
  - unfold enter_insert_mode. now rewrite VimSpec.registers_enter_mode.
  - now rewrite VimSpec.registers_enter_normal_mode.
  - unfold enter_visual_mode.
    destruct b; [|destruct l]; now rewrite VimSpec.registers_enter_mode.
  - unfold enter_command_mode. now rewrite VimSpec.registers_enter_mode.
  - unfold enter_replace_mode. now rewrite VimSpec.registers_enter_mode.
  - pose proof (VimSpec.unnamed_register_present s Hs) as Hu.
    apply elem_of_dom in Hu.
    unfold set_register. simpl registers.
    assert (Hd : dom (match registers s !! name with
                      | Some _ => <[name := mkRegister content linewise]> (registers s)
                      | None => registers s
                      end) = dom (registers s)).
    { destruct (registers s !! name) eqn:E; [|reflexivity].
      rewrite dom_insert_L.
      apply subseteq_union_1_L, singleton_subseteq_l, elem_of_dom. eauto. }
    destruct (negb (name =? "")%string).
    + rewrite dom_insert_L, Hd, IH. rewrite IH in Hu.
      apply subseteq_union_1_L, singleton_subseteq_l. exact Hu.
    + now rewrite Hd.
Qed.

Lemma register_names_are_fixed_witness :
  dom (registers (set_register "zz" "text" false init))
  = list_to_set register_names.
Proof.
  apply (register_names_are_fixed (set_register "zz" "text" false init)).
  apply reach_set_register, reach_init.
Defined.

(** *** What a key never does *)

(** No key, in any mode, changes a register; and in Normal mode no key
    changes the mode or the command line: the resolver only returns the
    action, and the mode changes when the host calls [enter_mode]. *)
Theorem keys_leave_registers_and_normal_mode (key : string) (mods : modifiers)
    (s : VimMode) :
  registers (snd (handle_key key mods s)) = registers s
  /\ (mode s = NORMAL ->
      mode (snd (handle_key key mods s)) = NORMAL
      /\ command_state (snd (handle_key key mods s)) = command_state s).
Proof.
  split; [apply VimSpec.registers_handle_key|].
  intros Hmode. unfold handle_key. rewrite Hmode.
  unfold _handle_normal_key.
  repeat (case_match; simpl; try (split; [assumption | reflexivity])).
Qed.

(** The key i in Normal mode names the action and leaves the mode alone. *)
Lemma insert_key_example :
  fst (handle_key "i" no_modifiers init)
    = Ok (Some (action "enter_insert_mode" 1 VNone))
  /\ mode (snd (handle_key "i" no_modifiers init)) = NORMAL.
Proof. split; vm_compute; reflexivity. Qed.

(** *** Return on the command line *)

(** Whenever Return in Command mode returns, the engine is in Normal mode,
    and what it returns is [None] exactly when the command line is blank;
    otherwise it is an action that is not empty. (When a handler raises, the
    engine stays in Command mode; the history has the line either way.) *)
Theorem return_leaves_command_mode (s : VimMode) (mods : modifiers)
    (r : option dict) :
  mode s = COMMAND ->
  fst (handle_key "Return" mods s) = Ok r ->
  mode (snd (handle_key "Return" mods s)) = NORMAL
  /\ (strip (buffer (command_state s)) = "" -> r = None)
  /\ (strip (buffer (command_state s)) <> "" -> exists d, r = Some d /\ d <> []).
Proof.
  intros Hmode. rewrite (VimSpec.return_in_command_mode mods s Hmode).
  unfold _execute_command.
  destruct (strip (buffer (command_state s))) as [|c cmd] eqn:E; simpl negb;
    cbv iota.
  - simpl. intros [= <-]. split; [apply VimSpec.mode_enter_normal_mode|].
    split; [reflexivity | congruence].
  - destruct (dispatch (String c cmd)) as [res|e]; simpl; [|discriminate].
    intros [= <-]. split; [apply VimSpec.mode_enter_normal_mode|].
    split; [discriminate|]. intros _.
    eexists. split; [reflexivity|].
    destruct res as [[|x d]|]; discriminate.
Qed.

Lemma return_leaves_command_mode_witness :
  mode (snd (handle_key "Return" no_modifiers (command_line "wq notes.md")))
    = NORMAL
  /\ (strip (buffer (command_state (command_line "wq notes.md"))) = "" ->
      Some [("action", VStr "save_and_quit"); ("path", VStr "notes.md")] = None)
  /\ (strip (buffer (command_state (command_line "wq notes.md"))) <> "" ->
      exists d,
        Some [("action", VStr "save_and_quit"); ("path", VStr "notes.md")]
        = Some d /\ d <> []).
Proof.
  apply (return_leaves_command_mode (command_line "wq notes.md") no_modifiers).
  - reflexivity.
  - vm_compute. reflexivity.
Defined.

(** *** Editing the command line *)

Lemma one_char_key (c : ascii) (name : string) :
  (2 <= String.length name)%nat -> String.eqb (String c "") name = false.
Proof.
  intros H. apply not_true_iff_false. intros E.
  apply PyFacts.eqb_length in E. simpl in E. lia.
Qed.

(** What a key of one character does in Command mode, unless it is Ctrl-c:
    it goes into the buffer at the cursor, which moves one to the right. *)
Lemma command_key_insert (c : ascii) (mods : modifiers) (s : VimMode) :
  ctrl_of mods = false ->
  _handle_command_key (String c "") mods s
  = (Ok None,
     set_command_state
       (set_cursor_pos (cursor_pos (command_state s) + 1)
          (set_buffer
             (slice (buffer (command_state s)) None
                    (Some (cursor_pos (command_state s)))
              +:+ String c ""
              +:+ slice (buffer (command_state s))
                        (Some (cursor_pos (command_state s))) None)
             (command_state s)))
       s).
Proof.
  intros Hctrl. unfold _handle_command_key. rewrite Hctrl.
  rewrite (one_char_key c "Escape"), (one_char_key c "Return"),
    (one_char_key c "BackSpace"), (one_char_key c "Left"),
    (one_char_key c "Right"), (one_char_key c "Up"), (one_char_key c "Down"),
    (one_char_key c "Tab") by (simpl; lia).
  reflexivity.
Qed.

Lemma command_state_eta (s : VimMode) : set_command_state (command_state s) s = s.
Proof. now destruct s. Qed.

(** In Command mode with the cursor inside the buffer, a character typed
    and then BackSpace leave the engine exactly as it was. *)
Theorem backspace_undoes_typing (c : ascii) (mods : modifiers) (s : VimMode) :
  ctrl_of mods = false -> mode s = COMMAND ->
  cursor_in_buffer (command_state s) ->
  handle_keys [String c ""; "BackSpace"] mods s None = (Ok None, s).
Proof.
  intros Hctrl Hmode [Hlo Hhi].
  unfold handle_keys, handle_key. rewrite Hmode.
  rewrite (command_key_insert c mods s Hctrl). simpl mode. rewrite Hmode.
  unfold _handle_command_key. rewrite Hctrl. simpl.
  replace (0 <? cursor_pos (command_state s) + 1) with true
    by (symmetry; apply Z.ltb_lt; lia).
  replace (cursor_pos (command_state s) + 1 - 1)
    with (cursor_pos (command_state s)) by lia.
  set (b := buffer (command_state s)).
  set (p := cursor_pos (command_state s)).
  assert (Hp : len (slice b None (Some p)) = p)
    by (apply PyFacts.len_slice_prefix; subst b p; lia).
  pose proof (PyFacts.slice_prefix_append (slice b None (Some p))
                (String c "" +:+ slice b (Some p) None)) as H1.
  rewrite Hp in H1.
  pose proof (PyFacts.slice_suffix_append
                (slice b None (Some p) +:+ String c "")
                (slice b (Some p) None)) as H2.
  rewrite PyFacts.len_append, Hp, PyFacts.append_assoc in H2.
  change (len (String c "")) with 1 in H2.
  rewrite H1, H2, PyFacts.slice_two by lia.
  unfold with_command_state. f_equal.
  destruct s as [m pm regs cb op mb [bf cp hs hi] ks sa]. reflexivity.
Qed.

Lemma backspace_undoes_typing_witness :
  handle_keys ["w"; "BackSpace"] no_modifiers (command_line "q") None
  = (Ok None, command_line "q").
Proof.
  apply (backspace_undoes_typing "w" no_modifiers (command_line "q")).
  - reflexivity.
  - reflexivity.
  - split; vm_compute; discriminate.
Defined.

Lemma typing_appends (t : string) :
  forall (s : VimMode) (last : option dict),
  mode s = COMMAND ->
  cursor_pos (command_state s) = len (buffer (command_state s)) ->
  snd (handle_keys (chars t) no_modifiers s last)
  = set_command_state
      (set_cursor_pos (len (buffer (command_state s) +:+ t))
         (set_buffer (buffer (command_state s) +:+ t) (command_state s)))
      s
  /\ exists r, fst (handle_keys (chars t) no_modifiers s last) = Ok r.
Proof.
  induction t as [|c t IH]; intros s last Hmode Hcur.
  - simpl handle_keys. simpl snd. rewrite PyFacts.append_empty_r, <- Hcur.
    split; [|eauto]. destruct s as [m pm regs cb op mb [bf cp hs hi] ks sa].
    reflexivity.
  - simpl chars. simpl handle_keys. unfold handle_key. rewrite Hmode.
    rewrite (command_key_insert c no_modifiers s eq_refl).
    rewrite Hcur.
    destruct (PyFacts.slice_whole (buffer (command_state s))) as [-> ->].
    set (s1 := set_command_state _ s).
    destruct (IH s1 None) as [Hs Hr].
    + subst s1. simpl. exact Hmode.
    + subst s1. simpl. rewrite !PyFacts.len_append. reflexivity.
    + split; [|exact Hr]. rewrite Hs. subst s1. simpl.
      rewrite PyFacts.append_empty_r, !PyFacts.append_assoc.
      reflexivity.
Qed.

(** A line typed into a command line just opened is in the buffer as it was
    typed, with the cursor at its end, whatever its characters: none of them
    is taken for a command-line key. *)
Theorem typing_fills_buffer (line : string) (s : VimMode) :
  let s' := snd (handle_keys (chars line) no_modifiers (enter_command_mode s) None) in
  mode s' = COMMAND
  /\ buffer (command_state s') = line
  /\ cursor_pos (command_state s') = len line.
Proof.
  intros s'. subst s'.
  assert (Hm : mode (enter_command_mode s) = COMMAND).
  { unfold enter_command_mode, enter_mode. simpl mode.
    destruct (decide (COMMAND = mode s)) as [E|E];
      [symmetry; exact E | reflexivity]. }
  assert (Hc : command_state (enter_command_mode s) = new_command_state).
  { unfold enter_command_mode, enter_mode. simpl mode.
    destruct (decide (COMMAND = mode s)) as [E|E]; reflexivity. }
  destruct (typing_appends line (enter_command_mode s) None Hm) as [-> _].
  { rewrite Hc. reflexivity. }
  rewrite Hc. simpl. rewrite Hm. repeat split.
Qed.

(** *** The cursor of the command line *)

Lemma command_state_enter_mode (m : EditorMode) (s : VimMode) :
  command_state (enter_mode m s) = command_state s.
Proof. unfold enter_mode. now destruct (decide (m = mode s)). Qed.

Lemma command_state_enter_normal_mode (s : VimMode) :
  command_state (enter_normal_mode s) = command_state s.
Proof. unfold enter_normal_mode. simpl. apply command_state_enter_mode. Qed.

Lemma execute_command_keeps_line (s : VimMode) :
  buffer (command_state (snd (_execute_command s))) = buffer (command_state s)
  /\ cursor_pos (command_state (snd (_execute_command s)))
     = cursor_pos (command_state s).
Proof.
  unfold _execute_command.
  destruct (negb (truthy (strip (buffer (command_state s))))).
  - simpl snd. now rewrite command_state_enter_normal_mode.
  - destruct (dispatch (strip (buffer (command_state s)))); cbn [snd];
      rewrite ?command_state_enter_normal_mode; split; reflexivity.
Qed.

Lemma command_key_keeps_cursor (key : string) (mods : modifiers) (s : VimMode) :
  cursor_in_buffer (command_state s) ->
  cursor_in_buffer (command_state (snd (_handle_command_key key mods s))).
Proof.
  unfold cursor_in_buffer. intros [Hlo Hhi]. unfold _handle_command_key.
  set (c := command_state s) in *.
  destruct (String.eqb key "Escape" || (ctrl_of mods && String.eqb key "c")).
  { simpl snd. rewrite command_state_enter_normal_mode. fold c. lia. }
  destruct (String.eqb key "Return").
  { destruct (execute_command_keeps_line s) as [-> ->]. fold c. lia. }
  destruct (String.eqb key "BackSpace").
  { destruct (0 <? cursor_pos c) eqn:E.
    - simpl. rewrite PyFacts.len_append.
      rewrite PyFacts.len_slice_prefix, PyFacts.len_slice_suffix by lia. lia.
    - destruct (negb (truthy (buffer c))); simpl snd;
        rewrite ?command_state_enter_normal_mode; fold c; lia. }
  destruct (String.eqb key "Left").
  { destruct (0 <? cursor_pos c) eqn:E; simpl; fold c; lia. }
  destruct (String.eqb key "Right").
  { destruct (cursor_pos c <? len (buffer c)) eqn:E; simpl; fold c; lia. }
  destruct (String.eqb key "Up").
  { destruct (history c); [simpl; fold c; lia|].
    destruct (_ <? _); [|simpl; fold c; lia].
    destruct (list_getitem _ _); simpl; [unfold len|]; lia. }
  destruct (String.eqb key "Down").
  { destruct (0 <? history_index c).
    - destruct (list_getitem _ _); simpl; [unfold len|]; lia.
    - destruct (history_index c =? 0); simpl; unfold len; simpl; lia. }
  destruct (String.eqb key "Tab"); [simpl; fold c; lia|].
  destruct (len key =? 1) eqn:E; [|simpl; fold c; lia].
  simpl. rewrite !PyFacts.len_append.
  rewrite PyFacts.len_slice_prefix, PyFacts.len_slice_suffix by lia. lia.
Qed.

Lemma visual_key_command_state (key : string) (mods : modifiers) (s : VimMode) :
  command_state (snd (_handle_visual_key key mods s)) = command_state s.
Proof.
  unfold _handle_visual_key, executed.
  destruct (String.eqb key "Escape" || (ctrl_of mods && String.eqb key "c"));
    [apply command_state_enter_normal_mode|].
  destruct (str_in key "hjkl"); [reflexivity|].
  destruct (String.eqb key "d" || String.eqb key "x");
    [now destruct (_execute_action _ s)|].
  destruct (String.eqb key "y"); [now destruct (_execute_action _ s)|].
  destruct (String.eqb key "c"); [now destruct (_execute_action _ s)|].
  destruct (String.eqb key "r"); [apply command_state_enter_mode|].
  now destruct (table_get action_map key).
Qed.

Lemma handle_key_keeps_cursor (key : string) (mods : modifiers) (s : VimMode) :
  cursor_in_buffer (command_state s) ->
  cursor_in_buffer (command_state (snd (handle_key key mods s))).
Proof.
  intros H. unfold handle_key. destruct (mode s) eqn:Hmode;
    rewrite ?visual_key_command_state; try exact H.
  - unfold _handle_normal_key.
    destruct (ctrl_of mods); [exact H|].
    destruct (isdigit key && _); [exact H|].
    destruct (_lookup_action _);
      [destruct (_execute_action _ _); exact H|].
    destruct (_is_operator key); [exact H|].
    destruct (_has_partial_match _); exact H.
  - unfold _handle_insert_key.
    destruct (if ctrl_of mods then _ else _); [exact H|].
    destruct (_ || _); [|exact H].
    simpl snd. now rewrite command_state_enter_normal_mode.
  - now apply command_key_keeps_cursor.
  - unfold _handle_replace_key.
    destruct (String.eqb key "Escape"); [|exact H].
    simpl snd. now rewrite command_state_enter_normal_mode.
Qed.

(** In every state of the engine the cursor of the command line lies in the
    buffer: from 0 to the length of the line. *)
Theorem command_cursor_in_buffer (s : VimMode) :
  reachable s -> cursor_in_buffer (command_state s).
Proof.
  induction 1 as [|key mods s _ IH|m s _ IH|s _ IH|s _ IH|l b s _ IH|s _ IH
                  |s _ IH|name content linewise s _ IH].
  - unfold cursor_in_buffer. simpl. unfold len. simpl. lia.
  - now apply handle_key_keeps_cursor.
  - now rewrite command_state_enter_mode.
  - unfold enter_insert_mode. now rewrite command_state_enter_mode.
  - now rewrite command_state_enter_normal_mode.
  - unfold enter_visual_mode.
    destruct b; [|destruct l]; now rewrite command_state_enter_mode.
  - unfold enter_command_mode. rewrite command_state_enter_mode. simpl.
    unfold cursor_in_buffer. simpl. unfold len. simpl. lia.
  - unfold enter_replace_mode. now rewrite command_state_enter_mode.
  - exact IH.
Qed.

Lemma command_cursor_in_buffer_witness :
  cursor_in_buffer
    (command_state (snd (handle_key "w" no_modifiers (enter_command_mode init)))).
Proof.
  apply (command_cursor_in_buffer
           (snd (handle_key "w" no_modifiers (enter_command_mode init)))).
  apply reach_handle_key, reach_enter_command_mode, reach_init.
Defined.

(** *** Keys that never raise *)

Lemma ascii_digits_are_decimal (key : string) :
  is_ascii key = true -> str_forall isdigit_char key = true ->
  str_forall isdecimal_char key = true.
Proof.
  unfold is_ascii. induction key as [|c key IH]; simpl; [reflexivity|].
  intros Ha Hd. apply andb_true_iff in Ha as [Hc Ha], Hd as [Hdc Hd].
  rewrite (IH Ha Hd), andb_true_r.
  unfold isdigit_char, isdecimal_char, between in *.
  apply Z.ltb_lt in Hc.
  repeat (apply orb_true_iff in Hdc as [Hdc|Hdc]); try exact Hdc;
    apply Z.eqb_eq in Hdc; lia.
Qed.

Lemma normal_key_safe (key : string) (mods : modifiers) (s : VimMode) :
  mode s = NORMAL -> str_forall isdecimal_char (count_buffer s) = true ->
  is_ascii key = true -> len (count_buffer s) <= int_max_str_digits ->
  (exists r, fst (handle_key key mods s) = Ok r)
  /\ mode (snd (handle_key key mods s)) = NORMAL
  /\ str_forall isdecimal_char (count_buffer (snd (handle_key key mods s)))
     = true
  /\ len (count_buffer (snd (handle_key key mods s)))
     <= len (count_buffer s) + len key.
Proof.
  intros Hmode Hcb Hkey Hlen. unfold handle_key. rewrite Hmode.
  unfold _handle_normal_key.
  assert (Hnn : 0 <= len (count_buffer s) /\ 0 <= len key) by (unfold len; lia).
  destruct (ctrl_of mods); [simpl; split; [eauto|]; repeat split; try assumption; lia|].
  destruct (isdigit key && _) eqn:Ed.
  { simpl. rewrite PyFacts.str_forall_append, Hcb, PyFacts.len_append.
    split; [eauto|]. split; [exact Hmode|]. split; [|lia].
    apply andb_true_iff in Ed as [Ed _]. unfold isdigit in Ed.
    apply andb_true_iff in Ed as [_ Ed].
    now rewrite (ascii_digits_are_decimal key Hkey Ed). }
  destruct (_lookup_action _) as [a|].
  { unfold _execute_action. simpl count_buffer. simpl operator_pending.
    destruct (truthy (count_buffer s)) eqn:Et.
    - destruct (PyFacts.int_decimal (count_buffer s)) as [n ->];
        [now destruct (count_buffer s) | exact Hcb | exact Hlen |].
      simpl. split; [eauto|]. repeat split; try assumption.
      change (len "") with 0. lia.
    - simpl. split; [eauto|]. repeat split; try assumption.
      change (len "") with 0. lia. }
  destruct (_is_operator key);
    [simpl; split; [eauto|]; repeat split; try assumption; lia|].
  destruct (_has_partial_match _); simpl; (split; [eauto|]);
    repeat split; try assumption; try lia.
  change (len "") with 0. lia.
Qed.

(** In Normal mode with no count under way, no sequence of keys made of
    characters below U+0080 and of at most 4300 characters in all makes
    [handle_key] raise, with or without Ctrl; the engine stays in Normal
    mode throughout. (The bound is the number of digits that [int]
    converts: a longer count raises [ValueError] when the command after it
    is complete.) *)
Theorem ascii_keys_never_raise (keys : list string) (mods : modifiers)
    (s : VimMode) :
  mode s = NORMAL -> count_buffer s = "" ->
  Forall (fun key => is_ascii key = true) keys ->
  Z.of_nat (sum_list_with String.length keys) <= int_max_str_digits ->
  (exists r, fst (handle_keys keys mods s None) = Ok r)
  /\ mode (snd (handle_keys keys mods s None)) = NORMAL.
Proof.
  intros Hmode Hcb Hkeys Hlen.
  assert (Hd : str_forall isdecimal_char (count_buffer s) = true)
    by now rewrite Hcb.
  assert (Hb : len (count_buffer s)
               + Z.of_nat (sum_list_with String.length keys)
               <= int_max_str_digits).
  { rewrite Hcb. change (len "") with 0. lia. }
  clear Hcb Hlen. generalize (@None dict) as last. revert s Hmode Hd Hb.
  induction Hkeys as [|key keys Hkey _ IH]; intros s Hmode Hd Hb last.
  - simpl. eauto.
  - simpl handle_keys. simpl sum_list_with in Hb.
    assert (Hs : len (count_buffer s) <= int_max_str_digits) by lia.
    destruct (normal_key_safe key mods s Hmode Hd Hkey Hs)
      as ([r Hr] & Hm & Hc & Hl).
    destruct (handle_key key mods s) as [res s']. simpl in Hr, Hm, Hc, Hl.
    subst res. apply IH; [exact Hm | exact Hc |].
    unfold len in *. lia.
Qed.

Lemma ascii_keys_never_raise_witness :
  (exists r, fst (handle_keys ["1"; "0"; "d"; "w"; "Escape"; "g"; "~"]
                    no_modifiers init None) = Ok r)
  /\ mode (snd (handle_keys ["1"; "0"; "d"; "w"; "Escape"; "g"; "~"]
                  no_modifiers init None)) = NORMAL.
Proof.
  apply (ascii_keys_never_raise ["1"; "0"; "d"; "w"; "Escape"; "g"; "~"]
           no_modifiers init); [reflexivity | reflexivity | |].
  - repeat constructor.
  - vm_compute. discriminate.
Defined.

(** A count of 4301 digits makes the command after it raise. *)
Lemma long_count_raises :
  fst (handle_keys (repeat "1" 4301 ++ ["x"]) no_modifiers init None)
  = Raise ValueError.
Proof. vm_compute. reflexivity. Qed.

(** *** Text objects *)

(** Only a sequence of three keys with i or a in the middle resolves to a
    text-object action. *)
Lemma lookup_text_object (seq a : string) :
  _lookup_action seq = Some a -> is_text_object_action a = true ->
  exists c0 c1 c2,
    seq = String c0 (String c1 (String c2 ""))
    /\ (Ascii.eqb c1 "i" || Ascii.eqb c1 "a") = true.
Proof.
  unfold _lookup_action.
  destruct (table_get single_char_map seq) as [a1|] eqn:E1.
  { intros [= <-] Ha. exfalso.
    pose proof (PyFacts.table_values (fun v => negb (is_text_object_action v))
                  single_char_map eq_refl seq a1 E1) as H.
    simpl in H. now rewrite Ha in H. }
  destruct (table_get two_char_map seq) as [a2|] eqn:E2.
  { intros [= <-] Ha. exfalso.
    pose proof (PyFacts.table_values (fun v => negb (is_text_object_action v))
                  two_char_map eq_refl seq a2 E2) as H.
    simpl in H. now rewrite Ha in H. }
  destruct seq as [|c0 [|c1 [|c2 [|c3 seq]]]]; simpl chars; cbv beta iota;
    try discriminate.
  - match goal with |- context [if ?b then _ else _] => destruct b eqn:E end;
      [|discriminate].
    apply andb_true_iff in E as [E0 E1']. rewrite PyFacts.str_in_char in E0, E1'.
    intros [= <-] Ha. exfalso. revert Ha.
    simpl in E0, E1'.
    repeat (apply orb_true_iff in E0 as [E0|E0]); try discriminate;
      apply Ascii.eqb_eq in E0; subst c0;
      repeat (apply orb_true_iff in E1' as [E1'|E1']); try discriminate;
      apply Ascii.eqb_eq in E1'; subst c1; vm_compute; discriminate.
  - match goal with |- context [if ?b then _ else _] => destruct b eqn:E end;
      [|discriminate].
    apply andb_true_iff in E as [_ E]. rewrite PyFacts.str_in_char in E.
    simpl in E. rewrite orb_false_r in E.
    intros _ _. exists c0, c1, c2. split; [reflexivity | exact E].
Qed.

Lemma no_ia_append (s t : string) :
  no_ia (s +:+ t) = no_ia s && no_ia t.
Proof. apply PyFacts.str_forall_append. Qed.

Lemma append_three (ks : string) (c c0 c1 c2 : ascii) :
  ks +:+ String c "" = String c0 (String c1 (String c2 "")) ->
  ks = String c0 (String c1 "").
Proof.
  destruct ks as [|k0 [|k1 [|k2 ks]]]; try discriminate.
  - now intros [= -> ->].
  - rewrite !PyFacts.append_cons. intros [= _ _ _ H]. now destruct ks.
Qed.

Lemma all_sequences_have_two_keys (seq : string) :
  In seq all_sequences -> String.length seq = 2%nat.
Proof.
  assert (H : forallb (fun x => Nat.eqb (String.length x) 2) all_sequences
              = true) by reflexivity.
  rewrite forallb_forall in H. intros Hin. now apply Nat.eqb_eq, H.
Qed.

(** After i or a nothing is pending: the sequence is either an action or
    dropped. *)
Lemma ia_is_never_pending (ks : string) (c : ascii) :
  (Ascii.eqb c "i" || Ascii.eqb c "a") = true ->
  _lookup_action (ks +:+ String c "") = None ->
  _has_partial_match (ks +:+ String c "") = false.
Proof.
  intros Hc Hl. apply not_true_iff_false. intros H.
  unfold _has_partial_match in H. apply existsb_exists in H as (x & Hx & H).
  apply andb_true_iff in H as [Hs Hne].
  pose proof (PyFacts.startswith_length _ _ Hs) as Hlen.
  rewrite (all_sequences_have_two_keys x Hx), PyFacts.length_append in Hlen.
  simpl in Hlen.
  destruct ks as [|k0 [|k1 ks]]; simpl in Hlen; try lia.
  - apply orb_true_iff in Hc as [Hc|Hc]; apply Ascii.eqb_eq in Hc; subst c;
      vm_compute in Hl; discriminate.
  - apply PyFacts.startswith_same_length in Hs;
      [|now rewrite (all_sequences_have_two_keys x Hx)].
    subst x. now rewrite String.eqb_refl in Hne.
Qed.

Lemma operators_are_not_ia (c : ascii) :
  (Ascii.eqb c "i" || Ascii.eqb c "a") = true ->
  _is_operator (String c "") = false.
Proof.
  intros Hc. apply orb_true_iff in Hc as [Hc|Hc]; apply Ascii.eqb_eq in Hc;
    subst c; reflexivity.
Qed.

Lemma normal_key_no_text_object (c : ascii) (mods : modifiers) (s : VimMode)
    (r : option dict) :
  mode s = NORMAL -> no_ia (key_sequence s) = true ->
  fst (handle_key (String c "") mods s) = Ok r ->
  mode (snd (handle_key (String c "") mods s)) = NORMAL
  /\ no_ia (key_sequence (snd (handle_key (String c "") mods s))) = true
  /\ forall d a,
       r = Some d -> dict_get d "action" = Some (VStr a) ->
       is_text_object_action a = false.
Proof.
  intros Hmode Hks. unfold handle_key. rewrite Hmode.
  unfold _handle_normal_key.
  destruct (ctrl_of mods).
  { simpl. intros [= <-]. split; [exact Hmode|]. split; [exact Hks|].
    intros d a Hd Ha. unfold _handle_ctrl_key in Hd.
    pose proof (PyFacts.table_values
      (fun d => match dict_get d "action" with
                | Some (VStr a) => negb (is_text_object_action a)
                | _ => true
                end) ctrl_map eq_refl _ d Hd) as H.
    simpl in H. rewrite Ha in H. now apply negb_true_iff in H. }
  destruct (isdigit _ && _).
  { simpl. intros [= <-]. split; [exact Hmode|]. split; [exact Hks|].
    discriminate. }
  destruct (_lookup_action _) as [a0|] eqn:El.
  { unfold _execute_action.
    destruct (if truthy _ then _ else _) as [n|e]; simpl; [|discriminate].
    intros [= <-]. split; [exact Hmode|]. split; [reflexivity|].
    intros d a [= <-]. simpl. intros [= <-].
    apply not_true_iff_false. intros Ha.
    destruct (lookup_text_object _ _ El Ha) as (c0 & c1 & c2 & Hseq & Hc1).
    simpl key_sequence in Hseq. apply append_three in Hseq.
    rewrite Hseq in Hks. unfold no_ia in Hks. cbn [str_forall] in Hks.
    rewrite Hc1 in Hks. simpl in Hks. rewrite andb_false_r in Hks.
    discriminate. }
  simpl key_sequence in El.
  assert (Hkeep : (Ascii.eqb c "i" || Ascii.eqb c "a") = false ->
                  no_ia (key_sequence s +:+ String c "") = true).
  { intros Hc. rewrite no_ia_append, Hks. unfold no_ia. cbn [str_forall].
    now rewrite Hc. }
  destruct (_is_operator _) eqn:Eo.
  { simpl. intros [= <-]. split; [exact Hmode|]. split; [|discriminate].
    apply Hkeep. apply not_true_iff_false. intros Hc.
    rewrite (operators_are_not_ia c Hc) in Eo. discriminate. }
  destruct (_has_partial_match _) eqn:Ep.
  { simpl. intros [= <-]. split; [exact Hmode|]. split; [|discriminate].
    apply Hkeep. apply not_true_iff_false. intros Hc. simpl key_sequence in Ep.
    rewrite (ia_is_never_pending _ c Hc El) in Ep. discriminate. }
  simpl. intros [= <-]. split; [exact Hmode|]. split; [reflexivity|discriminate].
Qed.

(** In Normal mode, starting with no key pending, no sequence of
    one-character keys makes [handle_key] return a text-object action (an
    operator, then i or a, then the key of the object): after the operator
    the key i or a completes no action and is no prefix that is waited for,
    so the sequence is dropped before the third key arrives. *)
Theorem text_objects_are_out_of_reach (keys : list string) (mods : modifiers)
    (s : VimMode) (d : dict) (a : string) :
  mode s = NORMAL -> key_sequence s = "" ->
  Forall (fun key => String.length key = 1%nat) keys ->
  fst (handle_keys keys mods s None) = Ok (Some d) ->
  dict_get d "action" = Some (VStr a) ->
  is_text_object_action a = false.
Proof.
  intros Hmode Hks Hkeys.
  assert (Hinv : no_ia (key_sequence s) = true) by now rewrite Hks.
  assert (Hlast : forall d a, @None dict = Some d ->
            dict_get d "action" = Some (VStr a) ->
            is_text_object_action a = false) by discriminate.
  clear Hks. revert Hlast. generalize (@None dict) as last.
  revert s Hmode Hinv d a.
  induction Hkeys as [|key keys Hkey _ IH]; intros s Hmode Hinv d a last Hlast.
  - simpl. intros [= ->]. now apply Hlast.
  - simpl handle_keys.
    destruct key as [|c [|c' key]]; try discriminate.
    pose proof (fun r => normal_key_no_text_object c mods s r Hmode Hinv)
      as Hstep.
    destruct (handle_key (String c "") mods s) as [[r|e] s'];
      [|discriminate].
    destruct (Hstep r eq_refl) as (Hm & Hi & Hr).
    now apply IH.
Qed.

Lemma text_objects_are_out_of_reach_witness :
  is_text_object_action "delete_line" = false.
Proof.
  apply (text_objects_are_out_of_reach ["c"; "i"; "d"; "d"] no_modifiers init
           (action "delete_line" 1 (VStr "d")) "delete_line");
    try reflexivity.
  repeat constructor.
Defined.

(** The sequence d, i, w key by key gives nothing, while the same
    characters in one key give the action. *)
Lemma text_object_example :
  fst (handle_keys ["d"; "i"; "w"] no_modifiers init None) = Ok None
  /\ fst (handle_key "diw" no_modifiers init)
     = Ok (Some (action "d_inner_word" 1 VNone))
  /\ is_text_object_action "d_inner_word" = true.
Proof. repeat split; vm_compute; reflexivity. Qed.

(** *** The action tag *)

Ltac handler_has_action :=
  unfold _cmd_substitute_all, _cmd_global_inverse, _cmd_nmap, _cmd_imap,
    _cmd_vmap, map_for;
  unfold _cmd_write, _cmd_write_quit, _cmd_quit, _cmd_force_quit,
    _cmd_quit_all, _cmd_force_quit_all, _cmd_edit, _cmd_buffer_next,
    _cmd_buffer_prev, _cmd_buffer_close, _cmd_list_buffers, _cmd_substitute,
    _cmd_global, _cmd_delete, _cmd_yank, _cmd_put, _cmd_copy, _cmd_move,
    _cmd_join, _cmd_read, _cmd_shell, _cmd_source, _cmd_set, _cmd_let,
    _cmd_map, _cmd_unmap, _cmd_nohlsearch, _cmd_syntax, _cmd_highlight,
    _cmd_colorscheme, _cmd_tabnew, _cmd_tabclose, _cmd_tabnext, _cmd_tabprev,
    _cmd_vsplit, _cmd_split, _cmd_close, _cmd_only, _cmd_resize,
    _cmd_vertical_resize, _cmd_cd, _cmd_pwd, _cmd_mkdir, _cmd_help,
    _cmd_version;
  intros args st en d; unfold mbind, result_bind;
  repeat case_match;
  repeat match goal with
         | H : Ok _ = Ok _ |- _ => injection H as <-
         | H : Ok _ = Raise _ |- _ => discriminate H
         | H : Raise _ = Ok _ |- _ => discriminate H
         end;
  try discriminate; intros [= <-]; reflexivity.

(** Whatever an ex command returns has an action tag. *)
Lemma handler_has_action (name : string) (h : handler) :
  table_get ex_commands name = Some h ->
  forall args st en d, h args st en = Ok d -> has_action d = true.
Proof.
  intros Hget. apply PyFacts.table_get_some in Hget. revert Hget.
  unfold ex_commands.
  repeat (rewrite elem_of_cons; intros [[= _ ->]|Hget];
          [handler_has_action | revert Hget]).
  intros Hget. now apply elem_of_nil in Hget.
Qed.

Lemma has_action_result_or (r d : dict) :
  has_action r = true -> result_or (Some r) d = r.
Proof. destruct r; [discriminate | reflexivity]. Qed.

Lemma dispatch_has_action (cmd : string) (r : option dict) :
  dispatch cmd = Ok r -> has_action (result_or r (command_executed cmd)) = true.
Proof.
  unfold dispatch, mbind, result_bind.
  destruct (list_getitem (split_ws1 cmd) 0) as [name|e]; [|discriminate].
  destruct (if (1 <? length (split_ws1 cmd))%nat then _ else _) as [args|e];
    [|discriminate].
  destruct (table_get ex_commands name) as [h|] eqn:Eh.
  { destruct (h args None None) as [res|e] eqn:Er; [|discriminate].
    intros [= <-].
    pose proof (handler_has_action _ _ Eh _ _ _ _ Er) as Hres.
    now rewrite has_action_result_or. }
  destruct (Re.rmatch cmd range_pattern) as [m|]; [|now intros [= <-]].
  cbv zeta.
  destruct (table_get ex_commands (default "" _)) as [h|] eqn:Eh';
    [|now intros [= <-]].
  destruct (h _ _ _) as [res|e] eqn:Er; [|discriminate].
  intros [= <-].
  pose proof (handler_has_action _ _ Eh' _ _ _ _ Er) as Hres.
  now rewrite has_action_result_or.
Qed.

Lemma executed_has_action (a : string) (s : VimMode) (d : dict) :
  _execute_action a s = Ok d -> has_action d = true.
Proof.
  unfold _execute_action, mbind, result_bind.
  destruct (if truthy _ then _ else _); [|discriminate].
  now intros [= <-].
Qed.

Lemma visual_key_has_action (key : string) (mods : modifiers) (s : VimMode)
    (d : dict) :
  fst (_handle_visual_key key mods s) = Ok (Some d) -> has_action d = true.
Proof.
  unfold _handle_visual_key, executed. cbv zeta.
  destruct (_ || _); [now intros [= <-]|].
  destruct (str_in key "hjkl"); [now intros [= <-]|].
  destruct (_ || _).
  { destruct (_execute_action _ s) eqn:E; [|discriminate].
    intros [= <-]. exact (executed_has_action _ _ _ E). }
  destruct (String.eqb key "y").
  { destruct (_execute_action _ s) eqn:E; [|discriminate].
    intros [= <-]. exact (executed_has_action _ _ _ E). }
  destruct (String.eqb key "c").
  { destruct (_execute_action _ s) eqn:E; [|discriminate].
    intros [= <-]. exact (executed_has_action _ _ _ E). }
  destruct (String.eqb key "r"); [now intros [= <-]|].
  destruct (table_get action_map key); [now intros [= <-] | discriminate].
Qed.

Lemma command_key_has_action (key : string) (mods : modifiers) (s : VimMode)
    (d : dict) :
  fst (_handle_command_key key mods s) = Ok (Some d) -> has_action d = true.
Proof.
  unfold _handle_command_key, with_command_state. cbv zeta.
  destruct (_ || _); [discriminate|].
  destruct (String.eqb key "Return").
  { unfold _execute_command. cbv zeta.
    destruct (negb _); [discriminate|].
    destruct (dispatch _) as [r|e] eqn:E; [|discriminate].
    intros [= <-]. exact (dispatch_has_action _ _ E). }
  destruct (String.eqb key "BackSpace").
  { repeat case_match; discriminate. }
  destruct (String.eqb key "Left"); [repeat case_match; discriminate|].
  destruct (String.eqb key "Right"); [repeat case_match; discriminate|].
  destruct (String.eqb key "Up"); [repeat case_match; discriminate|].
  destruct (String.eqb key "Down"); [repeat case_match; discriminate|].
  destruct (String.eqb key "Tab"); [now intros [= <-]|].
  destruct (len key =? 1); discriminate.
Qed.

(** Whatever [handle_key] returns that is not [None] is an action with a
    string under the key [action], in every mode and state and for every
    key; on the command line this includes what the ex commands return. *)
Theorem actions_are_tagged (key : string) (mods : modifiers) (s : VimMode)
    (d : dict) :
  fst (handle_key key mods s) = Ok (Some d) -> has_action d = true.
Proof.
  unfold handle_key. destruct (mode s).
  - unfold _handle_normal_key.
    destruct (ctrl_of mods).
    { intros [= Hd]. unfold _handle_ctrl_key in Hd.
      exact (PyFacts.table_values has_action ctrl_map eq_refl _ _ Hd). }
    destruct (isdigit _ && _); [discriminate|].
    cbv zeta. destruct (_lookup_action _) as [a|].
    + destruct (_execute_action _ _) eqn:E; [|discriminate].
      intros [= <-]. exact (executed_has_action _ _ _ E).
    + repeat case_match; discriminate.
  - unfold _handle_insert_key. cbv zeta.
    destruct (if ctrl_of mods then _ else _); [now intros [= <-]|].
    destruct (_ || _); now intros [= <-].
  - apply visual_key_has_action.
  - apply visual_key_has_action.
  - apply visual_key_has_action.
  - apply command_key_has_action.
  - unfold _handle_replace_key.
    destruct (String.eqb key "Escape"); [discriminate | now intros [= <-]].
Qed.

Lemma actions_are_tagged_witness :
  has_action [("action", VStr "substitute"); ("pattern", VStr "a");
              ("replacement", VStr "b"); ("flags", VStr "");
              ("start", VStr "1"); ("end", VStr "$")] = true.
Proof.
  apply (actions_are_tagged "Return" no_modifiers (command_line "%s s/a/b")).
  vm_compute. reflexivity.
Defined.

(** *** The history of the command line *)

Lemma removelast_elem {A} (x : A) (l : list A) : x ∈ removelast l -> x ∈ l.
Proof.
  induction l as [|y l IH]; simpl; [easy|].
  destruct l as [|z l]; [intros H; now apply elem_of_nil in H|].
  rewrite !elem_of_cons. intros [->|H]; [now left|].
  right. apply elem_of_cons. apply IH. exact H.
Qed.

Lemma removelast_nodup {A} (l : list A) : NoDup l -> NoDup (removelast l).
Proof.
  induction l as [|y l IH]; simpl; [easy|].
  rewrite NoDup_cons. intros [Hy Hl].
  destruct l as [|z l]; [constructor|].
  apply NoDup_cons. split; [|now apply IH].
  intros H. apply Hy. now apply removelast_elem.
Qed.

Lemma removelast_len {A} (y : A) (l : list A) :
  length (removelast (y :: l)) = length l.
Proof.
  revert y. induction l as [|z l IH]; intros y; [reflexivity|].
  change (S (length (removelast (z :: l))) = S (length l)).
  now rewrite IH.
Qed.

Lemma push_history_in_order (cmd : string) (h : list string) :
  NoDup h -> (length h <= 100)%nat ->
  NoDup (push_history cmd h) /\ (length (push_history cmd h) <= 100)%nat.
Proof.
  intros Hn Hl. unfold push_history.
  destruct (existsb (String.eqb cmd) h) eqn:E; [now split|].
  assert (Hc : cmd ∉ h).
  { clear -E. induction h as [|x h IH]; [apply not_elem_of_nil|].
    simpl in E. apply orb_false_iff in E as [Ex E].
    apply not_elem_of_cons. split; [now apply String.eqb_neq | now apply IH]. }
  assert (Hn' : NoDup (cmd :: h)) by (apply NoDup_cons; now split).
  cbv zeta. destruct (100 <? length (cmd :: h))%nat eqn:E'.
  - split; [now apply removelast_nodup|]. rewrite removelast_len. exact Hl.
  - split; [exact Hn'|]. now apply Nat.ltb_ge in E'.
Qed.

Lemma execute_command_history (s : VimMode) :
  history_in_order (command_state s) ->
  history_in_order (command_state (snd (_execute_command s))).
Proof.
  intros (Hn & Hl & Hi). unfold _execute_command.
  destruct (negb (truthy (strip (buffer (command_state s))))).
  - simpl snd. rewrite command_state_enter_normal_mode. now repeat split.
  - destruct (push_history_in_order (strip (buffer (command_state s)))
                (history (command_state s)) Hn Hl) as [Hn' Hl'].
    destruct (dispatch (strip (buffer (command_state s)))); cbn [snd];
      rewrite ?command_state_enter_normal_mode;
      unfold history_in_order; cbn -[push_history Z.of_nat length];
      (split; [exact Hn'|]); (split; [exact Hl'|]); lia.
Qed.

Ltac reduce_state :=
  unfold history_in_order, set_cursor_pos, set_buffer, set_history_index,
    set_history, set_command_state;
  cbn [command_state history_index history cursor_pos buffer].

Lemma command_key_history (key : string) (mods : modifiers) (s : VimMode) :
  history_in_order (command_state s) ->
  history_in_order (command_state (snd (_handle_command_key key mods s)))
  /\ (String.eqb key "Return" = false ->
      exists r, fst (_handle_command_key key mods s) = Ok r).
Proof.
  intros H. pose proof H as (Hn & Hl & Hi).
  unfold _handle_command_key, with_command_state.
  set (c := command_state s) in *.
  destruct (String.eqb key "Escape" || (ctrl_of mods && String.eqb key "c")).
  { cbn [fst snd]. rewrite command_state_enter_normal_mode.
    split; [exact H | eauto]. }
  destruct (String.eqb key "Return").
  { split; [now apply execute_command_history | discriminate]. }
  destruct (String.eqb key "BackSpace").
  { destruct (0 <? cursor_pos c).
    - simpl. split; [exact H | eauto].
    - destruct (negb (truthy (buffer c))); cbn [fst snd];
        rewrite ?command_state_enter_normal_mode;
        (split; [exact H | eauto]). }
  destruct (String.eqb key "Left").
  { destruct (0 <? cursor_pos c); simpl; (split; [exact H | eauto]). }
  destruct (String.eqb key "Right").
  { destruct (cursor_pos c <? len (buffer c)); simpl;
      (split; [exact H | eauto]). }
  destruct (String.eqb key "Up").
  { clear Hn Hl Hi.
    destruct (history c) as [|h0 hs] eqn:Eh;
      [cbn [fst snd]; split; [exact H | eauto]|].
    rewrite <- Eh. clear Eh h0 hs. pose proof H as (Hn & Hl & Hi).
    destruct (history_index c <? Z.of_nat (length (history c)) - 1) eqn:E;
      [|cbn [fst snd]; split; [exact H | eauto]].
    apply Z.ltb_lt in E. cbv zeta. simpl history. simpl history_index.
    destruct (history c !! Z.to_nat (history_index c + 1)) as [b|] eqn:Eb.
    - pose proof (PyFacts.list_getitem_ok _ _ _ Eb) as Hg.
      rewrite Z2Nat.id in Hg by lia. rewrite Hg. cbn [fst snd]. reduce_state.
      split; [|eauto]. repeat split; try assumption; lia.
    - apply lookup_ge_None in Eb. lia. }
  destruct (String.eqb key "Down").
  { destruct (0 <? history_index c) eqn:E.
    - apply Z.ltb_lt in E. cbv zeta. simpl history. simpl history_index.
      destruct (history c !! Z.to_nat (history_index c - 1)) as [b|] eqn:Eb.
      + pose proof (PyFacts.list_getitem_ok _ _ _ Eb) as Hg.
        rewrite Z2Nat.id in Hg by lia. rewrite Hg. cbn [fst snd]. reduce_state.
        split; [|eauto]. repeat split; try assumption; lia.
      + apply lookup_ge_None in Eb. lia.
    - destruct (history_index c =? 0) eqn:E0; cbn [fst snd]; reduce_state;
        (split; [|eauto]); repeat split; try assumption; lia. }
  destruct (String.eqb key "Tab"); [simpl; split; [exact H | eauto]|].
  destruct (len key =? 1); simpl; (split; [exact H | eauto]).
Qed.

Lemma handle_key_history (key : string) (mods : modifiers) (s : VimMode) :
  history_in_order (command_state s) ->
  history_in_order (command_state (snd (handle_key key mods s))).
Proof.
  intros H. unfold handle_key. destruct (mode s) eqn:Hmode;
    rewrite ?visual_key_command_state; try exact H.
  - unfold _handle_normal_key.
    destruct (ctrl_of mods); [exact H|].
    destruct (isdigit key && _); [exact H|].
    destruct (_lookup_action _);
      [destruct (_execute_action _ _); exact H|].
    destruct (_is_operator key); [exact H|].
    destruct (_has_partial_match _); exact H.
  - unfold _handle_insert_key.
    destruct (if ctrl_of mods then _ else _); [exact H|].
    destruct (_ || _); [|exact H].
    simpl snd. now rewrite command_state_enter_normal_mode.
  - now apply command_key_history.
  - unfold _handle_replace_key.
    destruct (String.eqb key "Escape"); [|exact H].
    simpl snd. now rewrite command_state_enter_normal_mode.
Qed.

Lemma reachable_history (s : VimMode) :
  reachable s -> history_in_order (command_state s).
Proof.
  assert (Hnew : history_in_order new_command_state).
  { unfold history_in_order. simpl. split; [constructor|]. lia. }
  induction 1 as [|key mods s _ IH|m s _ IH|s _ IH|s _ IH|l b s _ IH|s _ IH
                  |s _ IH|name content linewise s _ IH].
  - exact Hnew.
  - now apply handle_key_history.
  - now rewrite command_state_enter_mode.
  - unfold enter_insert_mode. now rewrite command_state_enter_mode.
  - now rewrite command_state_enter_normal_mode.
  - unfold enter_visual_mode.
    destruct b; [|destruct l]; now rewrite command_state_enter_mode.
  - unfold enter_command_mode. rewrite command_state_enter_mode. exact Hnew.
  - unfold enter_replace_mode. now rewrite command_state_enter_mode.
  - exact IH.
Qed.

(** In every state of the engine the history of the command line holds no
    line twice and at most 100 lines, and its index is -1 or a position in
    it; so in Command mode every key other than Return returns without
    raising: the steps through the history with Up and Down never leave
    it. *)
Theorem command_history_in_order (s : VimMode) :
  reachable s ->
  history_in_order (command_state s)
  /\ forall key mods,
       mode s = COMMAND -> key <> "Return" ->
       exists r, fst (handle_key key mods s) = Ok r.
Proof.
  intros Hs. pose proof (reachable_history s Hs) as H. split; [exact H|].
  intros key mods Hmode Hkey. unfold handle_key. rewrite Hmode.
  apply (command_key_history key mods s H).
  now apply String.eqb_neq.
Qed.

Lemma command_history_in_order_witness :
  history_in_order
    (command_state (snd (handle_key "Up" no_modifiers (enter_command_mode init))))
  /\ forall key mods,
       mode (snd (handle_key "Up" no_modifiers (enter_command_mode init)))
       = COMMAND ->
       key <> "Return" ->
       exists r,
         fst (handle_key key mods
                (snd (handle_key "Up" no_modifiers (enter_command_mode init))))
         = Ok r.
Proof.
  apply (command_history_in_order
           (snd (handle_key "Up" no_modifiers (enter_command_mode init)))).
  apply reach_handle_key, reach_enter_command_mode, reach_init.
Defined.

End VimMore.

(** ** Marks, macros and the search pattern *)

Module StoresMore.
Import Py VimStores.

(** *** Macros and the search pattern *)

(** No method adds a key to the macro under recording: whatever sequence of
    calls has been made, the buffer is empty, every macro stored is empty,
    and [play_macro] returns the empty string for every register. *)
Theorem macros_are_empty (st : Stores) (register : string) :
  stored st ->
  macro_buffer st = ""
  /\ (forall r keys, macros st !! r = Some keys -> keys = "")
  /\ play_macro register st = "".
Proof.
  intros Hst.
  assert (H : macro_buffer st = ""
              /\ forall r keys, macros st !! r = Some keys -> keys = "").
  { induction Hst as [|name l c path st _ IH|reg st _ IH|st _ IH|p d st _ IH].
    - split; [reflexivity|]. intros r keys H.
      unfold init_stores in H. simpl in H. now rewrite lookup_empty in H.
    - exact IH.
    - split; [reflexivity | apply IH].
    - destruct IH as [Hb Hm]. unfold stop_macro.
      destruct (macro_recording st) as [reg|]; [|now split].
      destruct (truthy reg); [|now split].
      simpl. split; [reflexivity|]. intros r keys.
      destruct (decide (r = reg)) as [->|Hne].
      + rewrite lookup_insert_eq. intros [= <-]. exact Hb.
      + rewrite lookup_insert_ne by congruence. apply Hm.
    - exact IH. }
  destruct H as [Hb Hm]. split; [exact Hb|]. split; [exact Hm|].
  unfold play_macro. destruct (macros st !! register) as [keys|] eqn:E;
    [|reflexivity].
  simpl. exact (Hm _ _ E).
Qed.

Lemma macros_are_empty_witness :
  macro_buffer (stop_macro (start_macro "q" init_stores)) = ""
  /\ (forall r keys,
        macros (stop_macro (start_macro "q" init_stores)) !! r = Some keys ->
        keys = "")
  /\ play_macro "q" (stop_macro (start_macro "q" init_stores)) = "".
Proof.
  apply (macros_are_empty (stop_macro (start_macro "q" init_stores)) "q").
  apply stored_stop_macro, stored_start_macro, stored_init.
Defined.

(** The recording under the empty name is never closed. *)
Lemma stop_macro_empty_name (st : Stores) :
  stop_macro (start_macro "" st) = start_macro "" st.
Proof. reflexivity. Qed.

(** The pattern that [get_search_pattern] returns is the one last set,
    empty or not: the two copies of the pattern are always the same, so the
    second one never supplies an older pattern. *)
Theorem search_pattern_is_last_set (st : Stores) :
  stored st ->
  last_search_pattern st = pattern (search_state st)
  /\ get_search_pattern st = pattern (search_state st)
  /\ forall p d, get_search_pattern (set_search_pattern p d st) = p.
Proof.
  intros Hst.
  assert (H : last_search_pattern st = pattern (search_state st)).
  { induction Hst as [|name l c path st _ IH|reg st _ IH|st _ IH|p d st _ IH];
      try exact IH; try reflexivity.
    unfold stop_macro. destruct (macro_recording st) as [reg|]; [|exact IH].
    destruct (truthy reg); exact IH. }
  split; [exact H|]. split.
  - unfold get_search_pattern. rewrite H. now destruct (truthy _).
  - intros p d. unfold get_search_pattern, set_search_pattern. simpl.
    now destruct (truthy p).
Qed.

Lemma search_pattern_is_last_set_witness :
  last_search_pattern (set_search_pattern "" 1
                         (set_search_pattern "old" 1 init_stores))
  = pattern (search_state (set_search_pattern "" 1
                             (set_search_pattern "old" 1 init_stores)))
  /\ get_search_pattern (set_search_pattern "" 1
                           (set_search_pattern "old" 1 init_stores))
     = pattern (search_state (set_search_pattern "" 1
                                (set_search_pattern "old" 1 init_stores)))
  /\ forall p d,
       get_search_pattern
         (set_search_pattern p d
            (set_search_pattern "" 1 (set_search_pattern "old" 1 init_stores)))
       = p.
Proof.
  apply (search_pattern_is_last_set
           (set_search_pattern "" 1 (set_search_pattern "old" 1 init_stores))).
  apply stored_set_search_pattern, stored_set_search_pattern, stored_init.
Defined.

End StoresMore.
